(** * SPI NOR flash engine of the Pico flash-forensics firmware

    A shallow embedding of the chip-probe, addressing, unprotect and
    backup/restore code of [PicotoFlash/sd_functions.c] (the universal JEDEC
    module), of the size detection and the 4-byte capable backup/restore paths
    of [flash_backup_restore.c], of [identify] of the master module and of the
    bounded busy wait of [PicotoFlash/write.c].

    Conventions.  The target is the RP2040 (ILP32): [uint32_t] and [size_t]
    are 32-bit unsigned and are modelled as [Z] with the wrap-around written
    out ([u32]); a [uint8_t] is a [Z] reduced by [u8].  A buffer is a
    [list Z].  The chip on the bus is an arbitrary state machine [respond];
    every chip-select framed transfer is recorded in [trace], every
    diagnostic [printf] that a result depends on in [console].  Loops that
    the C code does not bound take a [fuel] and return [None] when it runs
    out.  A [double] is a binary64 [float] with the IEEE-754 operations of
    round-to-nearest-even. *)

From Stdlib Require Import ZArith List Bool Lia.
From Stdlib Require Import Floats.
Import ListNotations.
Local Open Scope Z_scope.

(** ** Machine integers and bytes *)

Definition u8 (z : Z) : Z := z mod 256.
Definition u32 (z : Z) : Z := z mod 2 ^ 32.

(** Value of a big-endian byte string. *)
Definition be_value (l : list Z) : Z := fold_left (fun acc b => acc * 256 + b) l 0.

(** Value of a little-endian dword, [b0 | b1<<8 | b2<<16 | b3<<24]. *)
Definition le32 (b0 b1 b2 b3 : Z) : Z :=
  Z.lor (Z.lor (Z.lor b0 (Z.shiftl b1 8)) (Z.shiftl b2 16)) (Z.shiftl b3 24).

Definition is_byte (b : Z) : Prop := 0 <= b < 256.

(** ** The bus and the console *)

(** One chip-select framed transfer: the bytes clocked out and the number of
    bytes clocked in afterwards. *)
Record txn : Type := Txn { tx : list Z; rx_len : nat }.

(** Diagnostics printed by the firmware, one constructor per [printf] that
    carries a result. *)
Inductive msg : Type :=
| MsgUnprotectBefore (sr1 sr2 sr3 : Z)
| MsgUnprotectAfter (sr1 sr2 sr3 : Z)
| MsgUnprotectWarn
| MsgReadbackFailed (base : Z)
| MsgVerifyMismatch (base : Z) (bad : nat) (wrote read : Z).

(** ** Chip profile and restore options ([jedec_universal_backup.h]) *)

Record jedec_chip_t : Type := {
  manuf_id : Z;
  mem_type : Z;
  capacity_id : Z;
  total_bytes : Z;
  has_sfdp : bool;
  use_4byte_addr : bool;
  page_size : Z;
  sector_size : Z;
  read_cmd : Z;
  dummy_cycles : Z;
  effective_spi_hz : Z
}.

Record jedec_restore_opts_t : Type := {
  verify_after_write : bool;
  skip_erase_when_all_ff : bool;
  skip_prog_when_all_ff : bool;
  program_chunk : Z;
  erase_gran : Z
}.

(** ** Command headers *)

(** Header built by [jedec_read_chunk]. *)
Definition read_chunk_hdr (chip : jedec_chip_t) (addr : Z) : list Z :=
  [read_cmd chip]
  ++ (if use_4byte_addr chip then [Z.land (Z.shiftr addr 24) 255] else [])
  ++ [Z.land (Z.shiftr addr 16) 255; Z.land (Z.shiftr addr 8) 255; Z.land addr 255]
  ++ (if read_cmd chip =? 11 then [0] else []).

(** Header built by [erase_4k]. *)
Definition erase_4k_hdr (chip : jedec_chip_t) (addr : Z) : list Z :=
  [32]
  ++ (if use_4byte_addr chip then [Z.land (Z.shiftr addr 24) 255] else [])
  ++ [Z.land (Z.shiftr addr 16) 255; Z.land (Z.shiftr addr 8) 255; Z.land addr 255].

(** Header built by [prog_page]. *)
Definition prog_page_hdr (chip : jedec_chip_t) (addr : Z) : list Z :=
  [2]
  ++ (if use_4byte_addr chip then [Z.land (Z.shiftr addr 24) 255] else [])
  ++ [Z.land (Z.shiftr addr 16) 255; Z.land (Z.shiftr addr 8) 255; Z.land addr 255].

(** Headers of [flash_backup_restore.c] (the 4-byte capable revision): the
    fast read of [flash_backup_to_sd], the two erases of [flash_smart_erase]
    and the page program of [flash_restore_from_sd_with_size]. *)
Module BackupRestore.

Definition CMD_FAST_READ : Z := 11.
Definition CMD_PP : Z := 2.
Definition CMD_SE_4K : Z := 32.
Definition CMD_BE_64K : Z := 216.
Definition CMD_FAST_READ_4B : Z := 12.
Definition CMD_PP_4B : Z := 18.
Definition CMD_SE_4K_4B : Z := 33.
Definition CMD_BE_64K_4B : Z := 220.

Definition fast_read_cmd (use_4byte : bool) (addr : Z) : list Z :=
  if use_4byte
  then [CMD_FAST_READ_4B; u8 (Z.shiftr addr 24); u8 (Z.shiftr addr 16);
        u8 (Z.shiftr addr 8); u8 addr; 0]
  else [CMD_FAST_READ; u8 (Z.shiftr addr 16); u8 (Z.shiftr addr 8); u8 addr; 0].

Definition block_erase_64k_cmd (use_4byte : bool) (addr : Z) : list Z :=
  if use_4byte
  then [CMD_BE_64K_4B; u8 (Z.shiftr addr 24); u8 (Z.shiftr addr 16);
        u8 (Z.shiftr addr 8); u8 addr]
  else [CMD_BE_64K; u8 (Z.shiftr addr 16); u8 (Z.shiftr addr 8); u8 addr].

Definition sector_erase_4k_cmd (use_4byte : bool) (addr : Z) : list Z :=
  if use_4byte
  then [CMD_SE_4K_4B; u8 (Z.shiftr addr 24); u8 (Z.shiftr addr 16);
        u8 (Z.shiftr addr 8); u8 addr]
  else [CMD_SE_4K; u8 (Z.shiftr addr 16); u8 (Z.shiftr addr 8); u8 addr].

Definition page_program_cmd (use_4byte : bool) (addr : Z) : list Z :=
  if use_4byte
  then [CMD_PP_4B; u8 (Z.shiftr addr 24); u8 (Z.shiftr addr 16);
        u8 (Z.shiftr addr 8); u8 addr]
  else [CMD_PP; u8 (Z.shiftr addr 16); u8 (Z.shiftr addr 8); u8 addr].

End BackupRestore.

(** ** Option-valued sequencing for code that may not return *)

Definition bind {A B : Type} (c : option A) (k : A -> option B) : option B :=
  match c with
  | Some a => k a
  | None => None
  end.

Notation "x <- c ;; k" := (bind c (fun x => k))
  (at level 61, c at next level, right associativity).
Notation "' p <- c ;; k" := (bind c (fun x => match x with p => k end))
  (at level 61, p pattern, c at next level, right associativity).

(** [all_ff(p, n)]: the first [n] bytes of [p] are all 0xFF. *)
Definition all_ff (p : list Z) (n : Z) : bool :=
  forallb (fun b => b =? 255) (firstn (Z.to_nat n) p).

(** The scan that follows a failed [memcmp]:
    [while (bad < want && buf[bad] == vbuf[bad]) bad++]. *)
Fixpoint first_mismatch (want : nat) (buf vbuf : list Z) : nat :=
  match want with
  | O => O
  | S k =>
      match buf, vbuf with
      | x :: buf', y :: vbuf' =>
          if x =? y then S (first_mismatch k buf' vbuf') else O
      | _, _ => O
      end
  end.

(** [memcmp(buf, vbuf, want) != 0]: some byte below [want] differs. *)
Definition memcmp_differs (buf vbuf : list Z) (want : nat) : bool :=
  (first_mismatch want buf vbuf <? want)%nat.

(** [capacity_from_id]: the capacity byte taken as log2 of the byte count. *)
Definition capacity_from_id (cap_id : Z) : Z :=
  if cap_id >=? 32 then 0 else u32 (Z.shiftl 1 cap_id).

(** Callbacks of the streaming interface.  A sink receives the chunk and its
    offset; a source is asked for [want] bytes at [offset] and answers with
    its return value, the count stored in [*got] and the bytes it left in
    the destination buffer. *)
Definition jedec_sink_cb (U : Type) : Type := U -> list Z -> Z -> bool * U.
Definition jedec_source_cb (U : Type) : Type :=
  U -> Z -> Z -> (bool * Z * (nat -> Z)) * U.

(** Identification record of the master module. *)
Record ident_t : Type := {
  jedec : list Z;
  sfdp_ok : bool;
  sfdp_major : Z;
  sfdp_minor : Z;
  density_bits : Z;
  et_present : list bool;
  et_opcode : list Z;
  et_size_bytes : list Z;
  fastread_0B : bool;
  fastread_dummy : Z
}.

Section Engine.

(** The chip on the bus: given the bytes clocked out and the number of
    bytes to clock in, the stream it answers with and its next state. *)
Variable dev : Type.
Variable respond : dev -> list Z -> nat -> (nat -> Z) * dev.

(** Environment of the firmware: whether [malloc] serves a request of the
    given size, the divider-quantised SPI clock, the configured clock. *)
Variable malloc_ok : Z -> bool.
Variable spi_set_baudrate : Z -> Z.
Variable clk_hz : Z.

Record world : Type := {
  device : dev;
  trace : list txn;
  console : list msg;
  clock : Z
}.

(** [cs_low(); spi_tx(out); spi_rx(n bytes); cs_high();] *)
Definition transact (out : list Z) (n : nat) (w : world) : list Z * world :=
  let (s, d) := respond (device w) out n in
  (map (fun i => u8 (s i)) (seq 0 n),
   {| device := d; trace := trace w ++ [Txn out n];
      console := console w; clock := clock w |}).

Definition send (out : list Z) (w : world) : world := snd (transact out 0 w).

Definition print (m : msg) (w : world) : world :=
  {| device := device w; trace := trace w;
     console := console w ++ [m]; clock := clock w |}.

(** [sleep_us]: the clock advances by the sleeps and, in the waits that
    read the timer, by the time that passes around them ([elapse]). *)
Definition sleep_us (us : Z) (w : world) : world :=
  {| device := device w; trace := trace w;
     console := console w; clock := clock w + us |}.

(** *** [sd_functions.c]: write and status helpers *)

Definition wren (w : world) : world := send [6] w.

Definition rd_status1 (w : world) : Z * world :=
  let (r, w1) := transact [5] 1 w in (nth 0 r 0, w1).

Definition rd_status2 (w : world) : Z * world :=
  let (r, w1) := transact [53] 1 w in (nth 0 r 0, w1).

Definition rd_status3 (w : world) : Z * world :=
  let (r, w1) := transact [21] 1 w in (nth 0 r 0, w1).

Definition ewrsr_legacy (w : world) : world := send [80] w.

(** [while (rd_status1() & 0x01) { sleep_ms(1); }]: no bound in the code,
    so [fuel] counts the status reads. *)
Fixpoint wait_busy (fuel : nat) (w : world) : option world :=
  match fuel with
  | O => None
  | S f =>
      let (v, w1) := rd_status1 w in
      if negb (Z.land v 1 =? 0) then wait_busy f (sleep_us 1000 w1)
      else Some w1
  end.

(** *** [write.c]: the bounded wait of the write benchmark

    The wait reads [time_us_64()] after each status read.  [lapse w] is the
    time that passes from one reading of the timer to the next, the sleep
    of 200 us apart, when the status read is issued in state [w]: the
    transfer itself and the instructions around it. *)
Variable lapse : world -> Z.

Definition elapse (us : Z) (w : world) : world :=
  {| device := device w; trace := trace w;
     console := console w; clock := clock w + us |}.

Definition flash_rdsr (w : world) : Z * world :=
  let (r, w1) := transact [5] 1 w in (nth 0 r 0, w1).

Fixpoint flash_wait_busy_from (fuel : nat) (timeout_ms start : Z) (w : world)
  : option (bool * world) :=
  match fuel with
  | O => None
  | S f =>
      let (v, w0) := flash_rdsr w in
      let w1 := elapse (lapse w) w0 in
      if negb (Z.land v 1 =? 0) then
        if clock w1 - start >? timeout_ms * 1000 then Some (false, w1)
        else flash_wait_busy_from f timeout_ms start (sleep_us 200 w1)
      else Some (true, w1)
  end.

Definition flash_wait_busy (fuel : nat) (timeout_ms : Z) (w : world)
  : option (bool * world) :=
  flash_wait_busy_from fuel timeout_ms (clock w) w.

(** *** [sd_functions.c]: probe *)

Definition read_jedec_id (w : world) : list Z * world := transact [159] 3 w.

Definition try_sfdp (len : nat) (w : world) : bool * list Z * world :=
  let (buf, w1) := transact [90; 0; 0; 0; 0] len w in
  ((4 <=? len)%nat && (nth 0 buf 0 =? 83) && (nth 1 buf 0 =? 70)
     && (nth 2 buf 0 =? 68) && (nth 3 buf 0 =? 80),
   buf, w1).

Definition jedec_probe (w : world) : bool * jedec_chip_t * world :=
  let eff := spi_set_baudrate clk_hz in
  let (id, w1) := read_jedec_id w in
  let '(sfdp, _, w2) := try_sfdp 16 w1 in
  let total0 := capacity_from_id (nth 2 id 0) in
  let total := if total0 =? 0 then 512 * 1024 else total0 in
  let use4 := total >? 16 * 1024 * 1024 in
  let w3 := if use4 then send [183] w2 else w2 in
  (true,
   {| manuf_id := nth 0 id 0; mem_type := nth 1 id 0; capacity_id := nth 2 id 0;
      total_bytes := total; has_sfdp := sfdp; use_4byte_addr := use4;
      page_size := 256; sector_size := 4096;
      read_cmd := if sfdp then 11 else 3;
      dummy_cycles := if sfdp then 8 else 0;
      effective_spi_hz := eff |},
   w3).

(** *** [sd_functions.c]: backup *)

Definition jedec_read_chunk (chip : jedec_chip_t) (addr len : Z) (w : world)
  : bool * list Z * world :=
  let (buf, w1) := transact (read_chunk_hdr chip addr) (Z.to_nat len) w in
  (true, buf, w1).

(** The [for] loop of [jedec_backup_stream]; [a + n] is a 32-bit sum. *)
Fixpoint backup_loop {U : Type} (fuel : nat) (chip : jedec_chip_t)
    (end_ chunk : Z) (sink : jedec_sink_cb U) (a : Z) (w : world) (user : U)
  : option (bool * world * U) :=
  match fuel with
  | O => None
  | S f =>
      if a <? end_ then
        let n := if u32 (a + chunk) >? end_ then u32 (end_ - a) else chunk in
        let '(ok, buf, w1) := jedec_read_chunk chip a n w in
        if negb ok then Some (false, w1, user)
        else
          let (r, user1) := sink user buf a in
          if negb r then Some (false, w1, user1)
          else backup_loop f chip end_ chunk sink (u32 (a + n)) w1 user1
      else Some (true, w, user)
  end.

Definition jedec_backup_stream {U : Type} (fuel : nat) (chip : jedec_chip_t)
    (offset len chunk : Z) (sink : option (jedec_sink_cb U)) (w : world) (user : U)
  : option (bool * world * U) :=
  match sink with
  | None => Some (false, w, user)
  | Some sink =>
      if chunk =? 0 then Some (false, w, user)
      else if negb (malloc_ok chunk) then Some (false, w, user)
      else backup_loop fuel chip (u32 (offset + len)) chunk sink offset w user
  end.

Definition jedec_backup_full {U : Type} (fuel : nat) (chip : jedec_chip_t)
    (sink : option (jedec_sink_cb U)) (w : world) (user : U)
  : option (bool * world * U) :=
  jedec_backup_stream fuel chip 0 (total_bytes chip) (64 * 1024) sink w user.

(** *** [sd_functions.c]: erase, program, unprotect *)

Definition erase_4k (polls : nat) (chip : jedec_chip_t) (addr : Z) (w : world)
  : option world :=
  wait_busy polls (send (erase_4k_hdr chip addr) (wren w)).

Definition prog_page (polls : nat) (chip : jedec_chip_t) (addr : Z)
    (data : list Z) (w : world) : option world :=
  wait_busy polls (send (prog_page_hdr chip addr ++ data) (wren w)).

Definition jedec_try_unprotect (polls : nat) (chip : jedec_chip_t) (w : world)
  : option (bool * world) :=
  let (sr1_before, w1) := rd_status1 w in
  let (sr2_before, w2) := rd_status2 w1 in
  let (sr3_before, w3) := rd_status3 w2 in
  let w4 := print (MsgUnprotectBefore sr1_before sr2_before sr3_before) w3 in
  w5 <- wait_busy polls (send [152] (wren w4)) ;;
  let sr1_new := u8 (Z.land sr1_before (Z.lnot 252)) in
  let sr2_new := sr2_before in
  let w6 := wren (ewrsr_legacy w5) in
  w7 <- wait_busy polls (send [1; sr1_new; sr2_new] w6) ;;
  let (sr1_after, w8) := rd_status1 w7 in
  let (sr2_after, w9) := rd_status2 w8 in
  let (sr3_after, w10) := rd_status3 w9 in
  let w11 := print (MsgUnprotectAfter sr1_after sr2_after sr3_after) w10 in
  let bp_cleared := Z.land sr1_after 124 =? 0 in
  let w12 := if negb bp_cleared then print MsgUnprotectWarn w11 else w11 in
  Some (true, w12).

(** *** [sd_functions.c]: restore *)

(** The page loop of [jedec_restore_stream]. *)
Fixpoint program_pages (polls fuel : nat) (chip : jedec_chip_t)
    (opts : jedec_restore_opts_t) (base : Z) (buf : list Z) (want off : Z)
    (w : world) : option world :=
  match fuel with
  | O => None
  | S f =>
      if off <? want then
        let page_addr := u32 (base + off) in
        let page_off := Z.land page_addr (u32 (program_chunk opts - 1)) in
        let this_left := u32 (program_chunk opts - page_off) in
        let remain := u32 (want - off) in
        let n := if this_left <? remain then this_left else remain in
        let page := firstn (Z.to_nat n) (skipn (Z.to_nat off) buf) in
        w1 <- (if negb (skip_prog_when_all_ff opts && all_ff page n)
               then prog_page polls chip page_addr page w
               else Some w) ;;
        program_pages polls f chip opts base buf want (u32 (off + n)) w1
      else Some w
  end.

(** What the sector loop does with a block once it has been pulled: the
    result is [true] when the loop goes on to the next block and [false]
    when [jedec_restore_stream] returns [false]. *)
Definition restore_block (polls fuel : nat) (chip : jedec_chip_t)
    (opts : jedec_restore_opts_t) (base : Z) (buf : list Z) (want : Z)
    (w : world) : option (bool * world) :=
  let skip_sector := skip_erase_when_all_ff opts && all_ff buf want in
  if negb skip_sector then
    w1 <- erase_4k polls chip base w ;;
    w2 <- program_pages polls fuel chip opts base buf want 0 w1 ;;
    if verify_after_write opts then
      let '(ok, vbuf, w3) := jedec_read_chunk chip base want w2 in
      if negb ok then Some (false, print (MsgReadbackFailed base) w3)
      else if memcmp_differs buf vbuf (Z.to_nat want) then
        let bad := first_mismatch (Z.to_nat want) buf vbuf in
        Some (false,
              print (MsgVerifyMismatch base bad (nth bad buf 0) (nth bad vbuf 0)) w3)
      else Some (true, w3)
    else Some (true, w2)
  else Some (true, w).

(** The sector loop of [jedec_restore_stream]. *)
Fixpoint restore_loop {U : Type} (polls budget fuel : nat) (chip : jedec_chip_t)
    (opts : jedec_restore_opts_t) (src : jedec_source_cb U)
    (end_ sector base : Z) (w : world) (user : U)
  : option (bool * world * U) :=
  match fuel with
  | O => None
  | S f =>
      if base <? end_ then
        let want := if u32 (base + sector) >? end_ then u32 (end_ - base)
                    else sector in
        let '(ok, got, data, user1) := src user want base in
        if negb ok || negb (got =? want) then Some (false, w, user1)
        else
          let buf := map (fun i => u8 (data i)) (seq 0 (Z.to_nat want)) in
          '(go_on, w1) <- restore_block polls budget chip opts base buf want w ;;
          if go_on
          then restore_loop polls budget f chip opts src end_ sector
                            (u32 (base + sector)) w1 user1
          else Some (false, w1, user1)
      else Some (true, w, user)
  end.

Definition default_opts (chip : jedec_chip_t) : jedec_restore_opts_t :=
  {| verify_after_write := true;
     skip_erase_when_all_ff := true;
     skip_prog_when_all_ff := true;
     program_chunk := if page_size chip =? 0 then 256 else page_size chip;
     erase_gran := if sector_size chip =? 0 then 4096 else sector_size chip |}.

Definition jedec_restore_stream {U : Type} (polls fuel : nat) (chip : jedec_chip_t)
    (offset len : Z) (src : option (jedec_source_cb U)) (w : world) (user : U)
    (opts_in : option jedec_restore_opts_t) : option (bool * world * U) :=
  match src with
  | None => Some (false, w, user)
  | Some src =>
      let opts := match opts_in with
                  | Some o => o
                  | None => default_opts chip
                  end in
      let sector := erase_gran opts in
      if negb (malloc_ok sector) then Some (false, w, user)
      else
        '(_, w1) <- jedec_try_unprotect polls chip w ;;
        restore_loop polls fuel fuel chip opts src (u32 (offset + len)) sector
                     offset w1 user
  end.

Definition jedec_restore_full {U : Type} (polls fuel : nat) (chip : jedec_chip_t)
    (src : option (jedec_source_cb U)) (w : world) (user : U)
    (opts : option jedec_restore_opts_t) : option (bool * world * U) :=
  jedec_restore_stream polls fuel chip 0 (total_bytes chip) src w user opts.

(** *** [flash_backup_restore.c]: size detection

    The density dword is read from SFDP address 0x000004, as in the code. *)
Definition flash_detect_size (w : world) : Z * world :=
  let (sfdp_sig, w1) := transact [90; 0; 0; 0; 0] 4 w in
  if (nth 0 sfdp_sig 0 =? 83) && (nth 1 sfdp_sig 0 =? 70)
     && (nth 2 sfdp_sig 0 =? 68) && (nth 3 sfdp_sig 0 =? 80)
  then
    let (density_bytes, w2) := transact [90; 0; 0; 4; 0] 4 w1 in
    let density_bits :=
      le32 (nth 0 density_bytes 0) (nth 1 density_bytes 0)
           (nth 2 density_bytes 0) (nth 3 density_bytes 0) in
    if negb (Z.land density_bits 2147483648 =? 0) then
      let size_bits := u32 (Z.land density_bits 2147483647 + 1) in
      (u32 (size_bits + 7) / 8, w2)
    else (u32 (density_bits + 1 + 7) / 8, w2)
  else
    let (jedec, w2) := transact [159] 3 w1 in
    let capacity_code := nth 2 jedec 0 in
    if (capacity_code >=? 16) && (capacity_code <=? 31)
    then (u32 (Z.shiftl 1 capacity_code), w2)
    else (0, w2).

(** *** Master module: [identify] *)

Definition read_sfdp (a : Z) (n : nat) (w : world) : bool * list Z * world :=
  if a >? 16777215 then (false, [], w)
  else
    let (buf, w1) :=
      transact [90; u8 (Z.shiftr a 16); u8 (Z.shiftr a 8); u8 a; 0] n w in
    (true, buf, w1).

(** The search for the Basic Flash Parameter Table among [nph] parameter
    headers; the result is [(ptp, dwords)] of the first header whose low
    id word reads 0xFF00. *)
Fixpoint find_bfpt (ph : list Z) (idx : list nat) : option (Z * Z) :=
  match idx with
  | [] => None
  | i :: rest =>
      let p := fun k => nth (i * 8 + k) ph 0 in
      let idlsb := Z.lor (p 0%nat) (Z.shiftl (p 1%nat) 8) in
      if idlsb =? 65280
      then Some (Z.lor (Z.lor (p 5%nat) (Z.shiftl (p 6%nat) 8))
                       (Z.shiftl (p 7%nat) 16),
                 p 4%nat)
      else find_bfpt ph rest
  end.

(** [identify].  The baud-rate changes around the SFDP reads have no
    effect on the transfers and are left out; a shift by 32 or more
    ([1u << n]) is taken to give 0, as the Cortex-M0+ shifter does. *)
Definition identify (w : world) : ident_t * world :=
  let (id3, w1) := transact [159] 3 w in
  let '(_, hdr, w2) := read_sfdp 0 8 w1 in
  let signed := (nth 0 hdr 0 =? 83) && (nth 1 hdr 0 =? 70)
                && (nth 2 hdr 0 =? 68) && (nth 3 hdr 0 =? 80) in
  let '(maj, mnr, dens, etp, eto, ets, w5) :=
    if signed then
      let nph := u8 (nth 6 hdr 0 + 1) in
      let need := if nph * 8 >? 128 then 128 else nph * 8 in
      let '(_, got, w3) := read_sfdp 8 (Z.to_nat need) w2 in
      let ph := got ++ repeat 0 (128 - Z.to_nat need) in
      let '(ptp, dwords) :=
        match find_bfpt ph (seq 0 (Z.to_nat nph)) with
        | Some r => r
        | None => (48, 64)
        end in
      let bytes := if dwords * 4 >? 256 then 256 else dwords * 4 in
      let '(_, got_bf, w4) := read_sfdp ptp (Z.to_nat bytes) w3 in
      let bf := got_bf ++ repeat 0 (256 - Z.to_nat bytes) in
      let b := fun k => nth k bf 0 in
      let dens :=
        if bytes >=? 8 then
          let d2 := le32 (b 4%nat) (b 5%nat) (b 6%nat) (b 7%nat) in
          if Z.land d2 2147483648 =? 0 then u32 (d2 + 1)
          else
            let n := u32 (Z.land d2 2147483647 + 1) in
            if n >=? 32 then u32 (Z.shiftl 1 n) else 0
        else 0 in
      let '(etp, eto, ets) :=
        if bytes >=? 32 then
          let d7 := le32 (b 24%nat) (b 25%nat) (b 26%nat) (b 27%nat) in
          let d8 := le32 (b 28%nat) (b 29%nat) (b 30%nat) (b 31%nat) in
          let szn := [u8 d7; u8 (Z.shiftr d7 16); u8 d8; u8 (Z.shiftr d8 16)] in
          let opc := [u8 (Z.shiftr d7 8); u8 (Z.shiftr d7 24);
                      u8 (Z.shiftr d8 8); u8 (Z.shiftr d8 24)] in
          let sz := map (fun s => u32 (Z.shiftl 1 s)) szn in
          (map (fun s => negb (s =? 0)) sz, opc, sz)
        else ([false; false; false; false], [0; 0; 0; 0], [0; 0; 0; 0]) in
      (nth 5 hdr 0, nth 4 hdr 0, dens, etp, eto, ets, w4)
    else (0, 0, 0, [false; false; false; false], [0; 0; 0; 0], [0; 0; 0; 0], w2) in
  let (_, w6) := transact [11; 0; 0; 0; 0] 1 w5 in
  ({| jedec := id3; sfdp_ok := signed; sfdp_major := maj; sfdp_minor := mnr;
      density_bits := dens; et_present := etp; et_opcode := eto;
      et_size_bytes := ets; fastread_0B := true; fastread_dummy := 1 |},
   w6).

(** *** Reference behaviour of the backup, in the words of the specification

    The chunks [[offset, offset+len)] is cut into: [chunk] bytes each, the
    last one possibly shorter. *)
Definition chunk_plan (offset len chunk : Z) : list (Z * Z) :=
  map (fun i => (offset + Z.of_nat i * chunk,
                 Z.min chunk (len - Z.of_nat i * chunk)))
      (seq 0 (Z.to_nat ((len + chunk - 1) / chunk))).

(** Read each chunk of a plan in order and hand it to the sink; stop at the
    first chunk the sink refuses. *)
Fixpoint sink_chunks {U : Type} (chip : jedec_chip_t) (sink : jedec_sink_cb U)
    (plan : list (Z * Z)) (w : world) (user : U) : bool * world * U :=
  match plan with
  | [] => (true, w, user)
  | (a, n) :: rest =>
      let '(_, buf, w1) := jedec_read_chunk chip a n w in
      let (r, user1) := sink user buf a in
      if r then sink_chunks chip sink rest w1 user1 else (false, w1, user1)
  end.

End Engine.

Arguments device {dev} _.
Arguments trace {dev} _.
Arguments console {dev} _.
Arguments clock {dev} _.
Arguments transact {dev} respond out n w.
Arguments send {dev} respond out w.
Arguments print {dev} m w.
Arguments sleep_us {dev} us w.
Arguments wren {dev} respond w.
Arguments rd_status1 {dev} respond w.
Arguments rd_status2 {dev} respond w.
Arguments rd_status3 {dev} respond w.
Arguments ewrsr_legacy {dev} respond w.
Arguments wait_busy {dev} respond fuel w.
Arguments flash_rdsr {dev} respond w.
Arguments elapse {dev} us w.
Arguments flash_wait_busy_from {dev} respond lapse fuel timeout_ms start w.
Arguments flash_wait_busy {dev} respond lapse fuel timeout_ms w.
Arguments read_jedec_id {dev} respond w.
Arguments try_sfdp {dev} respond len w.
Arguments jedec_probe {dev} respond spi_set_baudrate clk_hz w.
Arguments jedec_read_chunk {dev} respond chip addr len w.
Arguments backup_loop {dev} respond {U} fuel chip end_ chunk sink a w user.
Arguments jedec_backup_stream {dev} respond malloc_ok {U} fuel chip offset len chunk sink w user.
Arguments jedec_backup_full {dev} respond malloc_ok {U} fuel chip sink w user.
Arguments erase_4k {dev} respond polls chip addr w.
Arguments prog_page {dev} respond polls chip addr data w.
Arguments jedec_try_unprotect {dev} respond polls chip w.
Arguments program_pages {dev} respond polls fuel chip opts base buf want off w.
Arguments restore_block {dev} respond polls fuel chip opts base buf want w.
Arguments restore_loop {dev} respond {U} polls budget fuel chip opts src end_ sector base w user.
Arguments jedec_restore_stream {dev} respond malloc_ok {U} polls fuel chip offset len src w user opts_in.
Arguments jedec_restore_full {dev} respond malloc_ok {U} polls fuel chip src w user opts.
Arguments flash_detect_size {dev} respond w.
Arguments read_sfdp {dev} respond a n w.
Arguments identify {dev} respond w.
Arguments sink_chunks {dev} respond {U} chip sink plan w user.

(** The report of the unprotect step as the console shows it: the call was
    made ([attempted], its return value) and no warning about remaining
    block-protect bits was printed ([confirmed_cleared]). *)
Definition is_warn (m : msg) : bool :=
  match m with
  | MsgUnprotectWarn => true
  | _ => false
  end.

Definition attempted {dev : Type} (r : option (bool * world dev)) : bool :=
  match r with
  | Some (ret, _) => ret
  | None => false
  end.

Definition confirmed_cleared {dev : Type} (r : option (bool * world dev)) : bool :=
  match r with
  | Some (_, w) => negb (existsb is_warn (console w))
  | None => false
  end.

(** ** Test devices *)

(** A bus with no chip driving it: MISO is pulled up ([jedec_init]), so
    every byte clocked in reads 0xFF. *)
Module NoChip.

Definition respond (d : unit) (out : list Z) (n : nat) : (nat -> Z) * unit :=
  (fun _ => 255, d).

Definition boot : world unit :=
  {| device := tt; trace := []; console := []; clock := 0 |}.

End NoChip.

(** A small NOR flash: cells that start out at [fill], are programmed by
    clearing bits and erased to 0xFF by 4 KiB sector (kept as the list of
    operations applied, latest first), three status registers, a busy flag
    that stays up for [op_polls] status reads after an erase, a program or a
    status write, a JEDEC id and an SFDP space (a sparse table, 0xFF
    elsewhere).  [wrsr_accepted = false] makes it ignore status-register
    writes; [stuck] is a cell whose read-back is forced to a fixed value. *)
Module Mock.

Inductive flash_op : Type :=
| Erased (sector : Z)
| Programmed (addr : Z) (data : list Z).

Record chip : Type := {
  fill : Z;
  ops : list flash_op;
  sr1 : Z;
  sr2 : Z;
  sr3 : Z;
  busy : nat;
  op_polls : nat;
  wrsr_accepted : bool;
  jedec_id : list Z;
  sfdp : list (Z * Z);
  stuck : option (Z * Z)
}.

Fixpoint content (init : Z) (l : list flash_op) (a : Z) : Z :=
  match l with
  | [] => init
  | Erased s :: rest => if a / 4096 =? s then 255 else content init rest a
  | Programmed base data :: rest =>
      if (base <=? a) && (a <? base + Z.of_nat (length data))
      then Z.land (content init rest a) (nth (Z.to_nat (a - base)) data 255)
      else content init rest a
  end.

Definition mem (c : chip) (a : Z) : Z := content (fill c) (ops c) a.

Definition cell (c : chip) (a : Z) : Z :=
  match stuck c with
  | Some (sa, v) => if a =? sa then v else mem c a
  | None => mem c a
  end.

(** A sparse byte table; unlisted addresses read 0xFF. *)
Fixpoint table (t : list (Z * Z)) (a : Z) : Z :=
  match t with
  | [] => 255
  | (k, v) :: rest => if a =? k then v else table rest a
  end.

Definition apply_op (o : flash_op) (c : chip) : chip :=
  {| fill := fill c; ops := o :: ops c; sr1 := sr1 c; sr2 := sr2 c; sr3 := sr3 c;
     busy := op_polls c; op_polls := op_polls c;
     wrsr_accepted := wrsr_accepted c; jedec_id := jedec_id c; sfdp := sfdp c;
     stuck := stuck c |}.

Definition with_busy (k : nat) (c : chip) : chip :=
  {| fill := fill c; ops := ops c; sr1 := sr1 c; sr2 := sr2 c; sr3 := sr3 c;
     busy := k; op_polls := op_polls c; wrsr_accepted := wrsr_accepted c;
     jedec_id := jedec_id c; sfdp := sfdp c; stuck := stuck c |}.

Definition with_status (s1 s2 : Z) (c : chip) : chip :=
  {| fill := fill c; ops := ops c; sr1 := s1; sr2 := s2; sr3 := sr3 c;
     busy := op_polls c; op_polls := op_polls c;
     wrsr_accepted := wrsr_accepted c; jedec_id := jedec_id c; sfdp := sfdp c;
     stuck := stuck c |}.

Definition addr3 (a2 a1 a0 : Z) : Z := a2 * 65536 + a1 * 256 + a0.

Definition respond (c : chip) (out : list Z) (n : nat) : (nat -> Z) * chip :=
  match out with
  | [] => (fun _ => 255, c)
  | op :: args =>
      if op =? 5 then
        (fun _ => Z.lor (Z.land (sr1 c) 254)
                        (match busy c with O => 0 | S _ => 1 end),
         with_busy (pred (busy c)) c)
      else if op =? 53 then (fun _ => sr2 c, c)
      else if op =? 21 then (fun _ => sr3 c, c)
      else if op =? 159 then (fun i => nth i (jedec_id c) 0, c)
      else if op =? 90 then
        (fun i => table (sfdp c)
                        (addr3 (nth 0 args 0) (nth 1 args 0) (nth 2 args 0)
                         + Z.of_nat i), c)
      else if (op =? 3) || (op =? 11) then
        (fun i => cell c (addr3 (nth 0 args 0) (nth 1 args 0) (nth 2 args 0)
                          + Z.of_nat i), c)
      else if op =? 1 then
        (fun _ => 255,
         if wrsr_accepted c
         then with_status (Z.land (nth 0 args 0) 254) (nth 1 args (sr2 c)) c
         else c)
      else if op =? 32 then
        (fun _ => 255,
         apply_op (Erased (addr3 (nth 0 args 0) (nth 1 args 0) (nth 2 args 0)
                           / 4096)) c)
      else if op =? 2 then
        (fun _ => 255,
         apply_op (Programmed (addr3 (nth 0 args 0) (nth 1 args 0) (nth 2 args 0))
                              (skipn 3 args)) c)
      else (fun _ => 255, c)
  end.

Definition boot (c : chip) : world chip :=
  {| device := c; trace := []; console := []; clock := 0 |}.

(** A blank, unprotected, idle 16 MiB part without SFDP. *)
Definition blank : chip :=
  {| fill := 255; ops := []; sr1 := 0; sr2 := 0; sr3 := 0; busy := 0;
     op_polls := 2; wrsr_accepted := true; jedec_id := [239; 64; 24];
     sfdp := []; stuck := None |}.

Definition with_sfdp (t : list (Z * Z)) (c : chip) : chip :=
  {| fill := fill c; ops := ops c; sr1 := sr1 c; sr2 := sr2 c; sr3 := sr3 c;
     busy := busy c; op_polls := op_polls c; wrsr_accepted := wrsr_accepted c;
     jedec_id := jedec_id c; sfdp := t; stuck := stuck c |}.

Definition with_stuck (a v : Z) (c : chip) : chip :=
  {| fill := fill c; ops := ops c; sr1 := sr1 c; sr2 := sr2 c; sr3 := sr3 c;
     busy := busy c; op_polls := op_polls c; wrsr_accepted := wrsr_accepted c;
     jedec_id := jedec_id c; sfdp := sfdp c; stuck := Some (a, v) |}.

Definition with_protection (s1 : Z) (accepted : bool) (c : chip) : chip :=
  {| fill := fill c; ops := ops c; sr1 := s1; sr2 := sr2 c; sr3 := sr3 c;
     busy := busy c; op_polls := op_polls c; wrsr_accepted := accepted;
     jedec_id := jedec_id c; sfdp := sfdp c; stuck := stuck c |}.

Definition with_jedec_id (id : list Z) (c : chip) : chip :=
  {| fill := fill c; ops := ops c; sr1 := sr1 c; sr2 := sr2 c; sr3 := sr3 c;
     busy := busy c; op_polls := op_polls c; wrsr_accepted := wrsr_accepted c;
     jedec_id := id; sfdp := sfdp c; stuck := stuck c |}.

(** A part whose every cell holds 0x00. *)
Definition zeroed : chip :=
  {| fill := 0; ops := []; sr1 := 0; sr2 := 0; sr3 := 0; busy := 0;
     op_polls := 2; wrsr_accepted := true; jedec_id := [239; 64; 24];
     sfdp := []; stuck := None |}.

(** SFDP spaces that answer the signature and hand the given density
    dword (little-endian bytes [b0..b3]) both at address 0x04, where
    [flash_detect_size] reads it, and at 0x34, DWORD 2 of the parameter
    table at the default offset 0x30, where [identify] reads it. *)
Definition sfdp_with_density (b0 b1 b2 b3 : Z) : list (Z * Z) :=
  [(0, 83); (1, 70); (2, 68); (3, 80);
   (4, b0); (5, b1); (6, b2); (7, b3);
   (52, b0); (53, b1); (54, b2); (55, b3)].

(** 128 Mbit in the direct encoding: 0x07FFFFFF. *)
Definition density_direct_128Mbit : chip :=
  with_sfdp (sfdp_with_density 255 255 255 7) blank.

(** 128 Mbit in the bit-31 encoding the specification gives,
    [2^((value & 0x7FFFFFFF)+1)] bits: 0x8000001A. *)
Definition density_pow2_128Mbit : chip :=
  with_sfdp (sfdp_with_density 26 0 0 128) blank.

End Mock.

(** ** Vocabulary of the statements *)

(** A command header made of [opcode], then exactly [nbytes] address bytes
    that spell [value] big-endian, then [tail] (the dummy byte of a fast
    read, or nothing). *)
Definition emits (hdr : list Z) (opcode : Z) (nbytes : nat) (value : Z)
    (tail : list Z) : Prop :=
  exists bs, hdr = opcode :: bs ++ tail /\ length bs = nbytes
             /\ Forall is_byte bs /\ be_value bs = value.

(** The address as a header of the given width carries it. *)
Definition addr_on_wire (four : bool) (addr : Z) : Z :=
  if four then addr else addr mod 2 ^ 24.

Definition addr_width (four : bool) : nat := if four then 4%nat else 3%nat.

(** The profile [jedec_probe] builds for a 32 MiB part (capacity byte 0x19)
    that answers the SFDP signature. *)
Definition chip_32MiB : jedec_chip_t :=
  {| manuf_id := 239; mem_type := 64; capacity_id := 25;
     total_bytes := 33554432; has_sfdp := true; use_4byte_addr := true;
     page_size := 256; sector_size := 4096; read_cmd := 11; dummy_cycles := 8;
     effective_spi_hz := 8000000 |}.

(** The same for a 16 MiB part (capacity byte 0x18). *)
Definition chip_16MiB : jedec_chip_t :=
  {| manuf_id := 239; mem_type := 64; capacity_id := 24;
     total_bytes := 16777216; has_sfdp := true; use_4byte_addr := false;
     page_size := 256; sector_size := 4096; read_cmd := 11; dummy_cycles := 8;
     effective_spi_hz := 8000000 |}.

(** A plan tiles [[a, e)]: its chunks are non-empty, each starts where the
    previous one ended, the first at [a], and the last ends at [e]. *)
Fixpoint tiles (a : Z) (plan : list (Z * Z)) (e : Z) : Prop :=
  match plan with
  | [] => a = e
  | (o, n) :: rest => o = a /\ 0 < n /\ tiles (a + n) rest e
  end.

(** Every chunk of a plan has [chunk] bytes, except that the last one may
    have fewer. *)
Fixpoint full_but_last (chunk : Z) (plan : list (Z * Z)) : Prop :=
  match plan with
  | [] => True
  | (_, n) :: rest =>
      match rest with
      | [] => 0 < n <= chunk
      | _ :: _ => n = chunk /\ full_but_last chunk rest
      end
  end.

(** A sink that keeps what it is given and refuses the chunk at offset
    [refuse_at], if any; a source that serves an image held in memory. *)
Definition collecting_sink (refuse_at : option Z) : jedec_sink_cb (list (Z * list Z)) :=
  fun got buf a =>
    (match refuse_at with
     | Some r => negb (a =? r)
     | None => true
     end,
     got ++ [(a, buf)]).

Definition image_source (image : Z -> Z) : jedec_source_cb nat :=
  fun pulls want offset =>
    (true, want, fun i => image (offset + Z.of_nat i), S pulls).

(** Restore options with everything switched on, 256-byte pages and 4 KiB
    sectors. *)
Definition opts_all_on : jedec_restore_opts_t :=
  {| verify_after_write := true; skip_erase_when_all_ff := true;
     skip_prog_when_all_ff := true; program_chunk := 256; erase_gran := 4096 |}.

(** The allocator of a board with 64 KiB to spare. *)
Definition small_heap (n : Z) : bool := n <=? 65536.

(** A step that only used the bus: the console is as before and the trace
    has grown at its end.  A step after which the trace has grown. *)
Definition bus_only {dev : Type} (w w' : world dev) : Prop :=
  console w' = console w /\ exists l, trace w' = trace w ++ l.

Definition trace_grows {dev : Type} (w w' : world dev) : Prop :=
  exists l, trace w' = trace w ++ l.

(** ** [read.c]: choice of the captures around 50 MHz

    The achieved clocks are [int]s; the throughputs interpolated between the
    chosen captures are [double]s and are not modelled. *)
Module ReadBench.

Fixpoint find_best_below_from (mhz : list Z) (i idx best : Z) : Z :=
  match mhz with
  | [] => idx
  | m :: rest =>
      if (m <? 50) && (m >? best)
      then find_best_below_from rest (i + 1) i m
      else find_best_below_from rest (i + 1) idx best
  end.

Definition find_best_below (mhz : list Z) : Z :=
  find_best_below_from mhz 0 (-1) (-100000).

Fixpoint find_best_above_from (mhz : list Z) (i idx best : Z) : Z :=
  match mhz with
  | [] => idx
  | m :: rest =>
      if (m >? 50) && (m <? best)
      then find_best_above_from rest (i + 1) i m
      else find_best_above_from rest (i + 1) idx best
  end.

Definition find_best_above (mhz : list Z) : Z :=
  find_best_above_from mhz 0 (-1) 1000000.

Fixpoint find_closest_from (mhz : list Z) (i idx bestd : Z) : Z :=
  match mhz with
  | [] => idx
  | m :: rest =>
      let d := Z.abs (m - 50) in
      if d <? bestd
      then find_closest_from rest (i + 1) i d
      else find_closest_from rest (i + 1) idx bestd
  end.

Definition find_closest (mhz : list Z) : Z :=
  find_closest_from mhz 0 (-1) 1000000.

(** [idx_lo >= 0 && idx_hi >= 0]: the interpolation branch of
    [read_derive_and_print_50] is taken. *)
Definition interpolates (mhz : list Z) : bool :=
  (find_best_below mhz >=? 0) && (find_best_above mhz >=? 0).

(** [(double)i] for an [int]. *)
Definition double_of_int (i : Z) : float :=
  if i <? 0 then PrimFloat.opp (PrimFloat.of_uint63 (Uint63.of_Z (- i)))
  else PrimFloat.of_uint63 (Uint63.of_Z i).

(** A capture: [filled], [actual_mhz] and, for each read size, the
    throughput [rows[si].stats.mb_s]. *)
Record read_bench_capture_t : Type := {
  filled : bool;
  actual_mhz : Z;
  mb_s : list float
}.

Definition no_capture : read_bench_capture_t :=
  {| filled := false; actual_mhz := 0; mb_s := [] |}.

Definition NUM_READ_SIZES : nat := 5.

(** [1e-9] as the compiler rounds it. *)
Definition tiny : float := 0x1.12e0be826d695p-30%float.

(** The value [mb50] of one pass of the loop over the sizes in
    [read_derive_and_print_50]; [actuals] and [used] are the arrays the
    function fills from the captures that are [filled]. *)
Definition mb50_row (actuals : list Z) (used : list read_bench_capture_t)
    (si : nat) : float :=
  let idx_lo := find_best_below actuals in
  let idx_hi := find_best_above actuals in
  let idx_closest := find_closest actuals in
  let f := fun i => double_of_int (nth (Z.to_nat i) actuals 0) in
  let mb := fun i => nth si (mb_s (nth (Z.to_nat i) used no_capture)) 0%float in
  if (idx_lo >=? 0) && (idx_hi >=? 0) then
    let f_lo := f idx_lo in
    let f_hi := f idx_hi in
    let mb_lo := mb idx_lo in
    let mb_hi := mb idx_hi in
    if PrimFloat.ltb (PrimFloat.abs (PrimFloat.sub f_hi f_lo)) tiny
    then PrimFloat.mul (PrimFloat.add mb_lo mb_hi) 0.5%float
    else
      let t := PrimFloat.div (PrimFloat.sub 50%float f_lo) (PrimFloat.sub f_hi f_lo) in
      PrimFloat.add mb_lo (PrimFloat.mul t (PrimFloat.sub mb_hi mb_lo))
  else
    let ic := idx_closest in
    let f_c := f ic in
    let mb_c := mb ic in
    PrimFloat.mul mb_c (PrimFloat.div 50%float f_c).

(** [read_derive_and_print_50]: the throughput column of the table it
    prints, one row per read size (empty when it prints that the table is
    skipped), and the value it leaves in [g_derived_50mhz_speed], that of
    the 4096-byte row.  The scaled [avg_us] column is left out.  The arrays
    [actuals] and [used] hold 8 entries, so at most 8 captures are filled. *)
Definition read_derive_and_print_50 (caps : list read_bench_capture_t)
  : list float * float :=
  let used := filter filled caps in
  let actuals := map actual_mhz used in
  if (length used =? 0)%nat then ([], 0%float)
  else
    let rows := map (mb50_row actuals used) (seq 0 NUM_READ_SIZES) in
    (rows, nth 2 rows 0%float).

(** Linear interpolation of throughput by clock frequency at 50 MHz, and
    proportional scaling of one capture to 50 MHz, in [double] arithmetic. *)
Definition linear_interpolation (f_lo f_hi : Z) (mb_lo mb_hi : float) : float :=
  PrimFloat.add mb_lo
    (PrimFloat.mul
       (PrimFloat.div (PrimFloat.sub 50%float (double_of_int f_lo))
                      (PrimFloat.sub (double_of_int f_hi) (double_of_int f_lo)))
       (PrimFloat.sub mb_hi mb_lo)).

Definition proportional_scaling (f_c : Z) (mb_c : float) : float :=
  PrimFloat.mul mb_c (PrimFloat.div 50%float (double_of_int f_c)).

(** A filled capture that measured the same throughput at every size. *)
Definition capture_at (mhz : Z) (mb : float) : read_bench_capture_t :=
  {| filled := true; actual_mhz := mhz; mb_s := repeat mb NUM_READ_SIZES |}.

End ReadBench.


(** ** Further code of the cited files *)

Section MoreEngine.

Context {dev : Type} (respond : dev -> list Z -> nat -> (nat -> Z) * dev).

(** *** [sd_functions.c]: [jedec_erase_range] *)




Fixpoint program_each (polls : nat) (chip : jedec_chip_t)
    (pages : list (Z * list Z)) (w : world dev) : option (world dev) :=
  match pages with
  | [] => Some w
  | (a, data) :: rest =>
      w1 <- prog_page respond polls chip a data w ;;
      program_each polls chip rest w1
  end.

(** *** [picotoflash.c]: the sink that writes a backup to the SD card

    [f_write] is FatFs: given the file and the bytes it answers with the
    result code (0 is [FR_OK]), the count written and the file afterwards.
    The context holds the file and the running total, a 64-bit count; the
    progress [printf] at each MiB is left out. *)
Definition sd_sink {F : Type} (f_write : F -> list Z -> Z * Z * F)
  : jedec_sink_cb (F * Z) :=
  fun ctx data off =>
    let '(file, written) := ctx in
    let '(fr, bw, file1) := f_write file data in
    if negb (fr =? 0) || negb (bw =? Z.of_nat (length data))
    then (false, (file1, written))
    else (true, (file1, (written + bw) mod 2 ^ 64)).

End MoreEngine.

(** *** [erase.c]: helpers of the erase benchmark *)
Module EraseBench.

Definition SECTOR_4K : Z := 4096.
Definition BLOCK_32K : Z := 32768.
Definition BLOCK_64K : Z := 65536.

(** The erase-type slots of [erase_ident_t]. *)
Record erase_types : Type := {
  et_present : list bool;
  et_opcode : list Z;
  et_size_bytes : list Z
}.

Section Bus.

Context {dev : Type} (respond : dev -> list Z -> nat -> (nat -> Z) * dev).

Definition flash_wren (w : world dev) : world dev := send respond [6] w.

Definition flash_rdsr (w : world dev) : Z * world dev :=
  let (r, w1) := transact respond [5] 1 w in (nth 0 r 0, w1).

Definition flash_rdsr2 (w : world dev) : Z * world dev :=
  let (r, w1) := transact respond [53] 1 w in (nth 0 r 0, w1).

Definition flash_wren_sr_volatile (w : world dev) : world dev :=
  sleep_us 5 (send respond [80] w).

(** [flash_wrsr1] and [flash_wrsr2] send the opcode alone: the value is
    cast away ([(void)sr1]). *)
Definition flash_wrsr1 (sr1 : Z) (w : world dev) : world dev :=
  send respond [1] (flash_wren w).

Definition flash_wrsr2 (sr2 : Z) (w : world dev) : world dev :=
  send respond [49] (flash_wren w).

(** [flash_wait_busy_clear]: the result, what is stored through
    [out_elapsed_ms], the world.  [out_elapsed_ms] is [true] for a pointer
    and [false] for [NULL].  As in the write benchmark, [lapse w] is the
    time that passes from state [w] to the next reading of [time_us_64()],
    the sleep apart.  After a status read that shows the chip ready the
    next reading is the one stored; on a timeout the timer is read for the
    test and, when there is a pointer, once more for the value stored. *)
Context (lapse : world dev -> Z).

(** [if (out_elapsed_ms) *out_elapsed_ms = (uint32_t)((now - t0) / 1000ull)] *)
Definition store_elapsed (out_elapsed_ms : bool) (t0 now : Z) : option Z :=
  if out_elapsed_ms then Some (u32 ((now - t0) / 1000)) else None.

Fixpoint flash_wait_busy_clear_from (fuel : nat) (timeout_ms t0 : Z)
    (out_elapsed_ms : bool) (w : world dev)
  : option (bool * option Z * world dev) :=
  match fuel with
  | O => None
  | S f =>
      let (v, w0) := flash_rdsr w in
      let w1 := elapse (lapse w) w0 in
      if negb (Z.land v 1 =? 0) then
        if clock w1 - t0 >? timeout_ms * 1000 then
          let w2 := if out_elapsed_ms then elapse (lapse w1) w1 else w1 in
          Some (false, store_elapsed out_elapsed_ms t0 (clock w2), w2)
        else flash_wait_busy_clear_from f timeout_ms t0 out_elapsed_ms
               (sleep_us 200 w1)
      else Some (true, store_elapsed out_elapsed_ms t0 (clock w1), w1)
  end.

Definition flash_wait_busy_clear (fuel : nat) (timeout_ms : Z)
    (out_elapsed_ms : bool) (w : world dev)
  : option (bool * option Z * world dev) :=
  flash_wait_busy_clear_from fuel timeout_ms (clock w) out_elapsed_ms w.

Definition flash_erase_cmd (op addr : Z) (w : world dev) : world dev :=
  let w1 := flash_wren w in
  if (op =? 199) || (op =? 96) then send respond [op] w1
  else send respond [op; u8 (Z.shiftr addr 16); u8 (Z.shiftr addr 8); u8 addr] w1.

(** [erase_flash_unprotect]; its two [printf]s are left out. *)
Definition erase_flash_unprotect (fuel : nat) (w : world dev) : option (world dev) :=
  let (sr1, w1) := flash_rdsr w in
  let (sr2, w2) := flash_rdsr2 w1 in
  let new_sr1 := u8 (Z.land sr1 (Z.lnot 28)) in
  let w3 := flash_wren_sr_volatile w2 in
  let w4 := flash_wrsr1 new_sr1 w3 in
  let w5 := flash_wrsr2 (u8 (Z.land sr2 (Z.lnot 64))) w4 in
  '(_, _, w6) <- flash_wait_busy_clear fuel 50 false w5 ;;
  let (chk1, w7) := flash_rdsr w6 in
  let (chk2, w8) := flash_rdsr2 w7 in
  Some w8.

End Bus.

(** The address [bench_one_erase] erases at:
    [base_addr & ~(size_bytes - 1)]. *)
Definition bench_erase_addr (base_addr size_bytes : Z) : Z :=
  Z.land base_addr (u32 (Z.lnot (u32 (size_bytes - 1)))).

(** The opcode choice of [erase_run_benches_at_clock]: one pass over the four
    slots, then the fixed defaults for the sizes no slot offered.  The
    result is [(o4, o32, o64)]. *)
Fixpoint scan_slots (id : erase_types) (ks : list nat)
    (st : bool * Z * bool * Z * bool * Z) : bool * Z * bool * Z * bool * Z :=
  match ks with
  | [] => st
  | k :: rest =>
      if negb (nth k (et_present id) false) then scan_slots id rest st
      else
        let '(has4, o4, has32, o32, has64, o64) := st in
        let sz := nth k (et_size_bytes id) 0 in
        let op := nth k (et_opcode id) 0 in
        let '(has4, o4) := if sz =? SECTOR_4K then (true, op) else (has4, o4) in
        let '(has32, o32) := if sz =? BLOCK_32K then (true, op) else (has32, o32) in
        let '(has64, o64) := if sz =? BLOCK_64K then (true, op) else (has64, o64) in
        scan_slots id rest (has4, o4, has32, o32, has64, o64)
  end.

Definition erase_opcodes (id : erase_types) : Z * Z * Z :=
  let '(has4, o4, has32, o32, has64, o64) :=
    scan_slots id [0; 1; 2; 3]%nat (false, 0, false, 0, false, 0) in
  (if negb has4 then 32 else o4,
   if negb has32 then 82 else o32,
   if negb has64 then 216 else o64).

(** Slot [k] is present and erases [size] bytes.  [op] is the choice for
    [size]: the opcode of the last such slot, or [dflt] when there is none. *)
Definition slot_offers (id : erase_types) (size : Z) (k : nat) : Prop :=
  nth k (et_present id) false = true /\ nth k (et_size_bytes id) 0 = size.

Definition chosen_for (id : erase_types) (size dflt op : Z) : Prop :=
  (exists k, (k < 4)%nat /\ slot_offers id size k
             /\ (forall k', (k < k' < 4)%nat -> ~ slot_offers id size k')
             /\ op = nth k (et_opcode id) 0)
  \/ ((forall k, (k < 4)%nat -> ~ slot_offers id size k) /\ op = dflt).

End EraseBench.

(** *** [flash_backup_restore.c] (4-byte capable revision): [flash_smart_erase] *)
Module SmartErase.

Section Bus.

Context {dev : Type} (respond : dev -> list Z -> nat -> (nat -> Z) * dev).

Definition flash_read_sr1 (w : world dev) : Z * world dev :=
  let (r, w1) := transact respond [5] 1 w in (nth 0 r 0, w1).

(** [while (flash_read_sr1() & 0x01) { sleep_us(10); }] *)
Fixpoint flash_wait_busy (fuel : nat) (w : world dev) : option (world dev) :=
  match fuel with
  | O => None
  | S f =>
      let (v, w1) := flash_read_sr1 w in
      if negb (Z.land v 1 =? 0) then flash_wait_busy f (sleep_us 10 w1)
      else Some w1
  end.





End Bus.


End SmartErase.

(** The page writes [program_pages] is compared with: for the cuts
    [(off, n)] of a block held in [buf], the page at [base + off] with the
    [n] bytes of the buffer from [off] on, the all-0xFF pages left out when
    [skip_prog_when_all_ff] is set. *)
Definition page_data (buf : list Z) (c : Z * Z) : list Z :=
  firstn (Z.to_nat (snd c)) (skipn (Z.to_nat (fst c)) buf).

Definition page_writes (opts : jedec_restore_opts_t) (base : Z) (buf : list Z)
    (cuts : list (Z * Z)) : list (Z * list Z) :=
  map (fun c => (base + fst c, page_data buf c))
      (filter (fun c => negb (skip_prog_when_all_ff opts
                              && all_ff (page_data buf c) (snd c))) cuts).

(** A cut lies within one page of [page] bytes.  A cut of a block of
    [want] bytes runs up to the next page boundary or to the end of the
    block, whichever comes first. *)
Definition within_page (page base : Z) (c : Z * Z) : Prop :=
  (base + fst c) / page = (base + fst c + snd c - 1) / page.

Definition to_page_end (page base want : Z) (c : Z * Z) : Prop :=
  snd c = Z.min (page - (base + fst c) mod page) (want - fst c).

(** *** [univ_restore_sd.c]: restore of a whole chip from an image on the card

    FatFs is the environment: [f_open] is [None] when the file cannot be
    opened; [f_read] answers with the result code (0 is [FR_OK]), the bytes
    it stored (their number is [br]) and the file afterwards.  The
    [printf]s, [f_close] and [jedec_init], which sets up the pins and the
    SPI block without a transfer, are left out; [args_ok] stands for
    [path && bus]. *)
Module UnivRestore.

Record fatfs (F : Type) : Type := {
  f_open : option F;
  f_size : F -> Z;
  f_read : F -> Z -> Z * list Z * F;
  f_lseek : F -> Z -> F
}.

Arguments f_open {F} _.
Arguments f_size {F} _ _.
Arguments f_read {F} _ _ _.
Arguments f_lseek {F} _ _ _.

Definition SECT : Z := 4096.
Definition PAGE : Z := 256.

Section Bus.

Context {dev : Type} (respond : dev -> list Z -> nat -> (nat -> Z) * dev).
Context (spi_set_baudrate : Z -> Z) (clk_hz : Z).
Context {F : Type} (fs : fatfs F).

Definition wren (w : world dev) : world dev := send respond [6] w.

Definition we_for_sr (w : world dev) : world dev := send respond [80] w.

Definition rd_sr1 (w : world dev) : Z * world dev :=
  let (r, w1) := transact respond [5] 1 w in (nth 0 r 0, w1).

(** [while (rd_sr1(b) & 0x01) tight_loop_contents();] *)
Fixpoint wait_busy (fuel : nat) (w : world dev) : option (world dev) :=
  match fuel with
  | O => None
  | S f =>
      let (v, w1) := rd_sr1 w in
      if negb (Z.land v 1 =? 0) then wait_busy f w1 else Some w1
  end.

Definition clear_bp_sr1 (polls : nat) (w : world dev) : option (world dev) :=
  w1 <- wait_busy polls (send respond [1; 0] (wren (we_for_sr w))) ;;
  Some (send respond [152] w1).

Definition addr3 (addr : Z) : list Z :=
  [u8 (Z.shiftr addr 16); u8 (Z.shiftr addr 8); u8 addr].

Definition erase_4k (polls : nat) (addr : Z) (w : world dev) : option (world dev) :=
  wait_busy polls (send respond (32 :: addr3 addr) (wren w)).

Definition page_program (polls : nat) (addr : Z) (p : list Z) (w : world dev)
  : option (world dev) :=
  wait_busy polls (send respond ((2 :: addr3 addr) ++ p) (wren w)).

Definition read_03 (addr n : Z) (w : world dev) : list Z * world dev :=
  transact respond (3 :: addr3 addr) (Z.to_nat n) w.

(** [off & ~(SECT - 1)] *)
Definition sector_of (off : Z) : Z := Z.land off (u32 (Z.lnot (SECT - 1))).

(** The page loop of one sector; [false] when the function returns
    [false], [true] when the loop is left and the sector loop goes on. *)
Fixpoint page_loop (polls fuel : nat) (total off p : Z) (w : world dev) (f : F)
  : option (bool * world dev * F) :=
  match fuel with
  | O => None
  | S k =>
      if p <? SECT then
        let addr := u32 (sector_of off + p) in
        if addr >=? total then Some (true, w, f)
        else
          let '(fr, buf, f1) := f_read fs f PAGE in
          let br := Z.of_nat (length buf) in
          if negb (fr =? 0) then Some (false, w, f1)
          else if br =? 0 then Some (true, w, f1)
          else
            w1 <- page_program polls addr buf w ;;
            if br <? PAGE then Some (true, w1, f1)
            else page_loop polls k total off (u32 (p + PAGE)) w1 f1
      else Some (true, w, f)
  end.

(** [while (off < chip.total_bytes)]: erase the sector, program its pages. *)
Fixpoint program_loop (polls budget fuel : nat) (total off : Z) (w : world dev)
    (f : F) : option (bool * world dev * F) :=
  match fuel with
  | O => None
  | S k =>
      if off <? total then
        let sec_base := off in
        w1 <- erase_4k polls (sector_of off) w ;;
        '(go_on, w2, f1) <- page_loop polls budget total off 0 w1 f ;;
        if go_on
        then program_loop polls budget k total (u32 (sec_base + SECT)) w2 f1
        else Some (false, w2, f1)
      else Some (true, w, f)
  end.

(** The verify pass: the image is read again page by page and compared with
    what the chip returns to the 0x03 read. *)
Fixpoint verify_loop (fuel : nat) (total off : Z) (w : world dev) (f : F)
  : option (bool * world dev * F) :=
  match fuel with
  | O => None
  | S k =>
      if off <? total then
        let want := if u32 (off + PAGE) >? total then u32 (total - off) else PAGE in
        let '(fr, sd_buf, f1) := f_read fs f want in
        if negb (fr =? 0) || negb (Z.of_nat (length sd_buf) =? want)
        then Some (false, w, f1)
        else
          let (rd_buf, w1) := read_03 off want w in
          if memcmp_differs sd_buf rd_buf (Z.to_nat want) then Some (false, w1, f1)
          else verify_loop k total (u32 (off + want)) w1 f1
      else Some (true, w, f)
  end.

Definition universal_restore_from_sd (polls budget fuel : nat)
    (args_ok verify_after_write : bool) (w : world dev) : option (bool * world dev) :=
  if negb args_ok then Some (false, w)
  else
    let '(_, chip, w1) := jedec_probe respond spi_set_baudrate clk_hz w in
    if total_bytes chip =? 0 then Some (false, w1)
    else if total_bytes chip >? Z.shiftl 16 20 then Some (false, w1)
    else
      match f_open fs with
      | None => Some (false, w1)
      | Some f =>
          if negb (u32 (f_size fs f) =? total_bytes chip) then Some (false, w1)
          else
            let (sr1_before, w2) := rd_sr1 w1 in
            w3 <- clear_bp_sr1 polls w2 ;;
            let (sr1_after, w4) := rd_sr1 w3 in
            '(ok, w5, f1) <- program_loop polls budget fuel (total_bytes chip) 0 w4 f ;;
            if negb ok then Some (false, w5)
            else
              let f2 := f_lseek fs f1 0 in
              if verify_after_write then
                '(ok2, w6, _) <- verify_loop fuel (total_bytes chip) 0 w5 f2 ;;
                Some (ok2, w6)
              else Some (true, w5)
      end.

(** The reference the program phase is compared with: for each sector of
    the image an erase, then the pages of the image that lie in it, each at
    the address of its offset in the image. *)
Fixpoint program_each (polls : nat) (pages : list (Z * list Z)) (w : world dev)
  : option (world dev) :=
  match pages with
  | [] => Some w
  | (a, data) :: rest =>
      w1 <- page_program polls a data w ;;
      program_each polls rest w1
  end.


End Bus.



(** An image held in memory, read in sequence; the file is the position. *)
Definition image_file (image : list Z) : fatfs Z :=
  {| f_open := Some 0;
     f_size := fun _ => Z.of_nat (length image);
     f_read := fun pos n =>
       let data := firstn (Z.to_nat n) (skipn (Z.to_nat pos) image) in
       (0, data, pos + Z.of_nat (length data));
     f_lseek := fun _ pos => pos |}.

End UnivRestore.

(** *** Reference behaviour of the restore

    Pull each block of a plan from the source in order and hand it to
    [restore_block]; stop at the first pull that fails or comes back short
    and at the first block [restore_block] gives up on. *)
Fixpoint restore_blocks {dev : Type}
    (respond : dev -> list Z -> nat -> (nat -> Z) * dev) {U : Type}
    (polls budget : nat) (chip : jedec_chip_t) (opts : jedec_restore_opts_t)
    (src : jedec_source_cb U) (plan : list (Z * Z)) (w : world dev) (user : U)
  : option (bool * world dev * U) :=
  match plan with
  | [] => Some (true, w, user)
  | (base, want) :: rest =>
      let '(ok, got, data, user1) := src user want base in
      if negb ok || negb (got =? want) then Some (false, w, user1)
      else
        let buf := map (fun i => u8 (data i)) (seq 0 (Z.to_nat want)) in
        '(go_on, w1) <- restore_block respond polls budget chip opts base buf want w ;;
        if go_on
        then restore_blocks respond polls budget chip opts src rest w1 user1
        else Some (false, w1, user1)
  end.

(** ** Address arithmetic *)

Lemma land_255 (z : Z) : Z.land z 255 = z mod 256.
Proof. change 255 with (Z.ones 8). now rewrite Z.land_ones by lia. Qed.

Lemma be3_value (a : Z) :
  0 <= a ->
  be_value [u8 (Z.shiftr a 16); u8 (Z.shiftr a 8); u8 a] = a mod 2 ^ 24.
Proof.
  intros Ha. unfold be_value, u8; cbn [fold_left].
  rewrite !Z.shiftr_div_pow2 by lia.
  change (2 ^ 16) with 65536. change (2 ^ 8) with 256. change (2 ^ 24) with 16777216.
  pose proof (Z.div_mod a 256 ltac:(lia)).
  pose proof (Z.div_mod (a / 256) 256 ltac:(lia)).
  pose proof (Z.div_mod (a / 256 / 256) 256 ltac:(lia)).
  pose proof (Z.mod_pos_bound a 256 ltac:(lia)).
  pose proof (Z.mod_pos_bound (a / 256) 256 ltac:(lia)).
  pose proof (Z.mod_pos_bound (a / 256 / 256) 256 ltac:(lia)).
  assert (E : a / 65536 = a / 256 / 256) by (rewrite Z.div_div by lia; reflexivity).
  rewrite E.
  apply Z.mod_unique with (q := a / 256 / 256 / 256); lia.
Qed.

Lemma be4_value (a : Z) :
  0 <= a < 2 ^ 32 ->
  be_value [u8 (Z.shiftr a 24); u8 (Z.shiftr a 16); u8 (Z.shiftr a 8); u8 a] = a.
Proof.
  intros Ha. unfold be_value, u8; cbn [fold_left].
  rewrite !Z.shiftr_div_pow2 by lia.
  change (2 ^ 24) with 16777216. change (2 ^ 16) with 65536. change (2 ^ 8) with 256.
  change (2 ^ 32) with 4294967296 in Ha.
  pose proof (Z.div_mod a 256 ltac:(lia)).
  pose proof (Z.div_mod (a / 256) 256 ltac:(lia)).
  pose proof (Z.div_mod (a / 256 / 256) 256 ltac:(lia)).
  pose proof (Z.mod_pos_bound a 256 ltac:(lia)).
  pose proof (Z.mod_pos_bound (a / 256) 256 ltac:(lia)).
  pose proof (Z.mod_pos_bound (a / 256 / 256) 256 ltac:(lia)).
  assert (E2 : a / 65536 = a / 256 / 256) by (rewrite Z.div_div by lia; reflexivity).
  assert (E3 : a / 16777216 = a / 256 / 256 / 256)
    by (rewrite !Z.div_div by lia; reflexivity).
  rewrite E2, E3.
  assert (a / 256 / 256 / 256 < 256).
  { apply Z.div_lt_upper_bound; [lia|]. apply Z.div_lt_upper_bound; [lia|].
    apply Z.div_lt_upper_bound; lia. }
  assert (0 <= a / 256 / 256 / 256) by (repeat apply Z.div_pos; lia).
  rewrite (Z.mod_small (a / 256 / 256 / 256)) by lia.
  lia.
Qed.

Lemma u8_is_byte (z : Z) : is_byte (u8 z).
Proof. unfold is_byte, u8. apply Z.mod_pos_bound. lia. Qed.

(** ** Command headers and addressing width *)

Lemma emits_be3 (op a : Z) (tail : list Z) :
  0 <= a ->
  emits ([op] ++ [] ++ [Z.land (Z.shiftr a 16) 255; Z.land (Z.shiftr a 8) 255;
                        Z.land a 255] ++ tail)
        op 3 (a mod 2 ^ 24) tail.
Proof.
  intros Ha. rewrite !land_255.
  exists [u8 (Z.shiftr a 16); u8 (Z.shiftr a 8); u8 a].
  split; [reflexivity|]. split; [reflexivity|]. split.
  - repeat (apply Forall_cons; [apply u8_is_byte|]). apply Forall_nil.
  - now apply be3_value.
Qed.

Lemma emits_be4 (op a : Z) (tail : list Z) :
  0 <= a < 2 ^ 32 ->
  emits ([op] ++ [Z.land (Z.shiftr a 24) 255]
              ++ [Z.land (Z.shiftr a 16) 255; Z.land (Z.shiftr a 8) 255;
                  Z.land a 255] ++ tail)
        op 4 a tail.
Proof.
  intros Ha. rewrite !land_255.
  exists [u8 (Z.shiftr a 24); u8 (Z.shiftr a 16); u8 (Z.shiftr a 8); u8 a].
  split; [reflexivity|]. split; [reflexivity|]. split.
  - repeat (apply Forall_cons; [apply u8_is_byte|]). apply Forall_nil.
  - now apply be4_value.
Qed.

Lemma emits_u8_3 (op a : Z) (tail : list Z) :
  0 <= a ->
  emits (op :: u8 (Z.shiftr a 16) :: u8 (Z.shiftr a 8) :: u8 a :: tail)
        op 3 (a mod 2 ^ 24) tail.
Proof.
  intros Ha. exists [u8 (Z.shiftr a 16); u8 (Z.shiftr a 8); u8 a].
  split; [reflexivity|]. split; [reflexivity|]. split.
  - repeat (apply Forall_cons; [apply u8_is_byte|]). apply Forall_nil.
  - now apply be3_value.
Qed.

Lemma emits_u8_4 (op a : Z) (tail : list Z) :
  0 <= a < 2 ^ 32 ->
  emits (op :: u8 (Z.shiftr a 24) :: u8 (Z.shiftr a 16) :: u8 (Z.shiftr a 8)
            :: u8 a :: tail)
        op 4 a tail.
Proof.
  intros Ha. exists [u8 (Z.shiftr a 24); u8 (Z.shiftr a 16); u8 (Z.shiftr a 8); u8 a].
  split; [reflexivity|]. split; [reflexivity|]. split.
  - repeat (apply Forall_cons; [apply u8_is_byte|]). apply Forall_nil.
  - now apply be4_value.
Qed.

(** C2, as the code has it.  For every 32-bit address the universal JEDEC
    module ([jedec_read_chunk], [erase_4k], [prog_page]) emits the same
    opcode in both addressing modes (the probed read opcode, 0x20, 0x02),
    followed by exactly 3 big-endian address bytes when [use_4byte_addr] is
    false and exactly 4 when it is true; the 4-byte opcode variants are
    emitted by the backup/restore module only, which sends 0x0B/0x0C,
    0x02/0x12, 0x20/0x21 and 0xD8/0xDC with 3 or 4 big-endian address
    bytes. *)
Theorem C2_header_width_follows_profile (chip : jedec_chip_t) (four : bool) (addr : Z) :
  0 <= addr < 2 ^ 32 ->
  let width := addr_width (use_4byte_addr chip) in
  let value := addr_on_wire (use_4byte_addr chip) addr in
  (emits (read_chunk_hdr chip addr) (read_cmd chip) width value
         (if read_cmd chip =? 11 then [0] else [])
   /\ emits (erase_4k_hdr chip addr) 32 width value []
   /\ emits (prog_page_hdr chip addr) 2 width value [])
  /\ (emits (BackupRestore.fast_read_cmd four addr) (if four then 12 else 11)
             (addr_width four) (addr_on_wire four addr) [0]
      /\ emits (BackupRestore.page_program_cmd four addr) (if four then 18 else 2)
                (addr_width four) (addr_on_wire four addr) []
      /\ emits (BackupRestore.sector_erase_4k_cmd four addr) (if four then 33 else 32)
                (addr_width four) (addr_on_wire four addr) []
      /\ emits (BackupRestore.block_erase_64k_cmd four addr) (if four then 220 else 216)
                (addr_width four) (addr_on_wire four addr) []).
Proof.
  intros Ha width value. subst width value. split.
  - unfold read_chunk_hdr, erase_4k_hdr, prog_page_hdr, addr_width, addr_on_wire.
    destruct (use_4byte_addr chip).
    + split; [|split].
      * apply emits_be4; exact Ha.
      * rewrite <- (app_nil_r [Z.land (Z.shiftr addr 16) 255; _; _]).
        apply emits_be4; exact Ha.
      * rewrite <- (app_nil_r [Z.land (Z.shiftr addr 16) 255; _; _]).
        apply emits_be4; exact Ha.
    + split; [|split].
      * apply emits_be3; lia.
      * rewrite <- (app_nil_r [Z.land (Z.shiftr addr 16) 255; _; _]).
        apply emits_be3; lia.
      * rewrite <- (app_nil_r [Z.land (Z.shiftr addr 16) 255; _; _]).
        apply emits_be3; lia.
  - unfold BackupRestore.fast_read_cmd, BackupRestore.page_program_cmd,
      BackupRestore.sector_erase_4k_cmd, BackupRestore.block_erase_64k_cmd,
      addr_width, addr_on_wire.
    destruct four.
    + split; [|split; [|split]]; apply emits_u8_4; exact Ha.
    + split; [|split; [|split]]; apply emits_u8_3; lia.
Qed.

Lemma C2_header_width_follows_profile_witness :
  emits (erase_4k_hdr chip_32MiB 16777216) 32 4 16777216 []
  /\ emits (BackupRestore.sector_erase_4k_cmd true 16777216) 33 4 16777216 [].
Proof.
  pose proof (C2_header_width_follows_profile chip_32MiB true 16777216
                ltac:(lia)) as H.
  cbv zeta in H. destruct H as [[_ [He _]] [_ [_ [Hs _]]]].
  split; [exact He | exact Hs].
Defined.

(** C2, as the specification words it, fails on the universal JEDEC module:
    for the 32 MiB profile ([use_4byte_addr = true]) and address 0x01000000
    the headers carry 4 address bytes but keep the 3-byte opcodes 0x0B, 0x20
    and 0x02 instead of 0x0C, 0x21 and 0x12. *)
Lemma C2_jedec_keeps_3byte_opcode :
  use_4byte_addr chip_32MiB = true
  /\ read_chunk_hdr chip_32MiB 16777216 = [11; 1; 0; 0; 0; 0]
  /\ erase_4k_hdr chip_32MiB 16777216 = [32; 1; 0; 0; 0]
  /\ prog_page_hdr chip_32MiB 16777216 = [2; 1; 0; 0; 0]
  /\ ~ emits (read_chunk_hdr chip_32MiB 16777216) 12 4 16777216 [0]
  /\ ~ emits (erase_4k_hdr chip_32MiB 16777216) 33 4 16777216 []
  /\ ~ emits (prog_page_hdr chip_32MiB 16777216) 18 4 16777216 [].
Proof.
  split; [reflexivity|]. split; [reflexivity|]. split; [reflexivity|].
  split; [reflexivity|].
  split; [|split]; intros [bs [E _]]; discriminate E.
Qed.

(** ** Size detection *)

Lemma capacity_from_id_pow2 (code : Z) :
  0 <= code < 32 -> capacity_from_id code = 2 ^ code.
Proof.
  intros H. unfold capacity_from_id.
  destruct (code >=? 32) eqn:E; [lia|].
  unfold u32. rewrite Z.shiftl_1_l.
  apply Z.mod_small. split; [apply Z.pow_nonneg; lia|].
  apply Z.pow_lt_mono_r; lia.
Qed.

Lemma transact_bytes {dev : Type} (respond : dev -> list Z -> nat -> (nat -> Z) * dev)
    (out : list Z) (n : nat) (w : world dev) (k : nat) :
  0 <= nth k (fst (transact respond out n w)) 0 < 256.
Proof.
  unfold transact. destruct (respond (device w) out n) as [s d]. cbn [fst].
  destruct (Nat.lt_ge_cases k n) as [Hk | Hk].
  - rewrite nth_indep with (d' := u8 (s 0%nat)) by (rewrite length_map, length_seq; exact Hk).
    rewrite (map_nth (fun i => u8 (s i))). apply u8_is_byte.
  - rewrite nth_overflow by (rewrite length_map, length_seq; exact Hk). lia.
Qed.

(** The density decoding of [flash_detect_size], for any chip that answers
    the SFDP signature: a dword [d] with bit 31 clear gives [(d + 1 + 7) / 8]
    bytes, one with bit 31 set gives [((d & 0x7FFFFFFF) + 1 + 7) / 8], the
    count itself taken as bits and not as an exponent. *)
Lemma flash_detect_size_sfdp {dev : Type}
    (respond : dev -> list Z -> nat -> (nat -> Z) * dev) (w : world dev) :
  let r1 := transact respond [90; 0; 0; 0; 0] 4 w in
  let db := fst (transact respond [90; 0; 0; 4; 0] 4 (snd r1)) in
  let d := le32 (nth 0 db 0) (nth 1 db 0) (nth 2 db 0) (nth 3 db 0) in
  fst r1 = [83; 70; 68; 80] ->
  fst (flash_detect_size respond w)
  = if Z.land d 2147483648 =? 0 then u32 (d + 1 + 7) / 8
    else u32 (u32 (Z.land d 2147483647 + 1) + 7) / 8.
Proof.
  unfold flash_detect_size.
  destruct (transact respond [90; 0; 0; 0; 0] 4 w) as [sig w1]. cbn [fst snd].
  destruct (transact respond [90; 0; 0; 4; 0] 4 w1) as [db w2]. cbn [fst snd].
  intros Hs. subst sig. cbn [nth]. cbn [Z.eqb Pos.eqb andb].
  destruct (Z.land _ 2147483648 =? 0); reflexivity.
Qed.

(** C1, evaluated on the code.  A 128 Mbit density dword in the direct
    encoding (0x07FFFFFF) decodes to 16,777,216 bytes, but the same density
    in the bit-31 encoding (0x8000001A, 2^27 bits) does not:
    [flash_detect_size] takes the 27 as a bit count and returns 4 bytes, and
    [identify], whose shift is guarded by [n >= 32] instead of [n < 32],
    leaves [density_bits] at 0. *)
Theorem C1_density_decoding_evaluated :
  fst (flash_detect_size Mock.respond (Mock.boot Mock.density_direct_128Mbit))
  = 16777216
  /\ density_bits (fst (identify Mock.respond (Mock.boot Mock.density_direct_128Mbit)))
     = 134217728
  /\ fst (flash_detect_size Mock.respond (Mock.boot Mock.density_pow2_128Mbit)) = 4
  /\ density_bits (fst (identify Mock.respond (Mock.boot Mock.density_pow2_128Mbit)))
     = 0.
Proof. vm_compute. repeat split. Qed.

(** C6, as the code has it.  [jedec_probe] always returns a profile, and
    takes the size from the capacity byte whether or not SFDP answered:
    [2^code] bytes for every code below 32 and the 512 KiB fallback for
    every code from 32 up.  Only [flash_detect_size], when the SFDP
    signature is missing, accepts just the codes 0x10..0x1F as [2^code]
    bytes and returns 0, its failure value, for every other code. *)
Theorem C6_capacity_fallback {dev : Type}
    (respond : dev -> list Z -> nat -> (nat -> Z) * dev)
    (spi_set_baudrate : Z -> Z) (clk_hz : Z) (w : world dev) :
  (let '(ok, chip, _) := jedec_probe respond spi_set_baudrate clk_hz w in
   ok = true
   /\ capacity_id chip = nth 2 (fst (read_jedec_id respond w)) 0
   /\ total_bytes chip = if capacity_id chip <? 32 then 2 ^ capacity_id chip
                         else 512 * 1024)
  /\ (let r1 := transact respond [90; 0; 0; 0; 0] 4 w in
      let sig := fst r1 in
      let code := nth 2 (fst (transact respond [159] 3 (snd r1))) 0 in
      ((nth 0 sig 0 =? 83) && (nth 1 sig 0 =? 70)
       && (nth 2 sig 0 =? 68) && (nth 3 sig 0 =? 80)) = false ->
      fst (flash_detect_size respond w)
      = if (16 <=? code) && (code <=? 31) then 2 ^ code else 0).
Proof.
  split.
  - unfold jedec_probe.
    pose proof (transact_bytes respond [159] 3 w 2) as Hb.
    unfold read_jedec_id in *.
    destruct (transact respond [159] 3 w) as [id w1]. cbn [fst] in Hb.
    destruct (try_sfdp respond 16 w1) as [[sfdp buf] w2].
    cbn [capacity_id total_bytes fst].
    split; [reflexivity|]. split; [reflexivity|].
    destruct (nth 2 id 0 <? 32) eqn:E.
    + rewrite capacity_from_id_pow2 by lia.
      assert (0 < 2 ^ nth 2 id 0) by (apply Z.pow_pos_nonneg; lia).
      destruct (2 ^ nth 2 id 0 =? 0) eqn:E0; [lia | reflexivity].
    + unfold capacity_from_id.
      destruct (nth 2 id 0 >=? 32) eqn:E1; [reflexivity | lia].
  - unfold flash_detect_size.
    destruct (transact respond [90; 0; 0; 0; 0] 4 w) as [sig w1]. cbn [fst snd].
    intros Hs. rewrite Hs.
    pose proof (transact_bytes respond [159] 3 w1 2) as Hb.
    destruct (transact respond [159] 3 w1) as [id w2]. cbn [fst] in *.
    replace (nth 2 id 0 >=? 16) with (16 <=? nth 2 id 0) by lia.
    destruct ((16 <=? nth 2 id 0) && (nth 2 id 0 <=? 31)) eqn:E; [|reflexivity].
    cbn [fst]. unfold u32. rewrite Z.shiftl_1_l. apply Z.mod_small.
    split; [apply Z.pow_nonneg; lia|]. apply Z.pow_lt_mono_r; lia.
Qed.

Lemma C6_capacity_fallback_witness :
  fst (flash_detect_size Mock.respond (Mock.boot Mock.blank)) = 2 ^ 24
  /\ fst (flash_detect_size NoChip.respond NoChip.boot) = 0.
Proof.
  split.
  - exact (proj2 (C6_capacity_fallback Mock.respond (fun hz => hz) 8000000
                    (Mock.boot Mock.blank)) eq_refl).
  - exact (proj2 (C6_capacity_fallback NoChip.respond (fun hz => hz) 8000000
                    NoChip.boot) eq_refl).
Defined.

(** C6, as the specification words it, fails on [jedec_probe]: with no chip
    on the bus the capacity byte reads 0xFF, outside 0x10..0x1F, and the
    probe still returns [true] with a 512 KiB profile; a capacity byte 0x0F
    gives a 32 KiB profile. *)
Lemma C6_probe_accepts_invalid_capacity :
  (let '(ok, chip, _) := jedec_probe NoChip.respond (fun hz => hz) 8000000 NoChip.boot in
   ok = true /\ has_sfdp chip = false /\ capacity_id chip = 255
   /\ total_bytes chip = 524288)
  /\ (let '(ok, chip, _) :=
        jedec_probe Mock.respond (fun hz => hz) 8000000
                    (Mock.boot (Mock.with_jedec_id [239; 64; 15] Mock.blank)) in
      ok = true /\ has_sfdp chip = false /\ capacity_id chip = 15
      /\ total_bytes chip = 32768).
Proof. vm_compute. repeat split. Qed.

(** ** Busy waits *)

Lemma wait_busy_no_chip (fuel : nat) (w : world unit) :
  wait_busy NoChip.respond fuel w = None.
Proof.
  revert w. induction fuel as [|f IH]; intros w; [reflexivity|].
  cbn [wait_busy]. unfold rd_status1, transact. cbn. apply IH.
Qed.

Lemma flash_wait_busy_from_no_chip (lapse : world unit -> Z) (timeout_ms start : Z) :
  (forall w, 0 <= lapse w) ->
  forall (fuel : nat) (w : world unit),
    0 <= clock w - start -> (0 < fuel)%nat ->
    timeout_ms * 1000 < 200 * (Z.of_nat fuel - 1) + (clock w - start) ->
    exists w', flash_wait_busy_from NoChip.respond lapse fuel timeout_ms start w
               = Some (false, w').
Proof.
  intros Hl. induction fuel as [|f IH]; intros w He Hpos Hf.
  - lia.
  - cbn [flash_wait_busy_from]. unfold flash_rdsr, transact.
    cbn [NoChip.respond seq map nth fst snd]. cbv zeta.
    change (negb (Z.land (u8 255) 1 =? 0)) with true. cbv iota.
    pose proof (Hl w) as Hw. cbn [elapse clock].
    destruct (clock w + lapse w - start >? timeout_ms * 1000) eqn:E.
    + eexists. reflexivity.
    + apply IH; cbn [sleep_us elapse clock]; lia.
Qed.

Lemma flash_wait_busy_no_chip (lapse : world unit -> Z) :
  (forall w, 0 <= lapse w) ->
  forall (fuel : nat) (timeout_ms : Z),
    (0 < fuel)%nat ->
    timeout_ms * 1000 < 200 * (Z.of_nat fuel - 1) ->
    exists w', flash_wait_busy NoChip.respond lapse fuel timeout_ms NoChip.boot
               = Some (false, w').
Proof.
  intros Hl fuel timeout_ms Hpos Hf. unfold flash_wait_busy.
  apply flash_wait_busy_from_no_chip; [exact Hl | lia | exact Hpos | lia].
Qed.

(** C7, evaluated on the code.  With the busy bit stuck at 1 (no chip on
    the pulled-up bus) the [wait_busy] of the universal JEDEC module never
    returns, whatever number of polls it is given, and so neither do
    [erase_4k], [prog_page] and [jedec_try_unprotect]; the [flash_wait_busy]
    of the write benchmark, given 100 ms, gives up with [false] within 502
    polls however long its status reads take, and needs all 502 of them
    when they take no time. *)
Theorem C7_wait_busy_unbounded :
  (forall fuel w, wait_busy NoChip.respond fuel w = None)
  /\ (forall polls chip addr w, erase_4k NoChip.respond polls chip addr w = None)
  /\ (forall polls chip addr data w,
        prog_page NoChip.respond polls chip addr data w = None)
  /\ (forall polls chip w, jedec_try_unprotect NoChip.respond polls chip w = None)
  /\ (forall lapse, (forall w, 0 <= lapse w) ->
      exists w, flash_wait_busy NoChip.respond lapse 502 100 NoChip.boot
                = Some (false, w))
  /\ flash_wait_busy NoChip.respond (fun _ => 0) 501 100 NoChip.boot = None.
Proof.
  split; [exact wait_busy_no_chip|].
  split; [intros; apply wait_busy_no_chip|].
  split; [intros; apply wait_busy_no_chip|].
  split.
  - intros polls chip w. unfold jedec_try_unprotect.
    destruct (rd_status1 NoChip.respond w) as [s1 w1].
    destruct (rd_status2 NoChip.respond w1) as [s2 w2].
    destruct (rd_status3 NoChip.respond w2) as [s3 w3].
    rewrite wait_busy_no_chip. reflexivity.
  - split; [|vm_compute; reflexivity].
    intros lapse Hl.
    exact (flash_wait_busy_no_chip lapse Hl 502 100 ltac:(lia) ltac:(lia)).
Qed.

(** ** Backup *)

Section Backup.

Context {dev : Type} (respond : dev -> list Z -> nat -> (nat -> Z) * dev).
Context {U : Type} (chip : jedec_chip_t) (sink : jedec_sink_cb U).
Variables offset len chunk : Z.
Hypothesis chunk_pos : 0 < chunk.
Hypothesis offset_nonneg : 0 <= offset.
Hypothesis len_nonneg : 0 <= len.
Hypothesis in_range : offset + len + chunk <= 2 ^ 32.

Let count : nat := Z.to_nat ((len + chunk - 1) / chunk).
Let slot (i : nat) : Z * Z :=
  (offset + Z.of_nat i * chunk, Z.min chunk (len - Z.of_nat i * chunk)).

Lemma count_spec :
  (Z.of_nat count - 1) * chunk < len <= Z.of_nat count * chunk.
Proof using chunk_pos offset_nonneg len_nonneg in_range.
  unfold count.
  assert (0 <= (len + chunk - 1) / chunk) by (apply Z.div_pos; lia).
  rewrite Z2Nat.id by assumption.
  pose proof (Z.div_mod (len + chunk - 1) chunk ltac:(lia)).
  pose proof (Z.mod_pos_bound (len + chunk - 1) chunk ltac:(lia)).
  nia.
Qed.

Lemma slot_before_end (i : nat) :
  (i < count)%nat -> Z.of_nat i * chunk < len.
Proof using chunk_pos offset_nonneg len_nonneg in_range.
  intros Hi. pose proof count_spec. nia.
Qed.

Lemma slot_full (i : nat) :
  (S i < count)%nat -> Z.min chunk (len - Z.of_nat i * chunk) = chunk.
Proof using chunk_pos offset_nonneg len_nonneg in_range.
  intros Hi. pose proof (slot_before_end (S i) Hi). nia.
Qed.

Lemma slot_last (i : nat) :
  S i = count -> Z.min chunk (len - Z.of_nat i * chunk) = len - Z.of_nat i * chunk.
Proof using chunk_pos offset_nonneg len_nonneg in_range.
  intros Hi. pose proof count_spec. nia.
Qed.

(** The loop, started at the [i]-th chunk boundary with [k] chunks to go,
    does what the plan says. *)
Lemma backup_loop_follows_plan (k : nat) :
  forall (i fuel : nat) (w : world dev) (u : U),
    (i + k = count)%nat -> (k < fuel)%nat ->
    backup_loop respond fuel chip (u32 (offset + len)) chunk sink
                (offset + Z.of_nat i * chunk) w u
    = Some (sink_chunks respond chip sink (map slot (seq i k)) w u).
Proof using chunk_pos offset_nonneg len_nonneg in_range.
  assert (Hend : u32 (offset + len) = offset + len)
    by (unfold u32; apply Z.mod_small; lia).
  rewrite Hend.
  induction k as [|k IH]; intros i fuel w u Hik Hfuel.
  - destruct fuel as [|f]; [lia|]. cbn [backup_loop seq map sink_chunks].
    pose proof count_spec.
    destruct (offset + Z.of_nat i * chunk <? offset + len) eqn:E; [nia | reflexivity].
  - destruct fuel as [|f]; [lia|]. cbn [backup_loop seq map sink_chunks].
    assert (Hlt : Z.of_nat i * chunk < len) by (apply slot_before_end; lia).
    destruct (offset + Z.of_nat i * chunk <? offset + len) eqn:E; [|lia].
    assert (Hsum : u32 (offset + Z.of_nat i * chunk + chunk)
                   = offset + Z.of_nat i * chunk + chunk)
      by (unfold u32; apply Z.mod_small; nia).
    rewrite Hsum.
    assert (Hn : (if offset + Z.of_nat i * chunk + chunk >? offset + len
                  then u32 (offset + len - (offset + Z.of_nat i * chunk))
                  else chunk)
                 = Z.min chunk (len - Z.of_nat i * chunk)).
    { destruct (offset + Z.of_nat i * chunk + chunk >? offset + len) eqn:E1.
      - unfold u32. rewrite Z.mod_small by lia. lia.
      - lia. }
    rewrite Hn. unfold slot at 1.
    destruct (jedec_read_chunk respond chip (offset + Z.of_nat i * chunk)
                (Z.min chunk (len - Z.of_nat i * chunk)) w) as [[ok buf] w1] eqn:Er.
    assert (ok = true) by (unfold jedec_read_chunk in Er;
                           destruct (transact _ _ _ _); now inversion Er).
    subst ok. cbn [negb].
    destruct (sink u buf (offset + Z.of_nat i * chunk)) as [r u1].
    destruct r; cbn [negb]; [|reflexivity].
    destruct k as [|k'].
    + (* that was the last chunk: the loop sees [a = end] and returns *)
      rewrite slot_last by lia.
      replace (offset + Z.of_nat i * chunk + (len - Z.of_nat i * chunk))
        with (offset + len) by lia.
      rewrite Hend. destruct f as [|f']; [lia|].
      cbn [backup_loop seq map sink_chunks]. rewrite Z.ltb_irrefl. reflexivity.
    + rewrite slot_full by lia.
      replace (u32 (offset + Z.of_nat i * chunk + chunk))
        with (offset + Z.of_nat (S i) * chunk) by (rewrite Hsum; lia).
      apply IH; lia.
Qed.

Lemma plan_tiles (k : nat) :
  forall i, (i + S k = count)%nat ->
    tiles (offset + Z.of_nat i * chunk) (map slot (seq i (S k))) (offset + len).
Proof using chunk_pos offset_nonneg len_nonneg in_range.
  induction k as [|k IH]; intros i Hik.
  - cbn. rewrite slot_last by lia.
    pose proof (slot_before_end i ltac:(lia)). repeat split; lia.
  - change (map slot (seq i (S (S k)))) with (slot i :: map slot (seq (S i) (S k))).
    cbn [tiles]. unfold slot at 1. rewrite slot_full by lia.
    split; [reflexivity|]. split; [exact chunk_pos|].
    replace (offset + Z.of_nat i * chunk + chunk)
      with (offset + Z.of_nat (S i) * chunk) by lia.
    apply IH. lia.
Qed.

Lemma plan_full_but_last (k : nat) :
  forall i, (i + S k = count)%nat -> full_but_last chunk (map slot (seq i (S k))).
Proof using chunk_pos offset_nonneg len_nonneg in_range.
  induction k as [|k IH]; intros i Hik.
  - cbn. pose proof (slot_before_end i ltac:(lia)). lia.
  - change (map slot (seq i (S (S k))))
      with (slot i :: slot (S i) :: map slot (seq (S (S i)) k)).
    cbn [full_but_last]. unfold slot at 1. cbn [snd].
    split; [apply slot_full; lia|].
    apply (IH (S i)). lia.
Qed.

Lemma sink_chunks_stops_at_refusal (before after : list (Z * Z)) (a n : Z)
    (w w1 : world dev) (u u1 u2 : U) :
  sink_chunks respond chip sink before w u = (true, w1, u1) ->
  sink u1 (snd (fst (jedec_read_chunk respond chip a n w1))) a = (false, u2) ->
  sink_chunks respond chip sink (before ++ (a, n) :: after) w u
  = (false, snd (jedec_read_chunk respond chip a n w1), u2).
Proof using Type.
  revert w u. induction before as [|[a0 n0] rest IH]; intros w u Hb Hs.
  - cbn in Hb. inversion Hb; subst. cbn [app sink_chunks].
    destruct (jedec_read_chunk respond chip a n w1) as [[ok buf] w2].
    cbn [fst snd] in *. rewrite Hs. reflexivity.
  - cbn [app sink_chunks] in *.
    destruct (jedec_read_chunk respond chip a0 n0 w) as [[ok buf] w2].
    destruct (sink u buf a0) as [r u3]. destruct r; [|discriminate Hb].
    apply IH; assumption.
Qed.

End Backup.

(** C5.  For a range that lies in the 32-bit address space (with room for
    one more chunk), a buffer that can be allocated and enough fuel,
    [jedec_backup_stream] reads the chunks of [chunk_plan] in order and
    hands each one to the sink, stopping with [false] at the first chunk the
    sink refuses and with [true] after the last one ([jedec_read_chunk]
    itself never reports an error).  The plan tiles [[offset, offset+len)]
    in increasing order, every chunk has [chunk] bytes except a possibly
    shorter last one, and after a refusal the sink is not called again. *)
Theorem C5_backup_stream_chunks {dev : Type}
    (respond : dev -> list Z -> nat -> (nat -> Z) * dev) (malloc_ok : Z -> bool)
    {U : Type} (chip : jedec_chip_t) (sink : jedec_sink_cb U)
    (offset len chunk : Z) (fuel : nat) (w : world dev) (u : U) :
  0 < chunk -> 0 <= offset -> 0 <= len -> offset + len + chunk <= 2 ^ 32 ->
  malloc_ok chunk = true ->
  (Z.to_nat ((len + chunk - 1) / chunk) < fuel)%nat ->
  let plan := chunk_plan offset len chunk in
  jedec_backup_stream respond malloc_ok fuel chip offset len chunk (Some sink) w u
  = Some (sink_chunks respond chip sink plan w u)
  /\ tiles offset plan (offset + len)
  /\ full_but_last chunk plan
  /\ (forall before a n after w1 u1 u2,
        plan = before ++ (a, n) :: after ->
        sink_chunks respond chip sink before w u = (true, w1, u1) ->
        sink u1 (snd (fst (jedec_read_chunk respond chip a n w1))) a = (false, u2) ->
        sink_chunks respond chip sink plan w u
        = (false, snd (jedec_read_chunk respond chip a n w1), u2)).
Proof.
  intros Hc Ho Hl Hr Hm Hf plan.
  assert (Hplan : plan = map (fun i => (offset + Z.of_nat i * chunk,
                                        Z.min chunk (len - Z.of_nat i * chunk)))
                             (seq 0 (Z.to_nat ((len + chunk - 1) / chunk))))
    by reflexivity.
  split; [|split; [|split]].
  - unfold jedec_backup_stream.
    destruct (chunk =? 0) eqn:E; [lia|]. rewrite Hm. cbn [negb].
    rewrite Hplan.
    pose proof (backup_loop_follows_plan respond chip sink offset len chunk
                  Hc Ho Hl Hr (Z.to_nat ((len + chunk - 1) / chunk))
                  0%nat fuel w u ltac:(lia) Hf) as H.
    cbn [Z.of_nat] in H. rewrite Z.mul_0_l, Z.add_0_r in H. exact H.
  - rewrite Hplan.
    destruct (Z.to_nat ((len + chunk - 1) / chunk)) as [|k] eqn:Ek.
    + pose proof (count_spec offset len chunk Hc Ho Hl Hr) as Hs. rewrite Ek in Hs.
      cbn [seq map tiles]. lia.
    + pose proof (plan_tiles offset len chunk Hc Ho Hl Hr k 0%nat ltac:(lia)) as H.
      cbn [Z.of_nat] in H. rewrite Z.mul_0_l, Z.add_0_r in H. exact H.
  - rewrite Hplan.
    destruct (Z.to_nat ((len + chunk - 1) / chunk)) as [|k] eqn:Ek.
    + exact I.
    + apply (plan_full_but_last offset len chunk Hc Ho Hl Hr k 0%nat). lia.
  - intros before a n after w1 u1 u2 Hp Hb Hs. rewrite Hp.
    exact (sink_chunks_stops_at_refusal respond chip sink before after a n
             w w1 u u1 u2 Hb Hs).
Qed.

Lemma C5_backup_stream_chunks_witness :
  jedec_backup_stream Mock.respond small_heap 4 chip_16MiB 4096 10 4
    (Some (collecting_sink (Some 4100))) (Mock.boot Mock.blank) []
  = Some (sink_chunks Mock.respond chip_16MiB (collecting_sink (Some 4100))
            (chunk_plan 4096 10 4) (Mock.boot Mock.blank) [])
  /\ chunk_plan 4096 10 4 = [(4096, 4); (4100, 4); (4104, 2)]
  /\ snd (sink_chunks Mock.respond chip_16MiB (collecting_sink (Some 4100))
            (chunk_plan 4096 10 4) (Mock.boot Mock.blank) [])
     = [(4096, [255; 255; 255; 255]); (4100, [255; 255; 255; 255])].
Proof.
  split; [|split; reflexivity].
  apply (C5_backup_stream_chunks Mock.respond small_heap chip_16MiB
           (collecting_sink (Some 4100)) 4096 10 4 4 (Mock.boot Mock.blank) []);
    first [ lia | reflexivity | (vm_compute; lia) ].
Defined.

(** C5, as the specification words it, fails for a range that ends within
    one chunk of the top of the 32-bit address space.  The 8 bytes from
    4294967280 on lie inside that space and are to be delivered as one chunk
    of 8 bytes; with 16-byte chunks the sum [a + chunk] wraps to 0, so the
    code hands the sink 16 bytes at 4294967280 and then, [a + n] having
    wrapped as well, calls it again at offset 0.  (The sink here refuses
    the second call, which ends the run.) *)
Lemma C5_chunk_wraps_below_4GiB :
  chunk_plan 4294967280 8 16 = [(4294967280, 8)]
  /\ jedec_backup_stream Mock.respond small_heap 4 chip_32MiB 4294967280 8 16
       (Some (collecting_sink (Some 0))) (Mock.boot Mock.blank) []
     <> Some (sink_chunks Mock.respond chip_32MiB (collecting_sink (Some 0))
                (chunk_plan 4294967280 8 16) (Mock.boot Mock.blank) [])
  /\ exists w got,
       jedec_backup_stream Mock.respond small_heap 4 chip_32MiB 4294967280 8 16
         (Some (collecting_sink (Some 0))) (Mock.boot Mock.blank) []
       = Some (false, w, got)
       /\ map (fun c => (fst c, Z.of_nat (length (snd c)))) got
          = [(4294967280, 16); (0, 16)].
Proof.
  split; [reflexivity|]. split.
  - intro H. vm_compute in H. discriminate H.
  - eexists. eexists. split; [vm_compute; reflexivity|]. reflexivity.
Qed.

(** Past the end of the 32-bit address space the sums of the loop wrap: a
    range that starts 16 bytes below 4 GiB and is 32 bytes long has its end
    at 16, the loop body is never entered and the sink is never called. *)
Remark backup_stream_wraps_past_4GiB :
  jedec_backup_stream Mock.respond small_heap 8 chip_32MiB 4294967280 32 8
    (Some (collecting_sink None)) (Mock.boot Mock.blank) []
  = Some (true, Mock.boot Mock.blank, []).
Proof. reflexivity. Qed.

(** ** Restore *)

Lemma forallb_firstn {A : Type} (p : A -> bool) (n : nat) (l : list A) :
  forallb p l = true -> forallb p (firstn n l) = true.
Proof.
  revert n. induction l as [|x l IH]; intros [|n] H; try reflexivity.
  cbn in *. apply andb_true_iff in H. destruct H as [Hx Hl].
  rewrite Hx. cbn. now apply IH.
Qed.

Lemma all_ff_stream (data : nat -> Z) (n : nat) (want : Z) :
  (forall i, u8 (data i) = 255) ->
  all_ff (map (fun i => u8 (data i)) (seq 0 n)) want = true.
Proof.
  intros H. unfold all_ff. apply forallb_firstn.
  apply forallb_forall. intros x Hx. apply in_map_iff in Hx.
  destruct Hx as [i [Hi _]]. subst x. rewrite H. reflexivity.
Qed.

Lemma first_mismatch_at (want : nat) :
  forall (buf vbuf : list Z) (j : nat),
    (j < want)%nat -> length buf = want -> length vbuf = want ->
    nth j vbuf 0 <> nth j buf 0 ->
    (forall i, (i < j)%nat -> nth i vbuf 0 = nth i buf 0) ->
    first_mismatch want buf vbuf = j.
Proof.
  induction want as [|k IH]; intros buf vbuf j Hj Hb Hv Hne Heq; [lia|].
  destruct buf as [|x buf]; [discriminate Hb|].
  destruct vbuf as [|y vbuf]; [discriminate Hv|].
  cbn [first_mismatch]. destruct j as [|j].
  - cbn in Hne. destruct (x =? y) eqn:E; [lia | reflexivity].
  - pose proof (Heq 0%nat ltac:(lia)) as H0. cbn in H0.
    destruct (x =? y) eqn:E; [|lia]. f_equal.
    cbn in Hb, Hv, Hne.
    apply IH; [lia | lia | lia | exact Hne |].
    intros i Hi. apply (Heq (S i)). lia.
Qed.

Lemma read_chunk_shape {dev : Type}
    (respond : dev -> list Z -> nat -> (nat -> Z) * dev)
    (chip : jedec_chip_t) (addr len : Z) (w : world dev) :
  fst (fst (jedec_read_chunk respond chip addr len w)) = true
  /\ length (snd (fst (jedec_read_chunk respond chip addr len w))) = Z.to_nat len
  /\ trace (snd (jedec_read_chunk respond chip addr len w))
     = trace w ++ [Txn (read_chunk_hdr chip addr) (Z.to_nat len)]
  /\ console (snd (jedec_read_chunk respond chip addr len w)) = console w.
Proof.
  unfold jedec_read_chunk, transact.
  destruct (respond (device w) (read_chunk_hdr chip addr) (Z.to_nat len)) as [s d].
  cbn. rewrite length_map, length_seq. repeat split.
Qed.

Lemma restore_block_skips {dev : Type}
    (respond : dev -> list Z -> nat -> (nat -> Z) * dev)
    (polls budget : nat) (chip : jedec_chip_t) (opts : jedec_restore_opts_t)
    (base : Z) (buf : list Z) (want : Z) (w : world dev) :
  skip_erase_when_all_ff opts = true -> all_ff buf want = true ->
  restore_block respond polls budget chip opts base buf want w = Some (true, w).
Proof. intros Hs Hf. unfold restore_block. rewrite Hs, Hf. reflexivity. Qed.

(** C4.  Whatever the chip and its state, when [skip_erase_when_all_ff] is
    set and the block pulled from the source is all 0xFF, the block is dealt
    with without a single bus transfer: [restore_block] lets the loop go on
    with the world it was given (same chip state, same trace, so no erase
    and no program command), and the sector loop continues at the next
    block from that same world. *)
Theorem C4_all_ff_block_untouched {dev : Type}
    (respond : dev -> list Z -> nat -> (nat -> Z) * dev) {U : Type}
    (polls budget f : nat) (chip : jedec_chip_t) (opts : jedec_restore_opts_t)
    (src : jedec_source_cb U) (end_ sector base : Z) (w : world dev) (u u1 : U)
    (data : nat -> Z) :
  let want := (if u32 (base + sector) >? end_ then u32 (end_ - base) else sector) in
  let buf := map (fun i => u8 (data i)) (seq 0 (Z.to_nat want)) in
  skip_erase_when_all_ff opts = true ->
  (base <? end_) = true ->
  src u want base = (true, want, data, u1) ->
  all_ff buf want = true ->
  restore_block respond polls budget chip opts base buf want w = Some (true, w)
  /\ restore_loop respond polls budget (S f) chip opts src end_ sector base w u
     = restore_loop respond polls budget f chip opts src end_ sector
                    (u32 (base + sector)) w u1.
Proof.
  intros want buf Hskip Hlt Hsrc Hff.
  assert (Hb : restore_block respond polls budget chip opts base buf want w
               = Some (true, w)) by (now apply restore_block_skips).
  split; [exact Hb|].
  cbn [restore_loop]. rewrite Hlt. fold want. rewrite Hsrc.
  rewrite Z.eqb_refl. cbn [negb orb]. fold buf. rewrite Hb. reflexivity.
Qed.

Lemma C4_all_ff_block_untouched_witness :
  restore_block Mock.respond 8 8 chip_16MiB opts_all_on 0
    (map (fun i => u8 255) (seq 0 (Z.to_nat 4096))) 4096 (Mock.boot Mock.zeroed)
  = Some (true, Mock.boot Mock.zeroed).
Proof.
  exact (proj1 (C4_all_ff_block_untouched Mock.respond 8 8 1 chip_16MiB opts_all_on
                  (image_source (fun _ => 255)) 8192 4096 0 (Mock.boot Mock.zeroed)
                  0%nat 1%nat (fun _ => 255)
                  eq_refl eq_refl eq_refl eq_refl)).
Defined.

(** C3.  Take the sector loop at any block it has reached, with
    [verify_after_write] set.  If the block is written (it is not skipped as
    blank, and the erase and the page programs return) and the read-back
    differs from the source buffer in exactly one byte, at index [j], then
    [jedec_restore_stream]'s loop returns [false] at once, whatever fuel is
    left: the last thing it does on the bus is the read-back of this block,
    the source is not pulled again, and the mismatch it reports is at
    sector base [base], index [j], that is at the address of the corrupted
    byte, with the byte written and the byte read. *)
Theorem C3_verify_mismatch_aborts {dev : Type}
    (respond : dev -> list Z -> nat -> (nat -> Z) * dev) {U : Type}
    (polls budget f : nat) (chip : jedec_chip_t) (opts : jedec_restore_opts_t)
    (src : jedec_source_cb U) (end_ sector base : Z) (w w1 w2 : world dev)
    (u u1 : U) (data : nat -> Z) (j : nat) :
  let want := (if u32 (base + sector) >? end_ then u32 (end_ - base) else sector) in
  let buf := map (fun i => u8 (data i)) (seq 0 (Z.to_nat want)) in
  let vbuf := snd (fst (jedec_read_chunk respond chip base want w2)) in
  let w3 := snd (jedec_read_chunk respond chip base want w2) in
  verify_after_write opts = true ->
  (base <? end_) = true ->
  src u want base = (true, want, data, u1) ->
  skip_erase_when_all_ff opts && all_ff buf want = false ->
  erase_4k respond polls chip base w = Some w1 ->
  program_pages respond polls budget chip opts base buf want 0 w1 = Some w2 ->
  (j < Z.to_nat want)%nat ->
  nth j vbuf 0 <> nth j buf 0 ->
  (forall i, (i < Z.to_nat want)%nat -> i <> j -> nth i vbuf 0 = nth i buf 0) ->
  restore_loop respond polls budget (S f) chip opts src end_ sector base w u
  = Some (false,
          print (MsgVerifyMismatch base j (nth j buf 0) (nth j vbuf 0)) w3, u1)
  /\ trace w3 = trace w2 ++ [Txn (read_chunk_hdr chip base) (Z.to_nat want)].
Proof.
  intros want buf vbuf w3 Hver Hlt Hsrc Hskip Herase Hprog Hj Hne Heq.
  destruct (read_chunk_shape respond chip base want w2) as [Hok [Hlen [Htr _]]].
  split; [|exact Htr].
  assert (Hfm : first_mismatch (Z.to_nat want) buf vbuf = j).
  { apply first_mismatch_at; try assumption.
    - unfold buf. now rewrite length_map, length_seq.
    - intros i Hi. apply Heq; lia. }
  cbn [restore_loop]. rewrite Hlt. fold want. rewrite Hsrc.
  rewrite Z.eqb_refl. cbn [negb orb]. fold buf.
  unfold restore_block. rewrite Hskip. cbn [negb].
  rewrite Herase. cbn [bind]. rewrite Hprog. cbn [bind]. rewrite Hver.
  fold vbuf in Hok. unfold vbuf, w3 in *.
  destruct (jedec_read_chunk respond chip base want w2) as [[ok vb] w3'].
  cbn [fst snd] in *. subst ok. cbn [negb].
  unfold memcmp_differs. rewrite Hfm.
  destruct (j <? Z.to_nat want)%nat eqn:E; [reflexivity|].
  apply Nat.ltb_ge in E. lia.
Qed.

Lemma C3_verify_mismatch_aborts_witness :
  match restore_loop Mock.respond 8 8 3 chip_16MiB opts_all_on
          (image_source (fun _ => 17)) 4104 4096 4096
          (Mock.boot (Mock.with_stuck 4098 0 Mock.blank)) 0%nat with
  | Some (ok, w', pulls) =>
      ok = false /\ console w' = [MsgVerifyMismatch 4096 2 17 0] /\ pulls = 1%nat
  | None => False
  end.
Proof.
  eassert (H : _).
  { eapply (C3_verify_mismatch_aborts Mock.respond 8 8 2 chip_16MiB opts_all_on
              (image_source (fun _ => 17)) 4104 4096 4096
              (Mock.boot (Mock.with_stuck 4098 0 Mock.blank)) _ _
              0%nat 1%nat (fun _ => 17) 2%nat).
    - reflexivity.
    - reflexivity.
    - reflexivity.
    - vm_compute. reflexivity.
    - vm_compute. reflexivity.
    - vm_compute. reflexivity.
    - vm_compute. lia.
    - vm_compute. intros E. discriminate E.
    - intros i Hi Hn. vm_compute in Hi.
      do 8 (destruct i as [|i]; [first [ congruence | vm_compute; reflexivity ]|]).
      lia. }
  rewrite (proj1 H). vm_compute. repeat split.
Defined.

Lemma restore_loop_all_ff {dev : Type}
    (respond : dev -> list Z -> nat -> (nat -> Z) * dev) {U : Type}
    (polls budget : nat) (chip : jedec_chip_t) (opts : jedec_restore_opts_t)
    (src : jedec_source_cb U) (end_ sector : Z) (w : world dev) :
  skip_erase_when_all_ff opts = true ->
  0 < sector -> 0 <= end_ -> end_ + sector <= 2 ^ 32 ->
  (forall u want base, exists data u',
      src u want base = (true, want, data, u') /\ forall i, u8 (data i) = 255) ->
  forall (fuel : nat) (base : Z) (u : U),
    0 <= base -> (Z.to_nat (end_ - base) < fuel)%nat ->
    exists u', restore_loop respond polls budget fuel chip opts src end_ sector base w u
               = Some (true, w, u').
Proof.
  intros Hskip Hs He Hr Hsrc.
  induction fuel as [|f IH]; intros base u Hb Hf; [lia|].
  cbn [restore_loop]. destruct (base <? end_) eqn:E; [|eexists; reflexivity].
  destruct (Hsrc u (if u32 (base + sector) >? end_ then u32 (end_ - base) else sector)
              base) as [data [u1 [Hd Hff]]].
  rewrite Hd. rewrite Z.eqb_refl. cbn [negb orb].
  rewrite restore_block_skips by (try assumption; now apply all_ff_stream).
  cbn [bind].
  assert (Hn : u32 (base + sector) = base + sector)
    by (unfold u32; apply Z.mod_small; lia).
  rewrite Hn. apply IH; lia.
Qed.

(** C10.  Whatever the chip and whatever it holds: with
    [skip_erase_when_all_ff] and [verify_after_write] both set, a restore
    whose source blocks are all 0xFF returns [true] as soon as the unprotect
    step has returned, and leaves the world exactly as the unprotect step
    left it, so that no block was read back (nor erased, nor programmed). *)
Theorem C10_blank_blocks_never_verified {dev : Type}
    (respond : dev -> list Z -> nat -> (nat -> Z) * dev) (malloc_ok : Z -> bool)
    {U : Type} (polls fuel : nat) (chip : jedec_chip_t) (offset len : Z)
    (src : jedec_source_cb U) (w w1 : world dev) (u : U)
    (opts_in : option jedec_restore_opts_t) (r : bool) :
  let opts := match opts_in with
              | Some o => o
              | None => default_opts chip
              end in
  skip_erase_when_all_ff opts = true ->
  verify_after_write opts = true ->
  0 < erase_gran opts -> 0 <= offset -> 0 <= len ->
  offset + len + erase_gran opts <= 2 ^ 32 ->
  malloc_ok (erase_gran opts) = true ->
  (forall u want base, exists data u',
      src u want base = (true, want, data, u') /\ forall i, u8 (data i) = 255) ->
  jedec_try_unprotect respond polls chip w = Some (r, w1) ->
  (Z.to_nat len < fuel)%nat ->
  exists u',
    jedec_restore_stream respond malloc_ok polls fuel chip offset len (Some src)
                         w u opts_in
    = Some (true, w1, u').
Proof.
  intros opts Hskip Hver Hs Ho Hl Hr Hm Hsrc Hun Hf.
  unfold jedec_restore_stream. fold opts. rewrite Hm. cbn [negb].
  rewrite Hun. cbn [bind].
  assert (He : u32 (offset + len) = offset + len)
    by (unfold u32; apply Z.mod_small; lia).
  rewrite He.
  apply restore_loop_all_ff; try assumption; try lia.
Qed.

Lemma C10_blank_blocks_never_verified_witness :
  exists w' pulls,
    jedec_restore_stream Mock.respond small_heap 8 4101 chip_16MiB 0 4100
      (Some (image_source (fun _ => 255))) (Mock.boot Mock.zeroed) 0%nat None
    = Some (true, w', pulls)
    /\ Mock.cell (device w') 0 = 0 /\ Mock.cell (device w') 4099 = 0.
Proof.
  edestruct (fun w1 => C10_blank_blocks_never_verified Mock.respond small_heap 8 4101
               chip_16MiB 0 4100 (image_source (fun _ => 255))
               (Mock.boot Mock.zeroed) w1 0%nat None true) as [pulls H].
  - reflexivity.
  - reflexivity.
  - reflexivity.
  - lia.
  - lia.
  - vm_compute. intros E. discriminate E.
  - reflexivity.
  - intros u want base. eexists. eexists. split; [reflexivity|]. intros i. reflexivity.
  - vm_compute. reflexivity.
  - vm_compute. lia.
  - eexists. exists pulls. split; [exact H|]. split; reflexivity.
Defined.

(** ** Unprotect *)

Lemma byte_cases (P : Z -> bool) :
  forallb P (map Z.of_nat (seq 0 256)) = true ->
  forall v, 0 <= v < 256 -> P v = true.
Proof.
  intros H v Hv. rewrite forallb_forall in H. apply H.
  apply in_map_iff. exists (Z.to_nat v). split; [lia|]. apply in_seq. lia.
Qed.

Lemma sr1_new_bits (v : Z) :
  0 <= v < 256 ->
  u8 (Z.land v (Z.lnot 252)) = Z.land v 3
  /\ Z.land (Z.land v 3) 252 = 0
  /\ Z.land (Z.land v 3) 124 = 0.
Proof.
  intros Hv.
  pose proof (byte_cases
                (fun v => (u8 (Z.land v (Z.lnot 252)) =? Z.land v 3)
                          && (Z.land (Z.land v 3) 252 =? 0)
                          && (Z.land (Z.land v 3) 124 =? 0))
                ltac:(vm_compute; reflexivity) v Hv) as H.
  cbv beta in H. apply andb_true_iff in H. destruct H as [H H3].
  apply andb_true_iff in H. destruct H as [H1 H2]. lia.
Qed.

Lemma transact_clock {dev : Type} (respond : dev -> list Z -> nat -> (nat -> Z) * dev)
    (out : list Z) (n : nat) (w : world dev) :
  clock (snd (transact respond out n w)) = clock w.
Proof. unfold transact. destruct (respond (device w) out n). reflexivity. Qed.

Lemma transact_trace {dev : Type} (respond : dev -> list Z -> nat -> (nat -> Z) * dev)
    (out : list Z) (n : nat) (w : world dev) :
  trace (snd (transact respond out n w)) = trace w ++ [Txn out n].
Proof. unfold transact. destruct (respond (device w) out n). reflexivity. Qed.

Section BusSteps.

Context {dev : Type} (respond : dev -> list Z -> nat -> (nat -> Z) * dev).

Lemma bus_only_refl (w : world dev) : bus_only w w.
Proof. split; [reflexivity|]. exists []. now rewrite app_nil_r. Qed.

Lemma bus_only_trans (w1 w2 w3 : world dev) :
  bus_only w1 w2 -> bus_only w2 w3 -> bus_only w1 w3.
Proof.
  intros [C1 [l1 T1]] [C2 [l2 T2]]. split; [congruence|].
  exists (l1 ++ l2). rewrite T2, T1. now rewrite app_assoc.
Qed.

Lemma transact_bus_only (out : list Z) (n : nat) (w : world dev) :
  bus_only w (snd (transact respond out n w)).
Proof.
  unfold transact. destruct (respond (device w) out n) as [s d]. cbn.
  split; [reflexivity|]. now exists [Txn out n].
Qed.

Lemma send_bus_only (out : list Z) (w : world dev) :
  bus_only w (send respond out w).
Proof. apply transact_bus_only. Qed.

Lemma send_trace (out : list Z) (w : world dev) :
  trace (send respond out w) = trace w ++ [Txn out 0].
Proof.
  unfold send, transact. destruct (respond (device w) out 0%nat). reflexivity.
Qed.

Lemma rd_status1_bus_only (w : world dev) : bus_only w (snd (rd_status1 respond w)).
Proof.
  unfold rd_status1. pose proof (transact_bus_only [5] 1 w) as H.
  destruct (transact respond [5] 1 w). exact H.
Qed.

Lemma rd_status2_bus_only (w : world dev) : bus_only w (snd (rd_status2 respond w)).
Proof.
  unfold rd_status2. pose proof (transact_bus_only [53] 1 w) as H.
  destruct (transact respond [53] 1 w). exact H.
Qed.

Lemma rd_status3_bus_only (w : world dev) : bus_only w (snd (rd_status3 respond w)).
Proof.
  unfold rd_status3. pose proof (transact_bus_only [21] 1 w) as H.
  destruct (transact respond [21] 1 w). exact H.
Qed.

Lemma rd_status1_byte (w : world dev) : 0 <= fst (rd_status1 respond w) < 256.
Proof.
  unfold rd_status1. pose proof (transact_bytes respond [5] 1 w 0) as H.
  destruct (transact respond [5] 1 w). exact H.
Qed.

Lemma sleep_bus_only (us : Z) (w : world dev) : bus_only w (sleep_us us w).
Proof. split; [reflexivity|]. exists []. cbn. now rewrite app_nil_r. Qed.

Lemma wait_busy_bus_only (fuel : nat) :
  forall w w', wait_busy respond fuel w = Some w' -> bus_only w w'.
Proof.
  induction fuel as [|f IH]; intros w w' H; [discriminate H|].
  cbn [wait_busy] in H. pose proof (rd_status1_bus_only w) as Hr.
  destruct (rd_status1 respond w) as [v w1]. cbn [snd] in Hr.
  destruct (negb (Z.land v 1 =? 0)).
  - apply IH in H. eapply bus_only_trans; [exact Hr|].
    eapply bus_only_trans; [apply sleep_bus_only | exact H].
  - inversion H; subst. exact Hr.
Qed.

Lemma bus_only_grows (w w' : world dev) : bus_only w w' -> trace_grows w w'.
Proof. intros [_ H]. exact H. Qed.

Lemma trace_grows_trans (w1 w2 w3 : world dev) :
  trace_grows w1 w2 -> trace_grows w2 w3 -> trace_grows w1 w3.
Proof.
  intros [l1 T1] [l2 T2]. exists (l1 ++ l2). rewrite T2, T1. now rewrite app_assoc.
Qed.

Lemma print_grows (m : msg) (w : world dev) : trace_grows w (print m w).
Proof. exists []. cbn. now rewrite app_nil_r. Qed.

End BusSteps.

Lemma rd_status_traces {dev : Type}
    (respond : dev -> list Z -> nat -> (nat -> Z) * dev) (w : world dev) :
  trace (snd (rd_status1 respond w)) = trace w ++ [Txn [5] 1]
  /\ trace (snd (rd_status2 respond w)) = trace w ++ [Txn [53] 1]
  /\ trace (snd (rd_status3 respond w)) = trace w ++ [Txn [21] 1].
Proof.
  unfold rd_status1, rd_status2, rd_status3.
  pose proof (transact_trace respond [5] 1 w) as T1.
  pose proof (transact_trace respond [53] 1 w) as T2.
  pose proof (transact_trace respond [21] 1 w) as T3.
  destruct (transact respond [5] 1 w), (transact respond [53] 1 w),
    (transact respond [21] 1 w).
  split; [exact T1 | split; [exact T2 | exact T3]].
Qed.

(** C8, as the code has it.  [jedec_try_unprotect] returns exactly when its
    two busy waits do, and then it returns [true].  It has then written, in
    one WRSR transfer, the SR1 it read with bits 2..7 cleared and bits 0..1
    kept, together with the SR2 it read, and after the wait that follows
    the write its last three transfers are the reads of SR1, SR2 and SR3.
    What the chip answers to these reads is only printed: the second report
    carries the three answers, and the warning appears exactly when one of
    the block-protect bits 2..6 of the SR1 just read is still set.  So a
    chip that took the write (the re-read SR1 is the value written) has
    bits 2..7 clear and draws no warning, while for a chip that ignored it
    (the re-read SR1 is the old one) the warning appears exactly when the
    old SR1 had one of bits 2..6 set. *)
Theorem C8_unprotect_best_effort {dev : Type}
    (respond : dev -> list Z -> nat -> (nat -> Z) * dev)
    (polls : nat) (chip : jedec_chip_t) (w : world dev) :
  existsb is_warn (console w) = false ->
  let sr1 := fst (rd_status1 respond w) in
  let wa := snd (rd_status1 respond w) in
  let sr2 := fst (rd_status2 respond wa) in
  let wb := snd (rd_status2 respond wa) in
  let sr3 := fst (rd_status3 respond wb) in
  let w4 := print (MsgUnprotectBefore sr1 sr2 sr3) (snd (rd_status3 respond wb)) in
  let unlock := fun w5 => wait_busy respond polls (send respond [152] (wren respond w4))
                          = Some w5 in
  let wrsr := fun w5 w7 =>
    wait_busy respond polls
      (send respond [1; Z.land sr1 3; sr2] (wren respond (ewrsr_legacy respond w5)))
    = Some w7 in
  Z.land (Z.land sr1 3) 252 = 0
  /\ (forall w5 w7, unlock w5 -> wrsr w5 w7 ->
        exists w', jedec_try_unprotect respond polls chip w = Some (true, w'))
  /\ (forall ret w',
        jedec_try_unprotect respond polls chip w = Some (ret, w') ->
        ret = true
        /\ In (Txn [1; Z.land sr1 3; sr2] 0) (trace w')
        /\ exists w5 w7,
            unlock w5 /\ wrsr w5 w7
            /\ let sr1' := fst (rd_status1 respond w7) in
               let w8 := snd (rd_status1 respond w7) in
               let sr2' := fst (rd_status2 respond w8) in
               let sr3' := fst (rd_status3 respond (snd (rd_status2 respond w8))) in
               trace w' = trace w7 ++ [Txn [5] 1; Txn [53] 1; Txn [21] 1]
               /\ console w'
                  = console w
                    ++ [MsgUnprotectBefore sr1 sr2 sr3;
                        MsgUnprotectAfter sr1' sr2' sr3']
                    ++ (if Z.land sr1' 124 =? 0 then [] else [MsgUnprotectWarn])
               /\ confirmed_cleared (Some (ret, w')) = (Z.land sr1' 124 =? 0)
               /\ (sr1' = Z.land sr1 3 ->
                   Z.land sr1' 252 = 0 /\ confirmed_cleared (Some (ret, w')) = true)
               /\ (sr1' = sr1 ->
                   confirmed_cleared (Some (ret, w')) = (Z.land sr1 124 =? 0))).
Proof.
  intros Hquiet sr1 wa sr2 wb sr3 w4 unlock wrsr.
  pose proof (rd_status1_bus_only respond w) as B1.
  pose proof (rd_status1_byte respond w) as Hbyte.
  pose proof (rd_status2_bus_only respond wa) as B2.
  pose proof (rd_status3_bus_only respond wb) as B3.
  assert (Hdef : jedec_try_unprotect respond polls chip w
                 = (w5 <- wait_busy respond polls (send respond [152] (wren respond w4)) ;;
                    w7 <- wait_busy respond polls
                            (send respond [1; Z.land sr1 3; sr2]
                               (wren respond (ewrsr_legacy respond w5))) ;;
                    let sr1' := fst (rd_status1 respond w7) in
                    let w8 := snd (rd_status1 respond w7) in
                    let sr2' := fst (rd_status2 respond w8) in
                    let w9 := snd (rd_status2 respond w8) in
                    let sr3' := fst (rd_status3 respond w9) in
                    let w11 := print (MsgUnprotectAfter sr1' sr2' sr3')
                                     (snd (rd_status3 respond w9)) in
                    Some (true, if negb (Z.land sr1' 124 =? 0)
                                then print MsgUnprotectWarn w11 else w11))).
  { unfold jedec_try_unprotect, w4, sr3, wb, sr2, wa, sr1 in *.
    destruct (rd_status1 respond w) as [s1 xa]. cbn [fst snd] in *.
    destruct (rd_status2 respond xa) as [s2 xb]. cbn [fst snd].
    destruct (rd_status3 respond xb) as [s3 xc]. cbn [fst snd].
    destruct (sr1_new_bits s1 Hbyte) as [Hnew _]. rewrite Hnew.
    destruct (wait_busy respond polls
                (send respond [152]
                   (wren respond (print (MsgUnprotectBefore s1 s2 s3) xc))))
      as [w5|]; [|reflexivity].
    cbn [bind].
    destruct (wait_busy respond polls
                (send respond [1; Z.land s1 3; s2]
                   (wren respond (ewrsr_legacy respond w5)))) as [w7|]; [|reflexivity].
    cbn [bind]. cbv zeta.
    destruct (rd_status1 respond w7) as [t1 w8]. cbn [fst snd].
    destruct (rd_status2 respond w8) as [t2 w9]. cbn [fst snd].
    destruct (rd_status3 respond w9) as [t3 w10]. cbn [fst snd]. reflexivity. }
  destruct (sr1_new_bits sr1 Hbyte) as [_ [H252 H124]].
  subst unlock wrsr. cbv beta.
  split; [exact H252|]. split.
  - intros w5 w7 H5 H7.
    rewrite Hdef, H5. cbn [bind]. rewrite H7. cbn [bind]. eexists. reflexivity.
  - intros ret w' H. rewrite Hdef in H.
    destruct (wait_busy respond polls (send respond [152] (wren respond w4)))
      as [w5|] eqn:E5; [|discriminate H].
    cbn [bind] in H.
    destruct (wait_busy respond polls
                (send respond [1; Z.land sr1 3; sr2]
                   (wren respond (ewrsr_legacy respond w5)))) as [w7|] eqn:E7;
      [|discriminate H].
    cbn [bind] in H. cbv zeta in H.
    destruct (rd_status_traces respond w7) as [T8 _].
    destruct (rd_status_traces respond (snd (rd_status1 respond w7))) as [_ [T9 _]].
    destruct (rd_status_traces respond
                (snd (rd_status2 respond (snd (rd_status1 respond w7)))))
      as [_ [_ T10]].
    pose proof (rd_status1_bus_only respond w7) as [A1 _].
    pose proof (rd_status2_bus_only respond (snd (rd_status1 respond w7))) as [A2 _].
    pose proof (rd_status3_bus_only respond
                  (snd (rd_status2 respond (snd (rd_status1 respond w7)))))
      as [A3 _].
    set (t1 := fst (rd_status1 respond w7)) in *.
    set (w8 := snd (rd_status1 respond w7)) in *.
    set (t2 := fst (rd_status2 respond w8)) in *.
    set (w9 := snd (rd_status2 respond w8)) in *.
    set (t3 := fst (rd_status3 respond w9)) in *.
    set (w10 := snd (rd_status3 respond w9)) in *.
    pose proof (wait_busy_bus_only respond polls _ _ E5) as W5.
    pose proof (wait_busy_bus_only respond polls _ _ E7) as W7.
    set (w6 := wren respond (ewrsr_legacy respond w5)) in *.
    assert (C4 : console w4 = console w ++ [MsgUnprotectBefore sr1 sr2 sr3]).
    { unfold w4. cbn [print console]. destruct B1 as [c1 _], B2 as [c2 _], B3 as [c3 _].
      fold wa in c1. fold wb in c2. congruence. }
    assert (B45 : bus_only w4 w5).
    { eapply bus_only_trans; [|exact W5].
      eapply bus_only_trans; [apply (send_bus_only respond [6])|].
      apply send_bus_only. }
    assert (B56 : bus_only w5 w6).
    { unfold w6, wren, ewrsr_legacy.
      eapply bus_only_trans; apply send_bus_only. }
    assert (C10 : console w10 = console w ++ [MsgUnprotectBefore sr1 sr2 sr3]).
    { destruct B45 as [c45 _], B56 as [c56 _], W7 as [c67 _].
      pose proof (send_bus_only respond [1; Z.land sr1 3; sr2] w6) as [cs _].
      congruence. }
    assert (T10' : trace w10 = trace w7 ++ [Txn [5] 1; Txn [53] 1; Txn [21] 1]).
    { rewrite T10, T9, T8, <- !app_assoc. reflexivity. }
    assert (Hin : In (Txn [1; Z.land sr1 3; sr2] 0) (trace w10)).
    { rewrite T10'. destruct W7 as [_ [l T7]]. rewrite T7, send_trace.
      apply in_or_app. left. apply in_or_app. left. apply in_or_app. right.
      left. reflexivity. }
    assert (Hex : forall l1, existsb is_warn (console w ++ l1) = existsb is_warn l1).
    { intros l1. rewrite existsb_app, Hquiet. reflexivity. }
    destruct (Z.land t1 124 =? 0) eqn:Ebp; cbn [negb] in H;
      inversion H; subst ret w'; clear H.
    + split; [reflexivity|]. split; [exact Hin|].
      exists w5, w7. split; [reflexivity|]. split; [exact E7|]. cbv zeta.
      assert (Hc : confirmed_cleared
                     (Some (true, print (MsgUnprotectAfter t1 t2 t3) w10)) = true).
      { cbn. rewrite C10, <- app_assoc, Hex. reflexivity. }
      fold t1. fold w8. fold t2. fold w9. fold t3. rewrite Ebp.
      split; [exact T10'|]. split.
      * cbn [print console]. rewrite C10, <- app_assoc. reflexivity.
      * split; [exact Hc|]. split.
        -- intros E. split; [rewrite E; exact H252 | exact Hc].
        -- intros E. rewrite Hc, <- E, Ebp. reflexivity.
    + split; [reflexivity|]. split; [exact Hin|].
      exists w5, w7. split; [reflexivity|]. split; [exact E7|]. cbv zeta.
      assert (Hc : confirmed_cleared
                     (Some (true,
                            print MsgUnprotectWarn
                                  (print (MsgUnprotectAfter t1 t2 t3) w10))) = false).
      { cbn. rewrite C10, <- !app_assoc, Hex. reflexivity. }
      fold t1. fold w8. fold t2. fold w9. fold t3. rewrite Ebp.
      split; [exact T10'|]. split.
      * cbn [print console]. rewrite C10, <- !app_assoc. reflexivity.
      * split; [exact Hc|]. split.
        -- intros E. rewrite E, H124 in Ebp. discriminate Ebp.
        -- intros E. rewrite Hc, <- E, Ebp. reflexivity.
Qed.

Lemma C8_unprotect_best_effort_witness :
  exists w',
    jedec_try_unprotect Mock.respond 8 chip_16MiB
      (Mock.boot (Mock.with_protection 252 true Mock.blank)) = Some (true, w')
    /\ In (Txn [1; 0; 0] 0) (trace w')
    /\ Mock.sr1 (device w') = 0
    /\ confirmed_cleared (Some (true, w')) = true.
Proof.
  eexists. split; [vm_compute; reflexivity|].
  match goal with
  | |- In _ (trace ?w') /\ _ =>
      pose proof (C8_unprotect_best_effort Mock.respond 8 chip_16MiB
                    (Mock.boot (Mock.with_protection 252 true Mock.blank))
                    eq_refl) as H;
      cbv zeta in H; destruct H as [_ [_ H]];
      destruct (H true w' eq_refl) as [_ [Hin _]]
  end.
  split; [exact Hin|]. split; reflexivity.
Defined.

(** C8, as the specification words it, fails in two ways.  The value
    returned is [true] whether the chip took the write or ignored it, so it
    reports nothing; and the printed check leaves out bit 7: a chip that
    ignores the write with only the status-register-protect bit set
    (SR1 = 0x80) keeps that bit and still draws no warning, that is, counts
    as confirmed cleared. *)
Lemma C8_rejected_write_not_reported :
  option_map fst (jedec_try_unprotect Mock.respond 8 chip_16MiB
                    (Mock.boot (Mock.with_protection 252 true Mock.blank)))
  = Some true
  /\ option_map fst (jedec_try_unprotect Mock.respond 8 chip_16MiB
                       (Mock.boot (Mock.with_protection 252 false Mock.blank)))
     = Some true
  /\ (let r := jedec_try_unprotect Mock.respond 8 chip_16MiB
                 (Mock.boot (Mock.with_protection 128 false Mock.blank)) in
      attempted r = true /\ confirmed_cleared r = true
      /\ option_map (fun x => Mock.sr1 (device (snd x))) r = Some 128).
Proof. vm_compute. repeat split. Qed.

(** ** Capture selection of the read benchmark *)

Lemma find_best_below_from_strict (mhz : list Z) :
  forall i idx best,
    ReadBench.find_best_below_from mhz i idx best = idx
    \/ exists m, In m mhz /\ m < 50.
Proof.
  induction mhz as [|m rest IH]; intros i idx best; [left; reflexivity|].
  cbn [ReadBench.find_best_below_from].
  destruct ((m <? 50) && (m >? best)) eqn:E.
  - right. exists m. split; [left; reflexivity|].
    apply andb_true_iff in E. lia.
  - destruct (IH (i + 1) idx best) as [H | [m' [Hin Hm]]]; [left; exact H|].
    right. exists m'. split; [right; exact Hin | exact Hm].
Qed.

(** A capture at exactly 50 MHz is on neither side: the lower capture must
    be below 50 MHz and the upper one above it.  With captures at 32 and
    63 MHz both are found; with captures at 50 and 63 MHz there is no lower
    one and the closest capture alone is used. *)
Lemma bracket_is_strict :
  (forall mhz, 0 <= ReadBench.find_best_below mhz -> exists m, In m mhz /\ m < 50)
  /\ ReadBench.find_best_below [32; 63] = 0
  /\ ReadBench.find_best_above [32; 63] = 1
  /\ ReadBench.interpolates [32; 63] = true
  /\ ReadBench.interpolates [50; 63] = false
  /\ ReadBench.find_closest [50; 63] = 0.
Proof.
  split; [|repeat split].
  intros mhz H. unfold ReadBench.find_best_below in H.
  destruct (find_best_below_from_strict mhz 0 (-1) (-100000)) as [E | E];
    [rewrite E in H; lia | exact E].
Qed.

(** ** The derived 50 MHz table *)

Lemma double_gap (lo hi : Z) :
  0 <= lo < 50 -> 50 < hi <= 1000 ->
  PrimFloat.ltb
    (PrimFloat.abs (PrimFloat.sub (ReadBench.double_of_int hi)
                                  (ReadBench.double_of_int lo)))
    ReadBench.tiny = false.
Proof.
  intros Hlo Hhi.
  assert (H : forallb
                (fun l => forallb
                   (fun h => negb (PrimFloat.ltb
                      (PrimFloat.abs (PrimFloat.sub (ReadBench.double_of_int h)
                                                    (ReadBench.double_of_int l)))
                      ReadBench.tiny))
                   (map Z.of_nat (seq 51 950)))
                (map Z.of_nat (seq 0 50)) = true)
    by (vm_compute; reflexivity).
  rewrite forallb_forall in H.
  assert (Hl : In lo (map Z.of_nat (seq 0 50))).
  { apply in_map_iff. exists (Z.to_nat lo). split; [lia | apply in_seq; lia]. }
  specialize (H lo Hl). rewrite forallb_forall in H.
  assert (Hh : In hi (map Z.of_nat (seq 51 950))).
  { apply in_map_iff. exists (Z.to_nat hi). split; [lia | apply in_seq; lia]. }
  specialize (H hi Hh). apply negb_true_iff in H. exact H.
Qed.

Lemma actual_of_used (used : list ReadBench.read_bench_capture_t) (i : nat) :
  ReadBench.actual_mhz (nth i used ReadBench.no_capture)
  = nth i (map ReadBench.actual_mhz used) 0.
Proof.
  change 0 with (ReadBench.actual_mhz ReadBench.no_capture) at 1.
  symmetry. apply map_nth.
Qed.

(** * Further properties of the code *)

(** ** Bounded waits *)

Section TimedWaits.

Context {dev : Type} (respond : dev -> list Z -> nat -> (nat -> Z) * dev).
Variable lapse : world dev -> Z.
Hypothesis lapse_nonneg : forall w, 0 <= lapse w.

Lemma flash_wait_busy_from_returns (timeout_ms start : Z) :
  forall (fuel : nat) (w : world dev),
    0 <= clock w - start -> (0 < fuel)%nat ->
    timeout_ms * 1000 < 200 * (Z.of_nat fuel - 1) + (clock w - start) ->
    exists r w' k,
      flash_wait_busy_from respond lapse fuel timeout_ms start w = Some (r, w')
      /\ (k <= fuel)%nat
      /\ trace w' = trace w ++ repeat (Txn [5] 1) k
      /\ clock w <= clock w'
      /\ (r = false -> timeout_ms * 1000 < clock w' - start).
Proof using lapse_nonneg.
  induction fuel as [|f IH]; intros w He Hpos Hf; [lia|].
  cbn [flash_wait_busy_from]. unfold flash_rdsr.
  pose proof (transact_clock respond [5] 1 w) as Hc.
  pose proof (transact_trace respond [5] 1 w) as Ht.
  pose proof (lapse_nonneg w) as Hl.
  destruct (transact respond [5] 1 w) as [r1 w0]. cbn [snd] in Hc, Ht. cbv zeta.
  destruct (negb (Z.land (nth 0 r1 0) 1 =? 0)).
  - cbn [elapse clock]. rewrite Hc.
    destruct (clock w + lapse w - start >? timeout_ms * 1000) eqn:E.
    + exists false, (elapse (lapse w) w0), 1%nat. split; [reflexivity|]. split; [lia|].
      split; [exact Ht|]. cbn [elapse clock]. rewrite Hc. split; [lia|]. intros _; lia.
    + destruct (IH (sleep_us 200 (elapse (lapse w) w0)))
        as [r [w' [k [Hr [Hk [Htr [Hcl Hfalse]]]]]]].
      * cbn [sleep_us elapse clock]. lia.
      * lia.
      * cbn [sleep_us elapse clock]. lia.
      * exists r, w', (S k). split; [exact Hr|]. split; [lia|]. split.
        { rewrite Htr. cbn [sleep_us elapse trace]. rewrite Ht, <- app_assoc.
          reflexivity. }
        split; [cbn [sleep_us elapse clock] in Hcl; lia | exact Hfalse].
  - exists true, (elapse (lapse w) w0), 1%nat. split; [reflexivity|]. split; [lia|].
    split; [exact Ht|]. cbn [elapse clock]. split; [lia | discriminate].
Qed.

Lemma flash_wait_busy_from_more_fuel (timeout_ms start : Z) :
  forall (n fuel : nat) (w : world dev) x,
    flash_wait_busy_from respond lapse n timeout_ms start w = Some x ->
    (n <= fuel)%nat ->
    flash_wait_busy_from respond lapse fuel timeout_ms start w = Some x.
Proof using Type.
  induction n as [|n IH]; intros fuel w x Hr Hf; [discriminate Hr|].
  destruct fuel as [|fuel]; [lia|].
  cbn [flash_wait_busy_from] in *.
  destruct (flash_rdsr respond w) as [v w0]. cbv zeta in *.
  destruct (negb (Z.land v 1 =? 0)); [|exact Hr].
  destruct (clock (elapse (lapse w) w0) - start >? timeout_ms * 1000); [exact Hr|].
  apply IH; [exact Hr | lia].
Qed.

(** The two bounded waits poll alike; the one of the erase benchmark reads
    the timer once more when it has timed out and has somewhere to store
    the elapsed time. *)
Lemma flash_wait_busy_clear_as_write_wait (timeout_ms t0 : Z) (out : bool) :
  forall (fuel : nat) (w : world dev),
    EraseBench.flash_wait_busy_clear_from respond lapse fuel timeout_ms t0 out w
    = option_map
        (fun x =>
           let w2 := if out && negb (fst x) then elapse (lapse (snd x)) (snd x)
                     else snd x in
           (fst x, EraseBench.store_elapsed out t0 (clock w2), w2))
        (flash_wait_busy_from respond lapse fuel timeout_ms t0 w).
Proof using Type.
  induction fuel as [|f IH]; intros w; [reflexivity|].
  cbn [EraseBench.flash_wait_busy_clear_from flash_wait_busy_from].
  unfold EraseBench.flash_rdsr, flash_rdsr.
  destruct (transact respond [5] 1 w) as [r1 w0]. cbv zeta.
  destruct (negb (Z.land (nth 0 r1 0) 1 =? 0)).
  - destruct (clock (elapse (lapse w) w0) - t0 >? timeout_ms * 1000);
      [|apply IH].
    cbn [option_map fst snd negb]. rewrite andb_true_r. reflexivity.
  - cbn [option_map fst snd negb]. rewrite andb_false_r. reflexivity.
Qed.

Lemma flash_wait_busy_from_console (timeout_ms : Z) :
  forall (n : nat) (start : Z) (w w' : world dev) (r : bool),
    flash_wait_busy_from respond lapse n timeout_ms start w = Some (r, w') ->
    console w' = console w.
Proof using Type.
  induction n as [|n IH]; intros start w w' r Hr; [discriminate Hr|].
  cbn [flash_wait_busy_from] in Hr. unfold flash_rdsr in Hr.
  pose proof (transact_bus_only respond [5] 1 w) as [Hc _].
  destruct (transact respond [5] 1 w) as [r1 w0]. cbn [snd] in Hc. cbv zeta in Hr.
  destruct (negb (Z.land (nth 0 r1 0) 1 =? 0)).
  - destruct (clock (elapse (lapse w) w0) - start >? timeout_ms * 1000).
    + inversion Hr; subst. exact Hc.
    + apply IH in Hr. rewrite Hr. cbn. exact Hc.
  - inversion Hr; subst. exact Hc.
Qed.

(** No reading of the timer that ends the wait is later than the timeout,
    the last sleep and the last status read together. *)
Lemma flash_wait_busy_from_clock_upper (timeout_ms most : Z) :
  (forall w, lapse w <= most) ->
  forall (n : nat) (start : Z) (w w' : world dev) (r : bool),
    clock w - start <= timeout_ms * 1000 + 200 ->
    flash_wait_busy_from respond lapse n timeout_ms start w = Some (r, w') ->
    clock w' - start <= timeout_ms * 1000 + 200 + most.
Proof using Type.
  intros Hmost.
  induction n as [|n IH]; intros start w w' r H0 Hr; [discriminate Hr|].
  cbn [flash_wait_busy_from] in Hr. unfold flash_rdsr in Hr.
  pose proof (transact_clock respond [5] 1 w) as Hc.
  pose proof (Hmost w) as Hm.
  destruct (transact respond [5] 1 w) as [r1 w0]. cbn [snd] in Hc. cbv zeta in Hr.
  destruct (negb (Z.land (nth 0 r1 0) 1 =? 0)).
  - destruct (clock (elapse (lapse w) w0) - start >? timeout_ms * 1000) eqn:E.
    + inversion Hr; subst. cbn [elapse clock]. lia.
    + apply IH in Hr; [exact Hr|]. cbn [sleep_us elapse clock] in *. lia.
  - inversion Hr; subst. cbn [elapse clock]. lia.
Qed.

Lemma flash_wait_busy_clear_polls (timeout_ms : Z) (out : bool) (fuel : nat)
    (w : world dev) :
  0 <= timeout_ms ->
  (Z.to_nat (5 * timeout_ms) + 2 <= fuel)%nat ->
  exists r elapsed_ms w' k,
    EraseBench.flash_wait_busy_clear respond lapse fuel timeout_ms out w
    = Some (r, elapsed_ms, w')
    /\ (k <= Z.to_nat (5 * timeout_ms) + 2)%nat
    /\ trace w' = trace w ++ repeat (Txn [5] 1) k.
Proof using lapse_nonneg.
  intros Ht Hf. unfold EraseBench.flash_wait_busy_clear.
  rewrite flash_wait_busy_clear_as_write_wait.
  destruct (flash_wait_busy_from_returns timeout_ms (clock w)
              (Z.to_nat (5 * timeout_ms) + 2) w ltac:(lia) ltac:(lia) ltac:(lia))
    as [r [w' [k [Hr [Hk [Htr _]]]]]].
  rewrite (flash_wait_busy_from_more_fuel timeout_ms (clock w) _ fuel w _ Hr Hf).
  cbn [option_map fst snd]. cbv zeta.
  eexists r, _, _, k. split; [reflexivity|]. split; [exact Hk|].
  destruct (out && negb r); [cbn [elapse trace]|]; exact Htr.
Qed.

End TimedWaits.

(** The wait of the write benchmark always comes back, on any chip and
    however long the status reads take: given a timeout of [timeout_ms]
    milliseconds it returns after at most [5 * timeout_ms + 2] status reads,
    which are all it puts on the bus, and when it returns [false] the timer
    it reads has advanced by more than the timeout since the call. *)
Theorem flash_wait_busy_bounded {dev : Type}
    (respond : dev -> list Z -> nat -> (nat -> Z) * dev)
    (lapse : world dev -> Z) (timeout_ms : Z) (fuel : nat) (w : world dev) :
  (forall w, 0 <= lapse w) ->
  0 <= timeout_ms ->
  (Z.to_nat (5 * timeout_ms) + 2 <= fuel)%nat ->
  exists r w' k,
    flash_wait_busy respond lapse fuel timeout_ms w = Some (r, w')
    /\ (k <= Z.to_nat (5 * timeout_ms) + 2)%nat
    /\ trace w' = trace w ++ repeat (Txn [5] 1) k
    /\ (r = false -> timeout_ms * 1000 < clock w' - clock w).
Proof.
  intros Hl Ht Hf. unfold flash_wait_busy.
  destruct (flash_wait_busy_from_returns respond lapse Hl timeout_ms (clock w)
              (Z.to_nat (5 * timeout_ms) + 2) w ltac:(lia) ltac:(lia) ltac:(lia))
    as [r [w' [k [Hr [Hk [Htr [_ Hfalse]]]]]]].
  exists r, w', k. split; [|split; [exact Hk | split; [exact Htr | exact Hfalse]]].
  eapply flash_wait_busy_from_more_fuel; [exact Hr | exact Hf].
Qed.

Lemma flash_wait_busy_bounded_witness :
  exists w', flash_wait_busy NoChip.respond (fun _ => 37) 600 100 NoChip.boot
             = Some (false, w')
             /\ 100000 < clock w' - clock NoChip.boot.
Proof.
  destruct (flash_wait_busy_bounded NoChip.respond (fun _ => 37) 100 600 NoChip.boot
              ltac:(intros; lia) ltac:(lia) ltac:(vm_compute; lia))
    as [r [w' [k [Hr [_ [_ Hf]]]]]].
  assert (E : r = false).
  { pose proof Hr as Hr'. vm_compute in Hr'. now inversion Hr'. }
  subst r. exists w'. split; [exact Hr | exact (Hf eq_refl)].
Defined.

(** The wait of the erase benchmark always comes back as well, however long
    the status reads take (less than 2^31 us from one reading of the timer
    to the next), after at most [5 * timeout_ms + 2] status reads and
    without printing.  With a pointer it stores an elapsed time, which on a
    timeout is at least the timeout; with [NULL] it stores nothing. *)
Theorem flash_wait_busy_clear_bounded {dev : Type}
    (respond : dev -> list Z -> nat -> (nat -> Z) * dev)
    (lapse : world dev -> Z) (timeout_ms : Z) (out_elapsed_ms : bool)
    (fuel : nat) (w : world dev) :
  (forall w, 0 <= lapse w < 2 ^ 31) ->
  0 <= timeout_ms -> timeout_ms < 2 ^ 31 ->
  (Z.to_nat (5 * timeout_ms) + 2 <= fuel)%nat ->
  exists r elapsed_ms w' k,
    EraseBench.flash_wait_busy_clear respond lapse fuel timeout_ms out_elapsed_ms w
    = Some (r, if out_elapsed_ms then Some elapsed_ms else None, w')
    /\ (k <= Z.to_nat (5 * timeout_ms) + 2)%nat
    /\ trace w' = trace w ++ repeat (Txn [5] 1) k
    /\ console w' = console w
    /\ (r = false -> timeout_ms <= elapsed_ms).
Proof.
  intros Hl Ht Hb Hf. unfold EraseBench.flash_wait_busy_clear.
  rewrite flash_wait_busy_clear_as_write_wait.
  assert (Hl0 : forall w, 0 <= lapse w) by (intros w0; apply Hl).
  destruct (flash_wait_busy_from_returns respond lapse Hl0 timeout_ms (clock w)
              (Z.to_nat (5 * timeout_ms) + 2) w ltac:(lia) ltac:(lia) ltac:(lia))
    as [r [w' [k [Hr [Hk [Htr [Hcl Hfalse]]]]]]].
  rewrite (flash_wait_busy_from_more_fuel respond lapse timeout_ms (clock w) _ fuel w _
             Hr Hf).
  cbn [option_map fst snd]. cbv zeta.
  set (w2 := if out_elapsed_ms && negb r then elapse (lapse w') w' else w').
  assert (H0 : clock w - clock w <= timeout_ms * 1000 + 200) by lia.
  assert (Hm : forall w0, lapse w0 <= 2 ^ 31) by (intros w0; specialize (Hl w0); lia).
  pose proof (flash_wait_busy_from_clock_upper respond lapse timeout_ms (2 ^ 31) Hm
                _ (clock w) w w' r H0 Hr) as Hup.
  pose proof (flash_wait_busy_from_console respond lapse timeout_ms _ _ _ _ _ Hr) as Hco.
  pose proof (Hl w') as Hlw.
  assert (H2 : clock w' <= clock w2 <= clock w' + 2 ^ 31
               /\ trace w2 = trace w' /\ console w2 = console w').
  { unfold w2. destruct (out_elapsed_ms && negb r); cbn [elapse clock trace console];
      (split; [lia | split; reflexivity]). }
  destruct H2 as [Hc2 [Ht2 Hco2]].
  exists r, (u32 ((clock w2 - clock w) / 1000)), w2, k.
  split; [unfold EraseBench.store_elapsed; reflexivity|].
  split; [exact Hk|]. split; [rewrite Ht2; exact Htr|].
  split; [rewrite Hco2; exact Hco|].
  intros E. specialize (Hfalse E).
  change (2 ^ 31) with 2147483648 in *.
  unfold u32. rewrite Z.mod_small.
  - apply Z.div_le_lower_bound; lia.
  - split; [apply Z.div_pos; lia|].
    apply Z.div_lt_upper_bound; [lia|]. change (2 ^ 32) with 4294967296. lia.
Qed.

Lemma flash_wait_busy_clear_bounded_witness :
  exists w', EraseBench.flash_wait_busy_clear NoChip.respond (fun _ => 37) 300 50
               true NoChip.boot
             = Some (false, Some 50, w').
Proof.
  destruct (flash_wait_busy_clear_bounded NoChip.respond (fun _ => 37) 50 true 300
              NoChip.boot
              ltac:(intros; change (2 ^ 31) with 2147483648; lia)
              ltac:(lia) ltac:(lia) ltac:(vm_compute; lia))
    as [r [e [w' [k [Hr _]]]]].
  pose proof Hr as Hr'. vm_compute in Hr'. inversion Hr'; subst.
  eexists. exact Hr.
Defined.

(** The unprotect step of the erase benchmark never transmits a register
    value.  On any chip, and however long the status reads take, it
    returns, and everything it put on the bus is:
    the two status reads, the volatile write enable, and twice a write
    enable followed by a status-write opcode sent alone (0x01, then 0x31),
    at most 252 status polls, and the two status reads of the check. *)
Theorem erase_flash_unprotect_sends_no_value {dev : Type}
    (respond : dev -> list Z -> nat -> (nat -> Z) * dev)
    (lapse : world dev -> Z) (fuel : nat) (w : world dev) :
  (forall w, 0 <= lapse w) ->
  (252 <= fuel)%nat ->
  exists w' k,
    EraseBench.erase_flash_unprotect respond lapse fuel w = Some w'
    /\ (k <= 252)%nat
    /\ trace w' = trace w
                  ++ [Txn [5] 1; Txn [53] 1; Txn [80] 0;
                      Txn [6] 0; Txn [1] 0; Txn [6] 0; Txn [49] 0]
                  ++ repeat (Txn [5] 1) k
                  ++ [Txn [5] 1; Txn [53] 1].
Proof.
  intros Hl Hf. unfold EraseBench.erase_flash_unprotect.
  unfold EraseBench.flash_rdsr at 1, EraseBench.flash_rdsr2 at 1.
  pose proof (transact_trace respond [5] 1 w) as T1.
  destruct (transact respond [5] 1 w) as [r1 w1]. cbn [snd] in T1.
  pose proof (transact_trace respond [53] 1 w1) as T2.
  destruct (transact respond [53] 1 w1) as [r2 w2]. cbn [snd] in T2.
  set (w5 := EraseBench.flash_wrsr2 respond _ _).
  assert (T5 : trace w5 = trace w ++ [Txn [5] 1; Txn [53] 1; Txn [80] 0;
                                     Txn [6] 0; Txn [1] 0; Txn [6] 0; Txn [49] 0]).
  { unfold w5, EraseBench.flash_wrsr2, EraseBench.flash_wrsr1,
      EraseBench.flash_wren, EraseBench.flash_wren_sr_volatile.
    rewrite !send_trace. cbn [sleep_us trace]. rewrite send_trace, T2, T1.
    rewrite <- !app_assoc. reflexivity. }
  destruct (flash_wait_busy_clear_polls respond lapse Hl 50 false fuel w5
              ltac:(lia) ltac:(exact Hf))
    as [r [e [w6 [k [Hr [Hk Htr]]]]]].
  rewrite Hr. cbn [bind].
  unfold EraseBench.flash_rdsr, EraseBench.flash_rdsr2.
  pose proof (transact_trace respond [5] 1 w6) as T7.
  destruct (transact respond [5] 1 w6) as [r7 w7]. cbn [snd] in T7.
  pose proof (transact_trace respond [53] 1 w7) as T8.
  destruct (transact respond [53] 1 w7) as [r8 w8]. cbn [snd] in T8.
  exists w8, k. split; [reflexivity|]. split; [exact Hk|].
  rewrite T8, T7, Htr, T5. rewrite <- !app_assoc. reflexivity.
Qed.

Lemma erase_flash_unprotect_sends_no_value_witness :
  exists w' k,
    EraseBench.erase_flash_unprotect Mock.respond (fun _ => 37) 252
      (Mock.boot (Mock.with_protection 28 true Mock.blank)) = Some w'
    /\ (k <= 252)%nat
    /\ trace w' = [Txn [5] 1; Txn [53] 1; Txn [80] 0;
                   Txn [6] 0; Txn [1] 0; Txn [6] 0; Txn [49] 0]
                  ++ repeat (Txn [5] 1) k
                  ++ [Txn [5] 1; Txn [53] 1].
Proof.
  apply (erase_flash_unprotect_sends_no_value Mock.respond (fun _ => 37) 252
           (Mock.boot (Mock.with_protection 28 true Mock.blank))).
  - intros w. lia.
  - exact (le_n 252).
Defined.

(** ** Probe *)

(** What [jedec_probe] hands out, on any chip: the size is a power of two
    between 1 byte and 2 GiB or the 512 KiB fallback, so never 0 and always
    small enough for a whole-chip backup in 64 KiB chunks; 4-byte addressing
    is chosen exactly for the capacity bytes 0x19..0x1F; the fast read is
    chosen exactly when the SFDP read starts with the bytes of [SFDP]; and
    the bus sees
    the JEDEC-ID read, the SFDP header read and, exactly when 4-byte
    addressing is chosen, EN4B. *)
Theorem jedec_probe_profile {dev : Type}
    (respond : dev -> list Z -> nat -> (nat -> Z) * dev)
    (spi_set_baudrate : Z -> Z) (clk_hz : Z) (w : world dev) :
  let chip := snd (fst (jedec_probe respond spi_set_baudrate clk_hz w)) in
  let w' := snd (jedec_probe respond spi_set_baudrate clk_hz w) in
  0 < total_bytes chip <= 2 ^ 31
  /\ total_bytes chip + 64 * 1024 <= 2 ^ 32
  /\ (use_4byte_addr chip = true <-> 25 <= capacity_id chip <= 31)
  /\ (use_4byte_addr chip = true <-> 16 * 1024 * 1024 < total_bytes chip)
  /\ (read_cmd chip = if has_sfdp chip then 11 else 3)
  /\ (let buf := fst (transact respond [90; 0; 0; 0; 0] 16
                        (snd (transact respond [159] 3 w))) in
      has_sfdp chip = (nth 0 buf 0 =? 83) && (nth 1 buf 0 =? 70)
                      && (nth 2 buf 0 =? 68) && (nth 3 buf 0 =? 80))
  /\ trace w' = trace w ++ [Txn [159] 3; Txn [90; 0; 0; 0; 0] 16]
                ++ (if use_4byte_addr chip then [Txn [183] 0] else []).
Proof.
  unfold jedec_probe, read_jedec_id, try_sfdp.
  pose proof (transact_bytes respond [159] 3 w 2) as Hb.
  pose proof (transact_trace respond [159] 3 w) as T1.
  destruct (transact respond [159] 3 w) as [id w1]. cbn [fst snd] in Hb, T1.
  cbn [snd].
  pose proof (transact_trace respond [90; 0; 0; 0; 0] 16 w1) as T2.
  destruct (transact respond [90; 0; 0; 0; 0] 16 w1) as [buf w2]. cbn [snd] in T2.
  cbv zeta. cbn [fst snd total_bytes use_4byte_addr capacity_id read_cmd has_sfdp].
  set (code := nth 2 id 0) in *.
  assert (Htot : (if capacity_from_id code =? 0 then 512 * 1024
                  else capacity_from_id code)
                 = if code <? 32 then 2 ^ code else 512 * 1024).
  { destruct (code <? 32) eqn:E.
    - rewrite capacity_from_id_pow2 by lia.
      assert (0 < 2 ^ code) by (apply Z.pow_pos_nonneg; lia).
      destruct (2 ^ code =? 0) eqn:E0; [lia | reflexivity].
    - unfold capacity_from_id. destruct (code >=? 32) eqn:E1; [reflexivity | lia]. }
  rewrite Htot.
  assert (Hpow : code < 32 -> 0 < 2 ^ code <= 2 ^ 31).
  { intros Hc. split; [apply Z.pow_pos_nonneg; lia|].
    apply Z.pow_le_mono_r; lia. }
  assert (Hbig : code < 32 -> (16 * 1024 * 1024 < 2 ^ code <-> 25 <= code)).
  { intros Hc. change (16 * 1024 * 1024) with (2 ^ 24). split; intros H.
    - destruct (Z.lt_ge_cases code 25) as [Hl | Hg]; [|exact Hg].
      assert (2 ^ code <= 2 ^ 24) by (apply Z.pow_le_mono_r; lia). lia.
    - assert (2 ^ 25 <= 2 ^ code) by (apply Z.pow_le_mono_r; lia).
      change (2 ^ 25) with 33554432 in *. change (2 ^ 24) with 16777216. lia. }
  destruct (code <? 32) eqn:E.
  - specialize (Hpow ltac:(lia)). specialize (Hbig ltac:(lia)).
    change (2 ^ 31) with 2147483648 in *. change (2 ^ 32) with 4294967296.
    split; [lia|]. split; [lia|].
    destruct (2 ^ code >? 16 * 1024 * 1024) eqn:Eg.
    + split; [split; [intros _; lia | reflexivity]|].
      split; [split; [intros _; lia | reflexivity]|].
      split; [reflexivity|]. split; [reflexivity|].
      rewrite send_trace, T2, T1, <- !app_assoc. reflexivity.
    + split; [split; [discriminate | intros H; exfalso; lia]|].
      split; [split; [discriminate | intros H; exfalso; lia]|].
      split; [reflexivity|]. split; [reflexivity|].
      rewrite T2, T1, <- !app_assoc. reflexivity.
  - change (2 ^ 31) with 2147483648. change (2 ^ 32) with 4294967296.
    split; [lia|]. split; [lia|]. cbn [Z.gtb Z.compare Z.mul Pos.mul Pos.compare
                                     Pos.compare_cont].
    change (512 * 1024 >? 16 * 1024 * 1024) with false.
    split; [split; [discriminate | intros H; exfalso; lia]|].
    split; [split; [discriminate | intros H; exfalso; lia]|].
    split; [reflexivity|]. split; [reflexivity|].
    rewrite T2, T1, <- !app_assoc. reflexivity.
Qed.

(** ** Blank detection and comparison *)

Lemma forallb_firstn_nth (p : list Z) (n : nat) :
  forallb (fun b => b =? 255) (firstn n p) = true
  <-> (forall i, (i < n)%nat -> (i < length p)%nat -> nth i p 0 = 255).
Proof.
  revert n. induction p as [|x p IH]; intros n.
  - rewrite firstn_nil. cbn. split; [intros _ i _ Hi; lia | reflexivity].
  - destruct n as [|n].
    + cbn. split; [intros _ i Hi; lia | reflexivity].
    + cbn [firstn forallb]. rewrite andb_true_iff, IH. split.
      * intros [Hx Hr] [|i] Hi Hl; cbn in *; [lia|]. apply Hr; lia.
      * intros H. split.
        { specialize (H 0%nat ltac:(lia) ltac:(cbn; lia)). cbn in H. lia. }
        { intros i Hi Hl. apply (H (S i)); cbn; lia. }
Qed.

(** [all_ff(p, n)] holds exactly when each of the first [n] bytes of the
    buffer is 0xFF; in particular an empty range ([n = 0]) counts as blank. *)
Theorem all_ff_spec (p : list Z) (n : Z) :
  (all_ff p n = true
   <-> forall i, (i < Z.to_nat n)%nat -> (i < length p)%nat -> nth i p 0 = 255)
  /\ (n <= 0 -> all_ff p n = true).
Proof.
  unfold all_ff. split; [apply forallb_firstn_nth|].
  intros Hn. replace (Z.to_nat n) with 0%nat by lia. reflexivity.
Qed.

Lemma first_mismatch_le (want : nat) :
  forall buf vbuf, (first_mismatch want buf vbuf <= want)%nat.
Proof.
  induction want as [|k IH]; intros buf vbuf; cbn; [lia|].
  destruct buf as [|x buf]; [lia|]. destruct vbuf as [|y vbuf]; [lia|].
  destruct (x =? y); [specialize (IH buf vbuf); lia | lia].
Qed.

Lemma first_mismatch_agree (want : nat) :
  forall buf vbuf i,
    (i < first_mismatch want buf vbuf)%nat -> nth i buf 0 = nth i vbuf 0.
Proof.
  induction want as [|k IH]; intros buf vbuf i Hi; cbn in Hi; [lia|].
  destruct buf as [|x buf]; [lia|]. destruct vbuf as [|y vbuf]; [lia|].
  destruct (x =? y) eqn:E; [|lia].
  destruct i as [|i]; cbn; [lia|]. apply IH. lia.
Qed.

Lemma first_mismatch_differ (want : nat) :
  forall buf vbuf,
    length buf = want -> length vbuf = want ->
    (first_mismatch want buf vbuf < want)%nat ->
    nth (first_mismatch want buf vbuf) buf 0
    <> nth (first_mismatch want buf vbuf) vbuf 0.
Proof.
  induction want as [|k IH]; intros buf vbuf Hb Hv Hlt; [lia|].
  destruct buf as [|x buf]; [discriminate Hb|].
  destruct vbuf as [|y vbuf]; [discriminate Hv|].
  cbn in *. destruct (x =? y) eqn:E; [|cbn; lia].
  cbn. apply IH; lia.
Qed.

Lemma first_mismatch_full (want : nat) :
  forall buf vbuf,
    length buf = want -> length vbuf = want ->
    first_mismatch want buf vbuf = want -> buf = vbuf.
Proof.
  induction want as [|k IH]; intros buf vbuf Hb Hv Hfm.
  - destruct buf; [|discriminate Hb]. destruct vbuf; [reflexivity | discriminate Hv].
  - destruct buf as [|x buf]; [discriminate Hb|].
    destruct vbuf as [|y vbuf]; [discriminate Hv|].
    cbn in *. destruct (x =? y) eqn:E; [|discriminate Hfm].
    f_equal; [lia|]. apply IH; lia.
Qed.

(** The verification of a written block is exact.  For a block that is
    written (not skipped as blank) with [verify_after_write] set, on any
    chip: [restore_block] lets the restore go on exactly when the read-back
    equals the source buffer byte for byte; otherwise the index it prints is
    that of the first differing byte, with every byte before it equal. *)
Theorem restore_block_verify_exact {dev : Type}
    (respond : dev -> list Z -> nat -> (nat -> Z) * dev)
    (polls budget : nat) (chip : jedec_chip_t) (opts : jedec_restore_opts_t)
    (base : Z) (buf : list Z) (want : Z) (w w2 w' : world dev) (ok : bool) :
  verify_after_write opts = true ->
  skip_erase_when_all_ff opts && all_ff buf want = false ->
  length buf = Z.to_nat want ->
  (w1 <- erase_4k respond polls chip base w ;;
   program_pages respond polls budget chip opts base buf want 0 w1) = Some w2 ->
  restore_block respond polls budget chip opts base buf want w = Some (ok, w') ->
  let vbuf := snd (fst (jedec_read_chunk respond chip base want w2)) in
  (ok = true <-> vbuf = buf)
  /\ (ok = true -> w' = snd (jedec_read_chunk respond chip base want w2))
  /\ (ok = false ->
      exists bad,
        (bad < Z.to_nat want)%nat
        /\ nth bad buf 0 <> nth bad vbuf 0
        /\ (forall i, (i < bad)%nat -> nth i buf 0 = nth i vbuf 0)
        /\ w' = print (MsgVerifyMismatch base bad (nth bad buf 0) (nth bad vbuf 0))
                      (snd (jedec_read_chunk respond chip base want w2))).
Proof.
  intros Hver Hskip Hlen Hwrite Hrun vbuf.
  unfold restore_block in Hrun. rewrite Hskip in Hrun. cbn [negb] in Hrun.
  destruct (erase_4k respond polls chip base w) as [w1|]; [|discriminate Hwrite].
  cbn [bind] in Hrun, Hwrite. rewrite Hwrite in Hrun. cbn [bind] in Hrun.
  rewrite Hver in Hrun.
  destruct (read_chunk_shape respond chip base want w2) as [Hok [Hvl _]].
  subst vbuf.
  destruct (jedec_read_chunk respond chip base want w2) as [[rok vb] w3].
  cbn [fst snd] in *. subst rok. cbn [negb] in Hrun.
  unfold memcmp_differs in Hrun.
  pose proof (first_mismatch_le (Z.to_nat want) buf vb) as Hle.
  destruct (first_mismatch (Z.to_nat want) buf vb <? Z.to_nat want)%nat eqn:E.
  - apply Nat.ltb_lt in E. inversion Hrun; subst ok w'. clear Hrun.
    split; [split; [discriminate|]|split; [discriminate|]].
    + intros Heq. subst vb.
      pose proof (first_mismatch_differ _ buf buf Hlen Hlen E) as Hd.
      exfalso. apply Hd. reflexivity.
    + intros _. exists (first_mismatch (Z.to_nat want) buf vb).
      split; [exact E|]. split; [now apply first_mismatch_differ|].
      split; [|reflexivity]. intros i Hi. now apply first_mismatch_agree with (Z.to_nat want).
  - apply Nat.ltb_ge in E. inversion Hrun; subst ok w'. clear Hrun.
    split; [split; [intros _|reflexivity]|split; [reflexivity | discriminate]].
    symmetry. apply first_mismatch_full with (Z.to_nat want); [assumption..|lia].
Qed.

Lemma restore_block_verify_exact_witness :
  exists w2 w',
    restore_block Mock.respond 8 8 chip_16MiB opts_all_on 4096 [17; 34; 51; 68] 4
      (Mock.boot Mock.blank) = Some (true, w')
    /\ snd (fst (jedec_read_chunk Mock.respond chip_16MiB 4096 4 w2)) = [17; 34; 51; 68].
Proof.
  eexists. eexists.
  eassert (H : _).
  { eapply (restore_block_verify_exact Mock.respond 8 8 chip_16MiB opts_all_on 4096
              [17; 34; 51; 68] 4 (Mock.boot Mock.blank) _ _ true).
    - reflexivity.
    - reflexivity.
    - reflexivity.
    - vm_compute. reflexivity.
    - vm_compute. reflexivity. }
  cbv zeta in H. destruct H as [[H _] _].
  split; [vm_compute; reflexivity | exact (H eq_refl)].
Defined.

(** ** Sizes and alignment *)

Lemma u32_as_land (z : Z) : u32 z = Z.land z (Z.ones 32).
Proof. unfold u32. now rewrite Z.land_ones by lia. Qed.

(** The address the erase benchmark erases at is the test address rounded
    down to a multiple of the erase size, for every power-of-two size: it
    is aligned, not above the test address and less than one block below
    it. *)
Theorem bench_erase_addr_aligned (base_addr : Z) (k : Z) :
  0 <= base_addr < 2 ^ 32 -> 0 <= k < 32 ->
  let addr := EraseBench.bench_erase_addr base_addr (2 ^ k) in
  addr = base_addr - base_addr mod 2 ^ k
  /\ addr mod 2 ^ k = 0
  /\ base_addr - 2 ^ k < addr <= base_addr.
Proof.
  intros Hb Hk addr.
  assert (Hp : 0 < 2 ^ k) by (apply Z.pow_pos_nonneg; lia).
  assert (Hp32 : 2 ^ k < 2 ^ 32) by (apply Z.pow_lt_mono_r; lia).
  assert (E : addr = base_addr - base_addr mod 2 ^ k).
  { unfold addr, EraseBench.bench_erase_addr.
    rewrite (u32_as_land (Z.lnot _)).
    rewrite (Z.land_comm (Z.lnot _) (Z.ones 32)), Z.land_assoc.
    rewrite <- (u32_as_land base_addr). unfold u32 at 1.
    rewrite (Z.mod_small base_addr) by lia.
    unfold u32. rewrite (Z.mod_small (2 ^ k - 1)) by lia.
    replace (2 ^ k - 1) with (Z.ones k) by (rewrite Z.ones_equiv; lia).
    rewrite <- Z.ldiff_land, Z.ldiff_ones_r by lia.
    rewrite Z.shiftl_mul_pow2, Z.shiftr_div_pow2 by lia.
    pose proof (Z.div_mod base_addr (2 ^ k) ltac:(lia)). lia. }
  pose proof (Z.mod_pos_bound base_addr (2 ^ k) Hp) as Hm.
  split; [exact E|]. split; [|lia].
  rewrite E. pose proof (Z.div_mod base_addr (2 ^ k) ltac:(lia)) as Hd.
  replace (base_addr - base_addr mod 2 ^ k) with (base_addr / 2 ^ k * 2 ^ k) by lia.
  apply Z.mod_mul. lia.
Qed.

Lemma bench_erase_addr_aligned_witness :
  EraseBench.bench_erase_addr 1048576 EraseBench.BLOCK_64K = 1048576
  /\ EraseBench.bench_erase_addr 1052671 (2 ^ 12) = 1048576.
Proof.
  split; [reflexivity|].
  destruct (bench_erase_addr_aligned 1052671 12 ltac:(lia) ltac:(lia)) as [E _].
  rewrite E. reflexivity.
Defined.

Lemma le32_range (b0 b1 b2 b3 : Z) :
  0 <= b0 < 256 -> 0 <= b1 < 256 -> 0 <= b2 < 256 -> 0 <= b3 < 256 ->
  le32 b0 b1 b2 b3 = b0 + 256 * b1 + 65536 * b2 + 16777216 * b3.
Proof.
  intros H0 H1 H2 H3. unfold le32.
  rewrite !Z.shiftl_mul_pow2 by lia.
  assert (L : forall a b n, 0 <= a < 2 ^ n -> 0 <= n -> 0 <= b ->
                            Z.lor a (b * 2 ^ n) = a + b * 2 ^ n).
  { intros a b n Ha Hn Hb'. rewrite <- Z.shiftl_mul_pow2 by lia.
    assert (Hz : Z.land a (Z.shiftl b n) = 0).
    { apply Z.bits_inj'. intros i Hi. rewrite Z.land_spec, Z.bits_0.
      destruct (Z.lt_ge_cases i n).
      - rewrite Z.shiftl_spec_low by lia. apply andb_false_r.
      - rewrite <- (Z.mod_small a (2 ^ n)) by lia.
        rewrite Z.mod_pow2_bits_high by lia. reflexivity. }
    rewrite <- Z.lxor_lor by exact Hz.
    symmetry. apply Z.add_nocarry_lxor. exact Hz. }
  rewrite (L b0 b1 8) by lia.
  rewrite (L (b0 + b1 * 2 ^ 8) b2 16) by lia.
  rewrite (L (b0 + b1 * 2 ^ 8 + b2 * 2 ^ 16) b3 24) by lia.
  lia.
Qed.

Lemma bit31_clear (d : Z) :
  0 <= d < 2 ^ 32 -> Z.land d 2147483648 = 0 -> d < 2 ^ 31.
Proof.
  intros Hd Hz. destruct (Z.lt_ge_cases d (2 ^ 31)) as [H | H]; [exact H|].
  exfalso.
  assert (Hb : Z.testbit (Z.land d 2147483648) 31 = true).
  { rewrite Z.land_spec. change 2147483648 with (2 ^ 31).
    rewrite Z.pow2_bits_true by lia. rewrite andb_true_r.
    apply Z.testbit_true; [lia|].
    assert (E : d / 2 ^ 31 = 1).
    { symmetry. apply Z.div_unique with (r := d - 2 ^ 31).
      - left. change (2 ^ 32) with (2 * 2 ^ 31) in Hd. lia.
      - lia. }
    rewrite E. reflexivity. }
  rewrite Hz in Hb. rewrite Z.bits_0 in Hb. discriminate Hb.
Qed.

Lemma bit31_set (d : Z) :
  2 ^ 31 <= d < 2 ^ 32 ->
  (Z.land d 2147483648 =? 0) = false /\ Z.land d 2147483647 = d - 2 ^ 31.
Proof.
  intros Hd. split.
  - destruct (Z.land d 2147483648 =? 0) eqn:E; [|reflexivity].
    apply Z.eqb_eq in E. pose proof (bit31_clear d ltac:(lia) E). lia.
  - change 2147483647 with (Z.ones 31). rewrite Z.land_ones by lia.
    symmetry. apply Z.mod_unique with (q := 1); [left|]; lia.
Qed.

(** [flash_detect_size] takes the density from the dword at SFDP address
    0x04.  That dword belongs to the SFDP header, whose layout is signature,
    minor and major revision, number of parameter headers less one, access
    protocol; it is not the density dword of the parameter table.  So on
    any chip that answers the signature and whose access-protocol byte has
    its top bit set, the size returned is made of the revision bytes: with
    the byte at 0xFF, as the standard has it, between 266338305 and
    268435456 bytes whatever the capacity of the chip is. *)
Theorem flash_detect_size_reads_header {dev : Type}
    (respond : dev -> list Z -> nat -> (nat -> Z) * dev) (w : world dev) :
  let r1 := transact respond [90; 0; 0; 0; 0] 4 w in
  let hb := fst (transact respond [90; 0; 0; 4; 0] 4 (snd r1)) in
  let minor := nth 0 hb 0 in
  let major := nth 1 hb 0 in
  let nph := nth 2 hb 0 in
  let access := nth 3 hb 0 in
  let size := fst (flash_detect_size respond w) in
  fst r1 = [83; 70; 68; 80] ->
  128 <= access ->
  size = 1 + (minor + 256 * major + 65536 * nph + 16777216 * (access - 128)) / 8
  /\ (access = 255 -> 266338305 <= size <= 268435456).
Proof.
  intros r1 hb minor major nph access size Hs Ha.
  pose proof (flash_detect_size_sfdp respond w) as H. cbv zeta in H.
  fold r1 in H. fold hb in H. fold minor in H. fold major in H. fold nph in H.
  fold access in H. specialize (H Hs). fold size in H.
  pose proof (transact_bytes respond [90; 0; 0; 4; 0] 4 (snd r1) 0) as B0.
  pose proof (transact_bytes respond [90; 0; 0; 4; 0] 4 (snd r1) 1) as B1.
  pose proof (transact_bytes respond [90; 0; 0; 4; 0] 4 (snd r1) 2) as B2.
  pose proof (transact_bytes respond [90; 0; 0; 4; 0] 4 (snd r1) 3) as B3.
  fold hb in B0, B1, B2, B3. fold minor in B0. fold major in B1. fold nph in B2.
  fold access in B3.
  rewrite le32_range in H by assumption.
  set (d := minor + 256 * major + 65536 * nph + 16777216 * access) in *.
  assert (Hd : 2 ^ 31 <= d < 2 ^ 32).
  { unfold d. change (2 ^ 31) with 2147483648. change (2 ^ 32) with 4294967296. lia. }
  destruct (bit31_set d Hd) as [E1 E2]. rewrite E1, E2 in H.
  change (2 ^ 31) with 2147483648 in *. change (2 ^ 32) with 4294967296 in Hd.
  unfold u32 in H.
  rewrite (Z.mod_small (d - 2147483648 + 1))
    in H by (change (2 ^ 32) with 4294967296; lia).
  rewrite Z.mod_small in H by (change (2 ^ 32) with 4294967296; lia).
  assert (Hsz : size
                = 1 + (minor + 256 * major + 65536 * nph + 16777216 * (access - 128)) / 8).
  { rewrite H.
    replace (d - 2147483648 + 1 + 7)
      with (1 * 8 + (minor + 256 * major + 65536 * nph + 16777216 * (access - 128)))
      by (unfold d; lia).
    rewrite Z.div_add_l by lia. reflexivity. }
  split; [exact Hsz|]. intros E255. rewrite Hsz, E255.
  replace (minor + 256 * major + 65536 * nph + 16777216 * (255 - 128))
    with (266338304 * 8 + (minor + 256 * major + 65536 * nph)) by lia.
  rewrite Z.div_add_l by lia.
  assert (0 <= (minor + 256 * major + 65536 * nph) / 8 <= 2097151).
  { split; [apply Z.div_pos; lia|].
    assert ((minor + 256 * major + 65536 * nph) / 8 < 2097152)
      by (apply Z.div_lt_upper_bound; lia).
    lia. }
  lia.
Qed.

Lemma flash_detect_size_reads_header_witness :
  let header := [(0, 83); (1, 70); (2, 68); (3, 80); (4, 6); (5, 1); (6, 0); (7, 255)] in
  let size :=
    fst (flash_detect_size Mock.respond (Mock.boot (Mock.with_sfdp header Mock.blank))) in
  size = 1 + (6 + 256 * 1 + 65536 * 0 + 16777216 * (255 - 128)) / 8
  /\ (255 = 255 -> 266338305 <= size <= 268435456).
Proof.
  exact (flash_detect_size_reads_header Mock.respond
           (Mock.boot (Mock.with_sfdp
              [(0, 83); (1, 70); (2, 68); (3, 80); (4, 6); (5, 1); (6, 0); (7, 255)]
              Mock.blank))
           eq_refl ltac:(vm_compute; discriminate)).
Defined.

(** ** Backup to the SD card *)

Lemma tiles_sum (plan : list (Z * Z)) :
  forall a e, tiles a plan e ->
    fold_right Z.add 0 (map snd plan) = e - a
    /\ Forall (fun c => 0 < snd c) plan.
Proof.
  induction plan as [|[o n] rest IH]; intros a e H.
  - cbn in *. split; [lia | constructor].
  - cbn [tiles] in H. destruct H as [Ho [Hn Hr]].
    destruct (IH _ _ Hr) as [Hs Hf]. cbn [map fold_right snd]. split; [lia|].
    constructor; [exact Hn | exact Hf].
Qed.

Lemma sink_chunks_sd_sink {dev : Type}
    (respond : dev -> list Z -> nat -> (nat -> Z) * dev) {F : Type}
    (f_write : F -> list Z -> Z * Z * F) (chip : jedec_chip_t) :
  (forall file data, fst (fst (f_write file data)) = 0
                     /\ snd (fst (f_write file data)) = Z.of_nat (length data)) ->
  forall (plan : list (Z * Z)) (w : world dev) (file : F) (written : Z),
    Forall (fun c => 0 < snd c) plan ->
    0 <= written ->
    written + fold_right Z.add 0 (map snd plan) < 2 ^ 64 ->
    exists w' file',
      sink_chunks respond chip (sd_sink f_write) plan w (file, written)
      = (true, w', (file', written + fold_right Z.add 0 (map snd plan))).
Proof.
  intros Hfw. induction plan as [|[a n] rest IH]; intros w file written Hpos Hw Hs.
  - cbn. rewrite Z.add_0_r. eauto.
  - inversion Hpos as [|x l Hn Hrest]; subst. cbn [snd] in Hn.
    cbn [map fold_right snd] in *.
    assert (Hsum : 0 <= fold_right Z.add 0 (map snd rest)).
    { clear - Hrest. induction Hrest as [|[a' n'] l Hx _ IHl]; cbn in *; lia. }
    cbn [sink_chunks].
    destruct (read_chunk_shape respond chip a n w) as [_ [Hlen _]].
    destruct (jedec_read_chunk respond chip a n w) as [[ok buf] w1].
    cbn [fst snd] in Hlen. unfold sd_sink at 1.
    destruct (Hfw file buf) as [Hfr Hbw].
    destruct (f_write file buf) as [[fr bw] file1]. cbn [fst snd] in Hfr, Hbw.
    subst fr bw. rewrite !Z.eqb_refl. cbn [negb orb].
    rewrite Hlen, Z2Nat.id by lia.
    rewrite Z.mod_small by lia.
    destruct (IH w1 file1 (written + n) Hrest ltac:(lia) ltac:(lia))
      as [w' [file' H]].
    exists w', file'. fold (sd_sink f_write). rewrite H. f_equal. f_equal. lia.
Qed.

Lemma backup_loop_to_sd {dev : Type}
    (respond : dev -> list Z -> nat -> (nat -> Z) * dev)
    {F : Type} (f_write : F -> list Z -> Z * Z * F) (chip : jedec_chip_t)
    (offset len chunk : Z) (fuel : nat) (w : world dev) (file : F) (written : Z) :
  0 < chunk -> 0 <= offset -> 0 <= len -> offset + len + chunk <= 2 ^ 32 ->
  (Z.to_nat ((len + chunk - 1) / chunk) < fuel)%nat ->
  (forall file data, fst (fst (f_write file data)) = 0
                     /\ snd (fst (f_write file data)) = Z.of_nat (length data)) ->
  0 <= written -> written + len < 2 ^ 64 ->
  exists w' file',
    backup_loop respond fuel chip (u32 (offset + len)) chunk (sd_sink f_write)
      offset w (file, written)
    = Some (true, w', (file', written + len)).
Proof.
  intros Hc Ho Hl Hr Hf Hfw Hw Hs.
  pose proof (backup_loop_follows_plan respond chip (sd_sink f_write) offset len chunk
                Hc Ho Hl Hr (Z.to_nat ((len + chunk - 1) / chunk))
                0%nat fuel w (file, written) ltac:(lia) Hf) as H.
  cbn [Z.of_nat] in H. rewrite Z.mul_0_l, Z.add_0_r in H. rewrite H. clear H.
  set (plan := map _ (seq 0 _)).
  assert (Ht : tiles offset plan (offset + len)).
  { unfold plan.
    destruct (Z.to_nat ((len + chunk - 1) / chunk)) as [|k] eqn:Ek.
    - pose proof (count_spec offset len chunk Hc Ho Hl Hr) as Hcs. rewrite Ek in Hcs.
      cbn [seq map tiles]. lia.
    - pose proof (plan_tiles offset len chunk Hc Ho Hl Hr k 0%nat ltac:(lia)) as H.
      cbn [Z.of_nat] in H. rewrite Z.mul_0_l, Z.add_0_r in H. exact H. }
  destruct (tiles_sum plan _ _ Ht) as [Hsum Hpos].
  destruct (sink_chunks_sd_sink respond f_write chip Hfw plan w file written
              Hpos Hw ltac:(lia)) as [w' [file' H]].
  exists w', file'. rewrite H. do 3 f_equal. lia.
Qed.

(** A backup onto a card that takes every write stores exactly the range.
    For a range that leaves room for one more chunk below 4 GiB
    ([offset + len + chunk <= 2^32]), a chunk buffer that can be allocated
    and a running total that stays below 2^64: on any chip,
    [jedec_backup_stream] with the SD sink returns [true] and the running
    total of the sink has grown by exactly [len]. *)
Theorem backup_to_sd_writes_len {dev : Type}
    (respond : dev -> list Z -> nat -> (nat -> Z) * dev) (malloc_ok : Z -> bool)
    {F : Type} (f_write : F -> list Z -> Z * Z * F) (chip : jedec_chip_t)
    (offset len chunk : Z) (fuel : nat) (w : world dev) (file : F) (written : Z) :
  0 < chunk -> 0 <= offset -> 0 <= len -> offset + len + chunk <= 2 ^ 32 ->
  malloc_ok chunk = true ->
  (Z.to_nat ((len + chunk - 1) / chunk) < fuel)%nat ->
  (forall file data, fst (fst (f_write file data)) = 0
                     /\ snd (fst (f_write file data)) = Z.of_nat (length data)) ->
  0 <= written -> written + len < 2 ^ 64 ->
  exists w' file',
    jedec_backup_stream respond malloc_ok fuel chip offset len chunk
      (Some (sd_sink f_write)) w (file, written)
    = Some (true, w', (file', written + len)).
Proof.
  intros Hc Ho Hl Hr Hm Hf Hfw Hw Hs.
  unfold jedec_backup_stream.
  destruct (chunk =? 0) eqn:E; [lia|]. rewrite Hm. cbn [negb].
  exact (backup_loop_to_sd respond f_write chip offset len chunk fuel w file written
           Hc Ho Hl Hr Hf Hfw Hw Hs).
Qed.

Lemma backup_to_sd_writes_len_witness :
  exists w' file',
    jedec_backup_stream Mock.respond small_heap 4 chip_16MiB 4096 10 4
      (Some (sd_sink (fun (file : list Z) data =>
                        (0, Z.of_nat (length data), file ++ data))))
      (Mock.boot Mock.blank) ([], 0)
    = Some (true, w', (file', 0 + 10)).
Proof.
  apply (backup_to_sd_writes_len Mock.respond small_heap
           (fun (file : list Z) data => (0, Z.of_nat (length data), file ++ data))
           chip_16MiB 4096 10 4 4 (Mock.boot Mock.blank) [] 0);
    first [ lia | reflexivity | (vm_compute; lia) | (intros; split; reflexivity) ].
Defined.

Lemma jedec_probe_total_range {dev : Type}
    (respond : dev -> list Z -> nat -> (nat -> Z) * dev)
    (spi_set_baudrate : Z -> Z) (clk_hz : Z) (w : world dev) :
  0 < total_bytes (snd (fst (jedec_probe respond spi_set_baudrate clk_hz w)))
  <= 2147483648.
Proof.
  unfold jedec_probe, read_jedec_id, try_sfdp.
  pose proof (transact_bytes respond [159] 3 w 2) as Hb.
  destruct (transact respond [159] 3 w) as [id w1]. cbn [fst snd] in Hb.
  destruct (transact respond [90; 0; 0; 0; 0] 16 w1) as [buf w2].
  cbv zeta. cbn [fst snd total_bytes].
  set (code := nth 2 id 0) in *.
  destruct (Z.lt_ge_cases code 32) as [Hc | Hc].
  - rewrite capacity_from_id_pow2 by lia.
    assert (0 < 2 ^ code) by (apply Z.pow_pos_nonneg; lia).
    assert (2 ^ code <= 2 ^ 31) by (apply Z.pow_le_mono_r; lia).
    change (2 ^ 31) with 2147483648 in *.
    destruct (2 ^ code =? 0) eqn:E0; lia.
  - unfold capacity_from_id. destruct (code >=? 32) eqn:E1; [cbn; lia | lia].
Qed.

(** Probe, then back up the whole chip to the card, as the dump after
    identification does: on any chip, with a card that takes every write and
    64 KiB of heap, the backup returns [true] and has written exactly the
    [total_bytes] of the profile the probe built. *)
Theorem dump_after_probe_writes_total {dev : Type}
    (respond : dev -> list Z -> nat -> (nat -> Z) * dev) (malloc_ok : Z -> bool)
    (spi_set_baudrate : Z -> Z) (clk_hz : Z)
    {F : Type} (f_write : F -> list Z -> Z * Z * F)
    (fuel : nat) (w : world dev) (file : F) :
  malloc_ok (64 * 1024) = true ->
  (Z.to_nat 32768 < fuel)%nat ->
  (forall file data, fst (fst (f_write file data)) = 0
                     /\ snd (fst (f_write file data)) = Z.of_nat (length data)) ->
  let chip := snd (fst (jedec_probe respond spi_set_baudrate clk_hz w)) in
  let w1 := snd (jedec_probe respond spi_set_baudrate clk_hz w) in
  exists w2 file',
    jedec_backup_full respond malloc_ok fuel chip (Some (sd_sink f_write)) w1 (file, 0)
    = Some (true, w2, (file', total_bytes chip)).
Proof.
  intros Hm Hf Hfw chip w1.
  pose proof (jedec_probe_total_range respond spi_set_baudrate clk_hz w) as Htot.
  fold chip in Htot. unfold jedec_backup_full.
  assert (Hq : (total_bytes chip + 64 * 1024 - 1) / (64 * 1024) < 32769).
  { apply Z.div_lt_upper_bound; lia. }
  assert (H32 : 0 + total_bytes chip + 64 * 1024 <= 2 ^ 32)
    by (change (2 ^ 32) with 4294967296; lia).
  assert (H64 : 0 + total_bytes chip < 2 ^ 64)
    by (change (2 ^ 64) with 18446744073709551616; lia).
  assert (Hfuel : (Z.to_nat ((total_bytes chip + 64 * 1024 - 1) / (64 * 1024))
                   < fuel)%nat).
  { assert (0 <= (total_bytes chip + 64 * 1024 - 1) / (64 * 1024))
      by (apply Z.div_pos; lia).
    lia. }
  unfold jedec_backup_stream. change (64 * 1024 =? 0) with false. cbv iota.
  rewrite Hm. cbn [negb].
  destruct (backup_loop_to_sd respond f_write chip 0 (total_bytes chip) (64 * 1024)
              fuel w1 file 0
              ltac:(lia) ltac:(lia) ltac:(lia) H32 Hfuel Hfw ltac:(lia) H64)
    as [w2 [file' H]].
  exists w2, file'. rewrite H. reflexivity.
Qed.

Lemma dump_after_probe_writes_total_witness :
  let chip := snd (fst (jedec_probe Mock.respond (fun hz => hz) 1000000
                          (Mock.boot Mock.blank))) in
  let w1 := snd (jedec_probe Mock.respond (fun hz => hz) 1000000
                   (Mock.boot Mock.blank)) in
  exists w2 file',
    jedec_backup_full Mock.respond (fun _ => true) (Z.to_nat 32769) chip
      (Some (sd_sink (fun (file : list Z) data =>
                        (0, Z.of_nat (length data), file ++ data))))
      w1 ([], 0)
    = Some (true, w2, (file', total_bytes chip)).
Proof.
  apply (dump_after_probe_writes_total Mock.respond (fun _ => true) (fun hz => hz)
           1000000
           (fun (file : list Z) data => (0, Z.of_nat (length data), file ++ data))
           (Z.to_nat 32769) (Mock.boot Mock.blank) []).
  - reflexivity.
  - lia.
  - intros; split; reflexivity.
Defined.

(** ** The erase and program loops *)




Lemma land_low_mask (a j : Z) :
  0 <= a -> 0 <= j < 32 -> Z.land a (u32 (2 ^ j - 1)) = a mod 2 ^ j.
Proof.
  intros Ha Hj. unfold u32.
  assert (0 < 2 ^ j) by (apply Z.pow_pos_nonneg; lia).
  assert (2 ^ j <= 2 ^ 31) by (apply Z.pow_le_mono_r; lia).
  change (2 ^ 31) with 2147483648 in *.
  rewrite Z.mod_small by (change (2 ^ 32) with 4294967296; lia).
  replace (2 ^ j - 1) with (Z.ones j) by (rewrite Z.ones_equiv; lia).
  apply Z.land_ones. lia.
Qed.

Lemma page_writes_cons (opts : jedec_restore_opts_t) (base : Z) (buf : list Z)
    (off n : Z) (cuts : list (Z * Z)) :
  page_writes opts base buf ((off, n) :: cuts)
  = if negb (skip_prog_when_all_ff opts
             && all_ff (firstn (Z.to_nat n) (skipn (Z.to_nat off) buf)) n)
    then (base + off, firstn (Z.to_nat n) (skipn (Z.to_nat off) buf))
         :: page_writes opts base buf cuts
    else page_writes opts base buf cuts.
Proof.
  unfold page_writes, page_data. cbn [filter fst snd].
  destruct (negb (skip_prog_when_all_ff opts
                  && all_ff (firstn (Z.to_nat n) (skipn (Z.to_nat off) buf)) n));
    reflexivity.
Qed.

Lemma program_pages_cuts {dev : Type}
    (respond : dev -> list Z -> nat -> (nat -> Z) * dev)
    (polls : nat) (chip : jedec_chip_t) (opts : jedec_restore_opts_t)
    (base : Z) (buf : list Z) (want j : Z) :
  program_chunk opts = 2 ^ j -> 0 <= j < 32 ->
  0 <= base -> 0 <= want < 2 ^ 32 -> base + want <= 2 ^ 32 ->
  forall (fuel : nat) (off : Z) (w : world dev),
    0 <= off <= want ->
    (Z.to_nat (want - off) < fuel)%nat ->
    exists cuts,
      program_pages respond polls fuel chip opts base buf want off w
      = program_each respond polls chip (page_writes opts base buf cuts) w
      /\ tiles off cuts want
      /\ Forall (within_page (2 ^ j) base) cuts
      /\ Forall (to_page_end (2 ^ j) base want) cuts.
Proof.
  intros Hpc Hj Hb Hw Hr.
  assert (Hp : 0 < 2 ^ j) by (apply Z.pow_pos_nonneg; lia).
  assert (Hp31 : 2 ^ j <= 2 ^ 31) by (apply Z.pow_le_mono_r; lia).
  change (2 ^ 31) with 2147483648 in Hp31. change (2 ^ 32) with 4294967296 in Hr, Hw.
  induction fuel as [|f IH]; intros off w Ho Hf; [lia|].
  cbn [program_pages]. destruct (off <? want) eqn:E.
  - rewrite Hpc.
    assert (Hpa : u32 (base + off) = base + off).
    { unfold u32. apply Z.mod_small. change (2 ^ 32) with 4294967296. lia. }
    rewrite Hpa. rewrite land_low_mask by lia.
    pose proof (Z.mod_pos_bound (base + off) (2 ^ j) Hp) as Hm.
    set (r := (base + off) mod 2 ^ j) in *.
    assert (Hl : u32 (2 ^ j - r) = 2 ^ j - r).
    { unfold u32. apply Z.mod_small. change (2 ^ 32) with 4294967296. lia. }
    assert (Hrem : u32 (want - off) = want - off).
    { unfold u32. apply Z.mod_small. change (2 ^ 32) with 4294967296. lia. }
    rewrite Hl, Hrem.
    set (n := if 2 ^ j - r <? want - off then 2 ^ j - r else want - off).
    assert (Hn : 0 < n <= want - off /\ n <= 2 ^ j - r).
    { unfold n. destruct (2 ^ j - r <? want - off) eqn:En; lia. }
    assert (Hon : u32 (off + n) = off + n).
    { unfold u32. apply Z.mod_small. change (2 ^ 32) with 4294967296. lia. }
    rewrite Hon.
    assert (Hend : to_page_end (2 ^ j) base want (off, n)).
    { unfold to_page_end. cbn [fst snd]. fold r. unfold n.
      destruct (2 ^ j - r <? want - off) eqn:En; lia. }
    assert (Hin : within_page (2 ^ j) base (off, n)).
    { unfold within_page. cbn [fst snd].
      pose proof (Z.div_mod (base + off) (2 ^ j) ltac:(lia)) as Hdm. fold r in Hdm.
      apply Z.div_unique with (r := r + n - 1); [left; lia | lia]. }
    destruct (negb (skip_prog_when_all_ff opts
                    && all_ff (firstn (Z.to_nat n) (skipn (Z.to_nat off) buf)) n))
      eqn:Esk.
    + destruct (prog_page respond polls chip (base + off)
                  (firstn (Z.to_nat n) (skipn (Z.to_nat off) buf)) w)
        as [w1|] eqn:Ep.
      * cbn [bind]. destruct (IH (off + n) w1 ltac:(lia) ltac:(lia))
          as [cuts [He [Ht [Hc Hx]]]].
        exists ((off, n) :: cuts). split; [|split; [|split]].
        -- rewrite page_writes_cons, Esk. cbn [program_each]. rewrite Ep.
           cbn [bind]. exact He.
        -- cbn [tiles]. split; [reflexivity|]. split; [lia | exact Ht].
        -- constructor; [exact Hin | exact Hc].
        -- constructor; [exact Hend | exact Hx].
      * cbn [bind].
        destruct (IH (off + n) w ltac:(lia) ltac:(lia)) as [cuts [_ [Ht [Hc Hx]]]].
        exists ((off, n) :: cuts). split; [|split; [|split]].
        -- rewrite page_writes_cons, Esk. cbn [program_each]. rewrite Ep.
           reflexivity.
        -- cbn [tiles]. split; [reflexivity|]. split; [lia | exact Ht].
        -- constructor; [exact Hin | exact Hc].
        -- constructor; [exact Hend | exact Hx].
    + cbn [bind]. destruct (IH (off + n) w ltac:(lia) ltac:(lia))
        as [cuts [He [Ht [Hc Hx]]]].
      exists ((off, n) :: cuts). split; [|split; [|split]].
      * rewrite page_writes_cons, Esk. exact He.
      * cbn [tiles]. split; [reflexivity|]. split; [lia | exact Ht].
      * constructor; [exact Hin | exact Hc].
      * constructor; [exact Hend | exact Hx].
  - exists []. split; [reflexivity|]. split; [cbn [tiles]; lia|].
    split; constructor.
Qed.

(** [program_pages] cuts a block at the page boundaries of the chip: with a
    page size that is a power of two, the page programs it issues are those
    of the cuts that cover the [want] bytes of the block once and in order,
    each cut running from where the previous one ended up to the next page
    boundary or to the end of the block, whichever comes first, and so
    within one page; a cut is left out only when [skip_prog_when_all_ff] is
    set and its bytes are all 0xFF. *)
Theorem program_pages_page_aligned {dev : Type}
    (respond : dev -> list Z -> nat -> (nat -> Z) * dev)
    (polls fuel : nat) (chip : jedec_chip_t) (opts : jedec_restore_opts_t)
    (base : Z) (buf : list Z) (want j : Z) (w : world dev) :
  program_chunk opts = 2 ^ j -> 0 <= j < 32 ->
  0 <= base -> 0 <= want < 2 ^ 32 -> base + want <= 2 ^ 32 ->
  (Z.to_nat want < fuel)%nat ->
  exists cuts,
    program_pages respond polls fuel chip opts base buf want 0 w
    = program_each respond polls chip (page_writes opts base buf cuts) w
    /\ tiles 0 cuts want
    /\ Forall (within_page (2 ^ j) base) cuts
    /\ Forall (to_page_end (2 ^ j) base want) cuts.
Proof.
  intros Hpc Hj Hb Hw Hr Hf.
  apply (program_pages_cuts respond polls chip opts base buf want j Hpc Hj Hb Hw Hr
           fuel 0 w); [lia|]. rewrite Z.sub_0_r. exact Hf.
Qed.

Lemma program_pages_page_aligned_witness :
  exists cuts,
    program_pages Mock.respond 4 4 chip_16MiB opts_all_on 4350 [1; 2; 3] 3 0
      (Mock.boot Mock.blank)
    = program_each Mock.respond 4 chip_16MiB
        (page_writes opts_all_on 4350 [1; 2; 3] cuts) (Mock.boot Mock.blank)
    /\ tiles 0 cuts 3
    /\ Forall (within_page (2 ^ 8) 4350) cuts
    /\ Forall (to_page_end (2 ^ 8) 4350 3) cuts.
Proof.
  apply (program_pages_page_aligned Mock.respond 4 4 chip_16MiB opts_all_on 4350
           [1; 2; 3] 3 8 (Mock.boot Mock.blank)); vm_compute;
    first [reflexivity | lia | (split; congruence) | discriminate].
Defined.

(** ** [flash_smart_erase] *)




(** ** The opcodes of the erase benchmark *)

Section ScanSlots.

Import EraseBench.

Variable id : erase_types.
Variable size : Z.
Variable get : bool * Z * bool * Z * bool * Z -> bool * Z.

Hypothesis get_step : forall k rest st,
  exists st1,
    scan_slots id (k :: rest) st = scan_slots id rest st1
    /\ get st1 = if nth k (et_present id) false && (nth k (et_size_bytes id) 0 =? size)
                 then (true, nth k (et_opcode id) 0) else get st.

Lemma scan_slots_none (ks : list nat) :
  forall st, (forall k, In k ks -> ~ slot_offers id size k) ->
    get (scan_slots id ks st) = get st.
Proof using get_step.
  induction ks as [|k rest IH]; intros st Hno; [reflexivity|].
  destruct (get_step k rest st) as [st1 [E G]]. rewrite E, IH.
  - rewrite G.
    destruct (nth k (et_present id) false) eqn:Ep; [|reflexivity].
    destruct (nth k (et_size_bytes id) 0 =? size) eqn:Es; [|reflexivity].
    exfalso. apply (Hno k (or_introl eq_refl)). split; [exact Ep | lia].
  - intros k' Hin. apply Hno. right. exact Hin.
Qed.

Lemma scan_slots_last (l1 : list nat) (k : nat) (l2 : list nat) :
  forall st, slot_offers id size k ->
    (forall k', In k' l2 -> ~ slot_offers id size k') ->
    get (scan_slots id (l1 ++ k :: l2) st) = (true, nth k (et_opcode id) 0).
Proof using get_step.
  induction l1 as [|a l1 IH]; intros st [Hp Hs] Hno.
  - cbn [app]. destruct (get_step k l2 st) as [st1 [E G]].
    rewrite E, scan_slots_none by exact Hno. rewrite G, Hp.
    replace (nth k (et_size_bytes id) 0 =? size) with true by (symmetry; lia).
    reflexivity.
  - cbn [app]. destruct (get_step a (l1 ++ k :: l2) st) as [st1 [E _]].
    rewrite E. apply IH; [split; assumption | exact Hno].
Qed.

Lemma scan_slots_chosen (dflt : Z) (st : bool * Z * bool * Z * bool * Z) :
  fst (get st) = false ->
  chosen_for id size dflt
    (if negb (fst (get (scan_slots id [0; 1; 2; 3]%nat st))) then dflt
     else snd (get (scan_slots id [0; 1; 2; 3]%nat st))).
Proof using get_step.
  intros Hst.
  assert (Hdec : forall k, slot_offers id size k \/ ~ slot_offers id size k).
  { intros k. unfold slot_offers.
    destruct (nth k (et_present id) false);
      destruct (Z.eq_dec (nth k (et_size_bytes id) 0) size);
      first [ left; split; [reflexivity | assumption]
            | right; intros [H1 H2]; first [discriminate | contradiction] ]. }
  destruct (Hdec 3%nat) as [H3 | H3].
  { left. exists 3%nat.
    pose proof (scan_slots_last [0; 1; 2]%nat 3 [] st H3) as E. cbn [app] in E.
    rewrite E by (intros k' []).
    cbn [fst snd negb]. split; [lia|]. split; [exact H3|]. split; [|reflexivity].
    intros k' Hk. lia. }
  destruct (Hdec 2%nat) as [H2 | H2].
  { left. exists 2%nat.
    pose proof (scan_slots_last [0; 1]%nat 2 [3%nat] st H2) as E. cbn [app] in E.
    rewrite E.
    - cbn [fst snd negb]. split; [lia|]. split; [exact H2|]. split; [|reflexivity].
      intros k' Hk. replace k' with 3%nat by lia. exact H3.
    - intros k' [<- | []]. exact H3. }
  destruct (Hdec 1%nat) as [H1 | H1].
  { left. exists 1%nat.
    pose proof (scan_slots_last [0%nat] 1 [2; 3]%nat st H1) as E. cbn [app] in E.
    rewrite E.
    - cbn [fst snd negb]. split; [lia|]. split; [exact H1|]. split; [|reflexivity].
      intros k' Hk. assert (k' = 2 \/ k' = 3)%nat as [-> | ->] by lia; assumption.
    - intros k' [<- | [<- | []]]; assumption. }
  destruct (Hdec 0%nat) as [H0 | H0].
  { left. exists 0%nat.
    pose proof (scan_slots_last [] 0 [1; 2; 3]%nat st H0) as E. cbn [app] in E.
    rewrite E.
    - cbn [fst snd negb]. split; [lia|]. split; [exact H0|]. split; [|reflexivity].
      intros k' Hk.
      assert (k' = 1 \/ k' = 2 \/ k' = 3)%nat as [-> | [-> | ->]] by lia; assumption.
    - intros k' [<- | [<- | [<- | []]]]; assumption. }
  right. rewrite scan_slots_none.
  - rewrite Hst. cbn [negb]. split; [|reflexivity].
    intros k Hk.
    assert (k = 0 \/ k = 1 \/ k = 2 \/ k = 3)%nat as [-> | [-> | [-> | ->]]] by lia;
      assumption.
  - intros k [<- | [<- | [<- | [<- | []]]]]; assumption.
Qed.

End ScanSlots.

Ltac scan_step :=
  intros k rest [[[[[h4 o4] h32] o32] h64] o64]; cbn [EraseBench.scan_slots];
  destruct (nth k (EraseBench.et_present _) false);
  [ cbn [negb andb];
    unfold EraseBench.SECTOR_4K, EraseBench.BLOCK_32K, EraseBench.BLOCK_64K;
    destruct (nth k (EraseBench.et_size_bytes _) 0 =? 4096);
    destruct (nth k (EraseBench.et_size_bytes _) 0 =? 32768);
    destruct (nth k (EraseBench.et_size_bytes _) 0 =? 65536);
    eexists; (split; [reflexivity | reflexivity])
  | cbn [negb andb]; eexists; (split; [reflexivity | reflexivity]) ].

(** The opcodes the erase benchmark uses: for each of 4 KiB, 32 KiB and
    64 KiB, the opcode of the last present erase-type slot of that size, and
    the fixed default (0x20, 0x52, 0xD8) when no present slot has that
    size. *)
Theorem erase_opcodes_choice (id : EraseBench.erase_types) :
  EraseBench.chosen_for id 4096 32 (fst (fst (EraseBench.erase_opcodes id)))
  /\ EraseBench.chosen_for id 32768 82 (snd (fst (EraseBench.erase_opcodes id)))
  /\ EraseBench.chosen_for id 65536 216 (snd (EraseBench.erase_opcodes id)).
Proof.
  pose proof (scan_slots_chosen id 4096
                (fun st => (fst (fst (fst (fst (fst st)))), snd (fst (fst (fst (fst st))))))
                ltac:(scan_step) 32 (false, 0, false, 0, false, 0) eq_refl) as H4.
  pose proof (scan_slots_chosen id 32768
                (fun st => (snd (fst (fst (fst st))), snd (fst (fst st))))
                ltac:(scan_step) 82 (false, 0, false, 0, false, 0) eq_refl) as H32.
  pose proof (scan_slots_chosen id 65536
                (fun st => (snd (fst st), snd st))
                ltac:(scan_step) 216 (false, 0, false, 0, false, 0) eq_refl) as H64.
  unfold EraseBench.erase_opcodes.
  destruct (EraseBench.scan_slots id [0; 1; 2; 3]%nat (false, 0, false, 0, false, 0))
    as [[[[[h4 o4] h32] o32] h64] o64].
  cbn [fst snd] in *. split; [exact H4 | split; [exact H32 | exact H64]].
Qed.

(** ** Which captures the derived 50 MHz table is built from *)

Lemma find_best_below_from_spec (mhz : list Z) :
  forall i idx best,
    let r := ReadBench.find_best_below_from mhz i idx best in
    (r = idx /\ forall m, In m mhz -> m < 50 -> m <= best)
    \/ (i <= r < i + Z.of_nat (length mhz)
        /\ best < nth (Z.to_nat (r - i)) mhz 0 < 50
        /\ forall m, In m mhz -> m < 50 -> m <= nth (Z.to_nat (r - i)) mhz 0).
Proof.
  induction mhz as [|m rest IH]; intros i idx best.
  - left. split; [reflexivity | intros m []].
  - cbn [ReadBench.find_best_below_from]. cbv zeta.
    destruct ((m <? 50) && (m >? best)) eqn:E.
    + apply andb_true_iff in E. destruct E as [E1 E2].
      destruct (IH (i + 1) i m) as [[Hr Hn] | [Hr [Hv Hm]]].
      * right. rewrite Hr. split; [cbn [length]; lia|].
        rewrite Z.sub_diag. cbn [Z.to_nat nth]. split; [lia|].
        intros m' [<- | Hin] Hlt; [lia | apply Hn; assumption].
      * right. set (r := ReadBench.find_best_below_from rest (i + 1) i m) in *.
        split; [cbn [length]; lia|].
        replace (Z.to_nat (r - i)) with (S (Z.to_nat (r - (i + 1)))) by lia.
        cbn [nth]. split; [lia|].
        intros m' [<- | Hin] Hlt; [lia | apply Hm; assumption].
    + apply andb_false_iff in E.
      destruct (IH (i + 1) idx best) as [[Hr Hn] | [Hr [Hv Hm]]].
      * left. split; [exact Hr|].
        intros m' [<- | Hin] Hlt; [lia | apply Hn; assumption].
      * right. set (r := ReadBench.find_best_below_from rest (i + 1) idx best) in *.
        split; [cbn [length]; lia|].
        replace (Z.to_nat (r - i)) with (S (Z.to_nat (r - (i + 1)))) by lia.
        cbn [nth]. split; [lia|].
        intros m' [<- | Hin] Hlt; [lia | apply Hm; assumption].
Qed.

Lemma find_best_above_from_spec (mhz : list Z) :
  forall i idx best,
    let r := ReadBench.find_best_above_from mhz i idx best in
    (r = idx /\ forall m, In m mhz -> 50 < m -> best <= m)
    \/ (i <= r < i + Z.of_nat (length mhz)
        /\ 50 < nth (Z.to_nat (r - i)) mhz 0 < best
        /\ forall m, In m mhz -> 50 < m -> nth (Z.to_nat (r - i)) mhz 0 <= m).
Proof.
  induction mhz as [|m rest IH]; intros i idx best.
  - left. split; [reflexivity | intros m []].
  - cbn [ReadBench.find_best_above_from]. cbv zeta.
    destruct ((m >? 50) && (m <? best)) eqn:E.
    + apply andb_true_iff in E. destruct E as [E1 E2].
      destruct (IH (i + 1) i m) as [[Hr Hn] | [Hr [Hv Hm]]].
      * right. rewrite Hr. split; [cbn [length]; lia|].
        rewrite Z.sub_diag. cbn [Z.to_nat nth]. split; [lia|].
        intros m' [<- | Hin] Hlt; [lia | apply Hn; assumption].
      * right. set (r := ReadBench.find_best_above_from rest (i + 1) i m) in *.
        split; [cbn [length]; lia|].
        replace (Z.to_nat (r - i)) with (S (Z.to_nat (r - (i + 1)))) by lia.
        cbn [nth]. split; [lia|].
        intros m' [<- | Hin] Hlt; [lia | apply Hm; assumption].
    + apply andb_false_iff in E.
      destruct (IH (i + 1) idx best) as [[Hr Hn] | [Hr [Hv Hm]]].
      * left. split; [exact Hr|].
        intros m' [<- | Hin] Hlt; [lia | apply Hn; assumption].
      * right. set (r := ReadBench.find_best_above_from rest (i + 1) idx best) in *.
        split; [cbn [length]; lia|].
        replace (Z.to_nat (r - i)) with (S (Z.to_nat (r - (i + 1)))) by lia.
        cbn [nth]. split; [lia|].
        intros m' [<- | Hin] Hlt; [lia | apply Hm; assumption].
Qed.

Lemma find_closest_from_spec (mhz : list Z) :
  forall i idx bestd,
    let r := ReadBench.find_closest_from mhz i idx bestd in
    (r = idx /\ forall m, In m mhz -> bestd <= Z.abs (m - 50))
    \/ (i <= r < i + Z.of_nat (length mhz)
        /\ Z.abs (nth (Z.to_nat (r - i)) mhz 0 - 50) < bestd
        /\ (forall m, In m mhz ->
              Z.abs (nth (Z.to_nat (r - i)) mhz 0 - 50) <= Z.abs (m - 50))
        /\ (forall j, (j < Z.to_nat (r - i))%nat ->
              Z.abs (nth (Z.to_nat (r - i)) mhz 0 - 50) < Z.abs (nth j mhz 0 - 50))).
Proof.
  induction mhz as [|m rest IH]; intros i idx bestd.
  - left. split; [reflexivity | intros m []].
  - cbn [ReadBench.find_closest_from]. cbv zeta.
    destruct (Z.abs (m - 50) <? bestd) eqn:E.
    + destruct (IH (i + 1) i (Z.abs (m - 50))) as [[Hr Hn] | [Hr [Hv [Hm Hj]]]].
      * right. rewrite Hr. split; [cbn [length]; lia|].
        rewrite Z.sub_diag. cbn [Z.to_nat nth]. split; [lia|]. split.
        -- intros m' [<- | Hin]; [lia | apply Hn; assumption].
        -- intros j Hlt. lia.
      * right. set (r := ReadBench.find_closest_from rest (i + 1) i (Z.abs (m - 50))) in *.
        split; [cbn [length]; lia|].
        replace (Z.to_nat (r - i)) with (S (Z.to_nat (r - (i + 1)))) by lia.
        cbn [nth]. split; [lia|]. split.
        -- intros m' [<- | Hin]; [lia | apply Hm; assumption].
        -- intros [|j] Hlt; [exact Hv | apply Hj; lia].
    + destruct (IH (i + 1) idx bestd) as [[Hr Hn] | [Hr [Hv [Hm Hj]]]].
      * left. split; [exact Hr|].
        intros m' [<- | Hin]; [lia | apply Hn; assumption].
      * right. set (r := ReadBench.find_closest_from rest (i + 1) idx bestd) in *.
        split; [cbn [length]; lia|].
        replace (Z.to_nat (r - i)) with (S (Z.to_nat (r - (i + 1)))) by lia.
        cbn [nth]. split; [lia|]. split.
        -- intros m' [<- | Hin]; [lia | apply Hm; assumption].
        -- intros [|j] Hlt; [lia | apply Hj; lia].
Qed.

(** C9, as the code has it.  With at least one and at most eight filled
    captures (the arrays of the function hold eight) and achieved clocks
    between 0 and 1000 MHz, each row of the derived table
    is: when some capture is strictly below 50 MHz and some strictly above,
    the linear interpolation, in [double] arithmetic, between the highest
    capture below and the lowest capture above 50 MHz; otherwise the
    throughput of the capture closest to 50 MHz times 50 over its clock.  A
    capture at exactly 50 MHz is on neither side.  The value kept in
    [g_derived_50mhz_speed] is that of the 4096-byte row.  For captures at
    32 MHz and 63 MHz that measured 3 and 6 MB/s the interpolated value lies
    strictly between the two; when both measured 3 MB/s it is 3 MB/s. *)
Theorem C9_derived_throughput (caps : list ReadBench.read_bench_capture_t)
    (si : nat) :
  let used := filter ReadBench.filled caps in
  let actuals := map ReadBench.actual_mhz used in
  let mb := fun c => nth si (ReadBench.mb_s c) 0%float in
  let below := exists a, In a actuals /\ a < 50 in
  let above := exists b, In b actuals /\ 50 < b in
  Forall (fun a => 0 <= a <= 1000) actuals ->
  used <> [] ->
  (length used <= 8)%nat ->
  ReadBench.read_derive_and_print_50 caps
  = (map (ReadBench.mb50_row actuals used) (seq 0 5),
     ReadBench.mb50_row actuals used 2)
  /\ (below /\ above ->
      exists lo hi,
        In lo used /\ In hi used
        /\ ReadBench.actual_mhz lo < 50 < ReadBench.actual_mhz hi
        /\ (forall c, In c used ->
              ReadBench.actual_mhz c <= ReadBench.actual_mhz lo
              \/ ReadBench.actual_mhz c = 50
              \/ ReadBench.actual_mhz hi <= ReadBench.actual_mhz c)
        /\ ReadBench.mb50_row actuals used si
           = ReadBench.linear_interpolation (ReadBench.actual_mhz lo)
               (ReadBench.actual_mhz hi) (mb lo) (mb hi))
  /\ (~ (below /\ above) ->
      exists c,
        In c used
        /\ (forall c', In c' used ->
              Z.abs (ReadBench.actual_mhz c - 50)
              <= Z.abs (ReadBench.actual_mhz c' - 50))
        /\ ReadBench.mb50_row actuals used si
           = ReadBench.proportional_scaling (ReadBench.actual_mhz c) (mb c))
  /\ (let r := snd (ReadBench.read_derive_and_print_50
                      [ReadBench.capture_at 32 3; ReadBench.capture_at 63 6]) in
      PrimFloat.ltb 3 r = true /\ PrimFloat.ltb r 6 = true)
  /\ snd (ReadBench.read_derive_and_print_50
            [ReadBench.capture_at 32 3; ReadBench.capture_at 63 3]) = 3%float.
Proof.
  intros used actuals mb below above Hrange Hne _.
  rewrite Forall_forall in Hrange.
  assert (Hlen : length actuals = length used) by (unfold actuals; apply length_map).
  pose proof (find_best_below_from_spec actuals 0 (-1) (-100000)) as Hlo.
  pose proof (find_best_above_from_spec actuals 0 (-1) 1000000) as Hhi.
  pose proof (find_closest_from_spec actuals 0 (-1) 1000000) as Hcl.
  cbv zeta in Hlo, Hhi, Hcl.
  change (ReadBench.find_best_below_from actuals 0 (-1) (-100000))
    with (ReadBench.find_best_below actuals) in Hlo.
  change (ReadBench.find_best_above_from actuals 0 (-1) 1000000)
    with (ReadBench.find_best_above actuals) in Hhi.
  change (ReadBench.find_closest_from actuals 0 (-1) 1000000)
    with (ReadBench.find_closest actuals) in Hcl.
  rewrite Z.sub_0_r in Hlo, Hhi, Hcl.
  set (ilo := ReadBench.find_best_below actuals) in *.
  set (ihi := ReadBench.find_best_above actuals) in *.
  set (ic := ReadBench.find_closest actuals) in *.
  split; [|split; [|split; [|split]]].
  - unfold ReadBench.read_derive_and_print_50. fold used. fold actuals.
    destruct used as [|c0 rest] eqn:Eu; [congruence|].
    cbn [length Nat.eqb]. reflexivity.
  - intros [[a [Ha1 Ha2]] [b [Hb1 Hb2]]].
    destruct Hlo as [[_ Hn] | [Hl [Hv Hm]]];
      [specialize (Hn a Ha1 Ha2); specialize (Hrange a Ha1); cbv beta in Hrange; lia|].
    destruct Hhi as [[_ Hn] | [Hh [Hw Hk]]];
      [specialize (Hn b Hb1 Hb2); specialize (Hrange b Hb1); cbv beta in Hrange; lia|].
    exists (nth (Z.to_nat ilo) used ReadBench.no_capture),
           (nth (Z.to_nat ihi) used ReadBench.no_capture).
    rewrite !actual_of_used. fold actuals.
    split; [apply nth_In; lia|]. split; [apply nth_In; lia|]. split; [lia|]. split.
    + intros c Hc.
      assert (Hin : In (ReadBench.actual_mhz c) actuals) by (apply in_map; exact Hc).
      destruct (Z.lt_trichotomy (ReadBench.actual_mhz c) 50) as [Hlt | [Heq | Hgt]].
      * left. apply Hm; assumption.
      * right. left. exact Heq.
      * right. right. apply Hk; assumption.
    + unfold ReadBench.mb50_row. fold ilo. fold ihi.
      replace ((ilo >=? 0) && (ihi >=? 0)) with true
        by (symmetry; apply andb_true_iff; split; lia).
      assert (Hrl := Hrange _ (nth_In actuals 0 (n := Z.to_nat ilo) ltac:(lia))).
      assert (Hrh := Hrange _ (nth_In actuals 0 (n := Z.to_nat ihi) ltac:(lia))).
      cbv beta in Hrl, Hrh. cbv zeta.
      rewrite double_gap by lia. reflexivity.
  - intros Hnot.
    assert (Hb : (ilo >=? 0) && (ihi >=? 0) = false).
    { destruct ((ilo >=? 0) && (ihi >=? 0)) eqn:E; [|reflexivity].
      exfalso. apply Hnot. apply andb_true_iff in E.
      destruct Hlo as [[Hl _] | [Hl [Hv _]]]; [lia|].
      destruct Hhi as [[Hh _] | [Hh [Hw _]]]; [lia|].
      split.
      - exists (nth (Z.to_nat ilo) actuals 0). split; [apply nth_In; lia | lia].
      - exists (nth (Z.to_nat ihi) actuals 0). split; [apply nth_In; lia | lia]. }
    destruct Hcl as [[_ Hn] | [Hr [_ [Hm _]]]].
    + exfalso. destruct used as [|c0 rest] eqn:Eu; [congruence|].
      specialize (Hn (ReadBench.actual_mhz c0) (or_introl eq_refl)).
      specialize (Hrange (ReadBench.actual_mhz c0) (or_introl eq_refl)).
      cbv beta in Hrange. lia.
    + exists (nth (Z.to_nat ic) used ReadBench.no_capture).
      rewrite !actual_of_used. fold actuals.
      split; [apply nth_In; lia|]. split.
      * intros c' Hc'. apply Hm. apply in_map. exact Hc'.
      * unfold ReadBench.mb50_row. fold ilo. fold ihi. fold ic. rewrite Hb.
        reflexivity.
  - vm_compute. split; reflexivity.
  - vm_compute. reflexivity.
Qed.

Lemma C9_derived_throughput_witness :
  let caps := [ReadBench.capture_at 32 3; ReadBench.capture_at 63 6] in
  let used := filter ReadBench.filled caps in
  let actuals := map ReadBench.actual_mhz used in
  let mb := fun c => nth 2 (ReadBench.mb_s c) 0%float in
  exists lo hi,
    In lo used /\ In hi used
    /\ ReadBench.actual_mhz lo < 50 < ReadBench.actual_mhz hi
    /\ (forall c, In c used ->
          ReadBench.actual_mhz c <= ReadBench.actual_mhz lo
          \/ ReadBench.actual_mhz c = 50
          \/ ReadBench.actual_mhz hi <= ReadBench.actual_mhz c)
    /\ ReadBench.mb50_row actuals used 2
       = ReadBench.linear_interpolation (ReadBench.actual_mhz lo)
           (ReadBench.actual_mhz hi) (mb lo) (mb hi).
Proof.
  destruct (C9_derived_throughput
              [ReadBench.capture_at 32 3; ReadBench.capture_at 63 6] 2)
    as [_ [H _]].
  - repeat (constructor; [cbn; lia|]). constructor.
  - discriminate.
  - cbn. lia.
  - apply H. split.
    + exists 32. split; [left; reflexivity | lia].
    + exists 63. split; [right; left; reflexivity | lia].
Defined.

(** C9, as the specification words it, fails twice.  The interpolated
    value need not lie strictly between the two measured throughputs:
    captures at 32 MHz and 63 MHz bracket 50 MHz and the table interpolates;
    when both measured 3 MB/s at the 4096-byte size the derived value is
    3 MB/s, which is neither above the one nor below the other.  And a
    capture at exactly 50 MHz does not bracket: with captures at 32, 50 and
    63 MHz that measured 3, 10 and 6 MB/s, the pair at 50 and 63 MHz has one
    clock at most 50 and one at least 50, yet the table interpolates between
    32 and 63 MHz and derives less than 6 MB/s where 10 was measured. *)
Lemma C9_equal_throughputs_not_strictly_between :
  let caps := [ReadBench.capture_at 32 3; ReadBench.capture_at 63 3] in
  let r := snd (ReadBench.read_derive_and_print_50 caps) in
  let caps3 := [ReadBench.capture_at 32 3; ReadBench.capture_at 50 10;
                ReadBench.capture_at 63 6] in
  let r3 := snd (ReadBench.read_derive_and_print_50 caps3) in
  ReadBench.interpolates (map ReadBench.actual_mhz caps) = true
  /\ r = ReadBench.linear_interpolation 32 63 3 3
  /\ ~ (PrimFloat.ltb 3 r = true /\ PrimFloat.ltb r 3 = true)
  /\ r3 = ReadBench.linear_interpolation 32 63 3 6
  /\ r3 <> ReadBench.linear_interpolation 50 63 10 6
  /\ PrimFloat.ltb r3 6 = true.
Proof.
  split; [reflexivity|]. split; [vm_compute; reflexivity|].
  split; [intros [H _]; vm_compute in H; discriminate H|].
  split; [vm_compute; reflexivity|].
  split; [|vm_compute; reflexivity].
  intros H.
  assert (E : PrimFloat.ltb
                (snd (ReadBench.read_derive_and_print_50
                        [ReadBench.capture_at 32 3; ReadBench.capture_at 50 10;
                         ReadBench.capture_at 63 6]))
                6 = true) by (vm_compute; reflexivity).
  rewrite H in E. vm_compute in E. discriminate E.
Qed.

(** When the derived table interpolates, it does so between the two
    captures that bracket 50 MHz most tightly: with every frequency between
    -100000 and 1000000, both indices are found exactly when some capture is
    below 50 MHz and some is above, and then they index a capture below and
    one above 50 MHz with no capture strictly between them other than at
    50 MHz itself. *)
Theorem interpolation_bracket_tightest (mhz : list Z) :
  Forall (fun m => -100000 < m < 1000000) mhz ->
  let lo := ReadBench.find_best_below mhz in
  let hi := ReadBench.find_best_above mhz in
  (ReadBench.interpolates mhz = true
   <-> (exists a, In a mhz /\ a < 50) /\ (exists b, In b mhz /\ 50 < b))
  /\ (ReadBench.interpolates mhz = true ->
      0 <= lo < Z.of_nat (length mhz) /\ 0 <= hi < Z.of_nat (length mhz)
      /\ nth (Z.to_nat lo) mhz 0 < 50 < nth (Z.to_nat hi) mhz 0
      /\ forall m, In m mhz ->
           m <= nth (Z.to_nat lo) mhz 0 \/ m = 50 \/ nth (Z.to_nat hi) mhz 0 <= m).
Proof.
  intros Hrange lo hi. rewrite Forall_forall in Hrange.
  unfold ReadBench.interpolates. fold lo. fold hi.
  pose proof (find_best_below_from_spec mhz 0 (-1) (-100000)) as Hlo.
  pose proof (find_best_above_from_spec mhz 0 (-1) 1000000) as Hhi.
  cbv zeta in Hlo, Hhi.
  change (ReadBench.find_best_below_from mhz 0 (-1) (-100000)) with lo in Hlo.
  change (ReadBench.find_best_above_from mhz 0 (-1) 1000000) with hi in Hhi.
  rewrite Z.sub_0_r in Hlo, Hhi. rewrite andb_true_iff. split; [split|].
  - intros [H1 H2].
    destruct Hlo as [[Hl _] | [Hl [Hv _]]]; [lia|].
    destruct Hhi as [[Hh _] | [Hh [Hw _]]]; [lia|].
    split.
    + exists (nth (Z.to_nat lo) mhz 0). split; [apply nth_In; lia | lia].
    + exists (nth (Z.to_nat hi) mhz 0). split; [apply nth_In; lia | lia].
  - intros [[a [Ha1 Ha2]] [b [Hb1 Hb2]]]. split.
    + destruct Hlo as [[Hl Hn] | [Hl _]]; [|lia].
      specialize (Hn a Ha1 Ha2). specialize (Hrange a Ha1). cbv beta in Hrange. lia.
    + destruct Hhi as [[Hh Hn] | [Hh _]]; [|lia].
      specialize (Hn b Hb1 Hb2). specialize (Hrange b Hb1). cbv beta in Hrange. lia.
  - intros [H1 H2].
    destruct Hlo as [[Hl _] | [Hl [Hv Hm]]]; [lia|].
    destruct Hhi as [[Hh _] | [Hh [Hw Hk]]]; [lia|].
    split; [lia|]. split; [lia|]. split; [lia|].
    intros m Hin.
    destruct (Z.lt_trichotomy m 50) as [Hlt | [Heq | Hgt]].
    + left. apply Hm; assumption.
    + right. left. exact Heq.
    + right. right. apply Hk; assumption.
Qed.

Lemma interpolation_bracket_tightest_witness :
  let mhz := [21; 32; 63; 50; 40; 125] in
  let lo := ReadBench.find_best_below mhz in
  let hi := ReadBench.find_best_above mhz in
  (ReadBench.interpolates mhz = true
   <-> (exists a, In a mhz /\ a < 50) /\ (exists b, In b mhz /\ 50 < b))
  /\ (ReadBench.interpolates mhz = true ->
      0 <= lo < Z.of_nat (length mhz) /\ 0 <= hi < Z.of_nat (length mhz)
      /\ nth (Z.to_nat lo) mhz 0 < 50 < nth (Z.to_nat hi) mhz 0
      /\ forall m, In m mhz ->
           m <= nth (Z.to_nat lo) mhz 0 \/ m = 50 \/ nth (Z.to_nat hi) mhz 0 <= m).
Proof.
  apply (interpolation_bracket_tightest [21; 32; 63; 50; 40; 125]).
  repeat (constructor; [lia|]). constructor.
Defined.

(** With at least one capture, [find_closest] returns a valid index, that
    of the first capture whose frequency is nearest to 50 MHz (every
    frequency within 1000000 of 50); without captures it returns -1. *)
Theorem find_closest_nearest (mhz : list Z) :
  Forall (fun m => Z.abs (m - 50) < 1000000) mhz ->
  let r := ReadBench.find_closest mhz in
  (mhz = [] -> r = -1)
  /\ (mhz <> [] ->
      0 <= r < Z.of_nat (length mhz)
      /\ (forall m, In m mhz -> Z.abs (nth (Z.to_nat r) mhz 0 - 50) <= Z.abs (m - 50))
      /\ (forall j, (j < Z.to_nat r)%nat ->
            Z.abs (nth (Z.to_nat r) mhz 0 - 50) < Z.abs (nth j mhz 0 - 50))).
Proof.
  intros Hrange r. rewrite Forall_forall in Hrange. split.
  - intros ->. reflexivity.
  - intros Hne.
    pose proof (find_closest_from_spec mhz 0 (-1) 1000000) as H. cbv zeta in H.
    change (ReadBench.find_closest_from mhz 0 (-1) 1000000) with r in H.
    rewrite Z.sub_0_r in H.
    destruct H as [[_ Hn] | [Hr [_ [Hm Hj]]]].
    + exfalso. destruct mhz as [|m rest]; [congruence|].
      specialize (Hn m (or_introl eq_refl)).
      specialize (Hrange m (or_introl eq_refl)). cbv beta in Hrange. lia.
    + split; [lia|]. split; assumption.
Qed.

Lemma find_closest_nearest_witness :
  let mhz := [21; 63; 40; 60; 125] in
  let r := ReadBench.find_closest mhz in
  (mhz = [] -> r = -1)
  /\ (mhz <> [] ->
      0 <= r < Z.of_nat (length mhz)
      /\ (forall m, In m mhz -> Z.abs (nth (Z.to_nat r) mhz 0 - 50) <= Z.abs (m - 50))
      /\ (forall j, (j < Z.to_nat r)%nat ->
            Z.abs (nth (Z.to_nat r) mhz 0 - 50) < Z.abs (nth j mhz 0 - 50))).
Proof.
  apply (find_closest_nearest [21; 63; 40; 60; 125]).
  repeat (constructor; [lia|]). constructor.
Defined.

(** ** Restore of a whole chip from an image on the card *)





Section ImageRestore.

Context {dev : Type} (respond : dev -> list Z -> nat -> (nat -> Z) * dev).
Variable polls : nat.
Variable image : list Z.

Let total : Z := Z.of_nat (length image).

Hypothesis total_small : total <= 2 ^ 24.





End ImageRestore.

Lemma jedec_probe_trace {dev : Type}
    (respond : dev -> list Z -> nat -> (nat -> Z) * dev)
    (spi_set_baudrate : Z -> Z) (clk_hz : Z) (w : world dev) :
  trace (snd (jedec_probe respond spi_set_baudrate clk_hz w))
  = trace w ++ [Txn [159] 3; Txn [90; 0; 0; 0; 0] 16]
    ++ (if total_bytes (snd (fst (jedec_probe respond spi_set_baudrate clk_hz w)))
           >? 16777216
        then [Txn [183] 0] else []).
Proof.
  unfold jedec_probe, read_jedec_id, try_sfdp.
  pose proof (transact_trace respond [159] 3 w) as T1.
  destruct (transact respond [159] 3 w) as [id w1]. cbn [snd] in T1.
  pose proof (transact_trace respond [90; 0; 0; 0; 0] 16 w1) as T2.
  destruct (transact respond [90; 0; 0; 0; 0] 16 w1) as [buf w2]. cbn [snd] in T2.
  cbv zeta. cbn [fst snd total_bytes]. change (16 * 1024 * 1024) with 16777216.
  destruct ((if capacity_from_id (nth 2 id 0) =? 0 then 512 * 1024
             else capacity_from_id (nth 2 id 0)) >? 16777216).
  - rewrite send_trace, T2, T1, <- !app_assoc. reflexivity.
  - rewrite T2, T1, <- !app_assoc. reflexivity.
Qed.

(** A restore that is refused leaves the chip as the probe left it.  When
    the probed chip is larger than 16 MiB, the image cannot be opened or its
    size is not that of the chip, [universal_restore_from_sd] returns
    [false] and the bus has carried only the probe: the JEDEC ID read, the
    SFDP read and, for a chip above 16 MiB, the 0xB7 that switched it to
    4-byte addressing; no write enable, erase or program was sent. *)
Theorem universal_restore_refused_untouched {dev : Type}
    (respond : dev -> list Z -> nat -> (nat -> Z) * dev)
    (spi_set_baudrate : Z -> Z) (clk_hz : Z) {F : Type} (fs : UnivRestore.fatfs F)
    (polls budget fuel : nat) (verify : bool) (w : world dev) :
  let chip := snd (fst (jedec_probe respond spi_set_baudrate clk_hz w)) in
  16777216 < total_bytes chip
  \/ UnivRestore.f_open fs = None
  \/ (exists f, UnivRestore.f_open fs = Some f
                /\ u32 (UnivRestore.f_size fs f) <> total_bytes chip) ->
  exists w',
    UnivRestore.universal_restore_from_sd respond spi_set_baudrate clk_hz fs
      polls budget fuel true verify w = Some (false, w')
    /\ trace w' = trace w ++ [Txn [159] 3; Txn [90; 0; 0; 0; 0] 16]
                  ++ (if total_bytes chip >? 16777216 then [Txn [183] 0] else []).
Proof.
  intros chip H.
  pose proof (jedec_probe_trace respond spi_set_baudrate clk_hz w) as T.
  fold chip in T. unfold UnivRestore.universal_restore_from_sd. cbn [negb].
  unfold chip in *. clear chip.
  destruct (jedec_probe respond spi_set_baudrate clk_hz w) as [[ok chip] w1].
  cbn [fst snd] in *. exists w1. split; [|exact T].
  destruct (total_bytes chip =? 0); [reflexivity|].
  change (Z.shiftl 16 20) with 16777216.
  destruct (total_bytes chip >? 16777216) eqn:E; [reflexivity|].
  destruct H as [H | [H | [f [H Hne]]]].
  - lia.
  - rewrite H. reflexivity.
  - rewrite H. destruct (u32 (UnivRestore.f_size fs f) =? total_bytes chip) eqn:Es;
      [lia | reflexivity].
Qed.

Lemma universal_restore_refused_untouched_witness :
  exists w',
    UnivRestore.universal_restore_from_sd Mock.respond (fun hz => hz) 1000000
      (UnivRestore.image_file [1; 2; 3]) 4 17 4 true true
      (Mock.boot (Mock.with_jedec_id [239; 64; 25] Mock.blank))
    = Some (false, w')
    /\ trace w' = [] ++ [Txn [159] 3; Txn [90; 0; 0; 0; 0] 16]
                  ++ (if 33554432 >? 16777216 then [Txn [183] 0] else []).
Proof.
  apply (universal_restore_refused_untouched Mock.respond (fun hz => hz) 1000000
           (UnivRestore.image_file [1; 2; 3]) 4 17 4 true
           (Mock.boot (Mock.with_jedec_id [239; 64; 25] Mock.blank))).
  left. vm_compute. reflexivity.
Defined.



(** ** The blocks a restore pulls *)

Lemma restore_loop_follows_plan {dev : Type}
    (respond : dev -> list Z -> nat -> (nat -> Z) * dev) {U : Type}
    (polls budget : nat) (chip : jedec_chip_t) (opts : jedec_restore_opts_t)
    (src : jedec_source_cb U) (offset len sector : Z) :
  0 < sector -> 0 <= offset -> 0 <= len -> offset + len + sector <= 2 ^ 32 ->
  forall (k i fuel : nat) (w : world dev) (u : U),
    (i + k = Z.to_nat ((len + sector - 1) / sector))%nat -> (k < fuel)%nat ->
    restore_loop respond polls budget fuel chip opts src (offset + len) sector
      (offset + Z.of_nat i * sector) w u
    = restore_blocks respond polls budget chip opts src
        (map (fun i => (offset + Z.of_nat i * sector,
                        Z.min sector (len - Z.of_nat i * sector))) (seq i k)) w u.
Proof.
  intros Hc Ho Hl Hr.
  pose proof (count_spec offset len sector Hc Ho Hl Hr) as Hcs.
  induction k as [|k IH]; intros i fuel w u Hik Hf.
  - destruct fuel as [|f]; [lia|]. cbn [restore_loop seq map restore_blocks].
    destruct (offset + Z.of_nat i * sector <? offset + len) eqn:E; [nia | reflexivity].
  - destruct fuel as [|f]; [lia|]. cbn [restore_loop seq map restore_blocks].
    assert (Hlt : Z.of_nat i * sector < len)
      by (apply (slot_before_end offset len sector Hc Ho Hl Hr); lia).
    destruct (offset + Z.of_nat i * sector <? offset + len) eqn:E; [|lia].
    assert (Hsum : u32 (offset + Z.of_nat i * sector + sector)
                   = offset + Z.of_nat (S i) * sector)
      by (unfold u32; rewrite Z.mod_small by nia; rewrite Nat2Z.inj_succ; ring).
    rewrite Hsum.
    assert (Hs : Z.of_nat (S i) * sector = Z.of_nat i * sector + sector)
      by (rewrite Nat2Z.inj_succ; ring).
    assert (Hn : (if offset + Z.of_nat (S i) * sector >? offset + len
                  then u32 (offset + len - (offset + Z.of_nat i * sector))
                  else sector)
                 = Z.min sector (len - Z.of_nat i * sector)).
    { destruct (offset + Z.of_nat (S i) * sector >? offset + len) eqn:E1.
      - rewrite Hs in E1. unfold u32. rewrite Z.mod_small by lia. lia.
      - rewrite Hs in E1. lia. }
    rewrite Hn.
    destruct (src u (Z.min sector (len - Z.of_nat i * sector))
                (offset + Z.of_nat i * sector)) as [[[ok got] data] u1].
    destruct (negb ok || negb (got =? Z.min sector (len - Z.of_nat i * sector)));
      [reflexivity|].
    destruct (restore_block respond polls budget chip opts
                (offset + Z.of_nat i * sector)
                (map (fun i0 => u8 (data i0))
                     (seq 0 (Z.to_nat (Z.min sector (len - Z.of_nat i * sector)))))
                (Z.min sector (len - Z.of_nat i * sector)) w) as [[go_on w1]|];
      [|reflexivity].
    cbn [bind]. destruct go_on; [|reflexivity].
    apply IH; lia.
Qed.

Lemma restore_stream_as_blocks {dev : Type}
    (respond : dev -> list Z -> nat -> (nat -> Z) * dev) (malloc_ok : Z -> bool)
    {U : Type} (polls fuel : nat) (chip : jedec_chip_t) (offset len : Z)
    (src : jedec_source_cb U) (w : world dev) (u : U) (opts : jedec_restore_opts_t) :
  0 < erase_gran opts -> 0 <= offset -> 0 <= len ->
  offset + len + erase_gran opts <= 2 ^ 32 ->
  malloc_ok (erase_gran opts) = true ->
  (Z.to_nat ((len + erase_gran opts - 1) / erase_gran opts) < fuel)%nat ->
  jedec_restore_stream respond malloc_ok polls fuel chip offset len (Some src) w u
    (Some opts)
  = (r <- jedec_try_unprotect respond polls chip w ;;
     restore_blocks respond polls fuel chip opts src
       (chunk_plan offset len (erase_gran opts)) (snd r) u).
Proof.
  intros Hc Ho Hl Hr Hm Hf.
  unfold jedec_restore_stream. rewrite Hm. cbn [negb].
  destruct (jedec_try_unprotect respond polls chip w) as [[b w1]|]; [|reflexivity].
  cbn [bind snd].
  assert (Hend : u32 (offset + len) = offset + len)
    by (unfold u32; apply Z.mod_small; lia).
  rewrite Hend.
  pose proof (restore_loop_follows_plan respond polls fuel chip opts src offset len
                (erase_gran opts) Hc Ho Hl Hr
                (Z.to_nat ((len + erase_gran opts - 1) / erase_gran opts)) 0%nat
                fuel w1 u ltac:(lia) Hf) as H.
  cbn [Z.of_nat] in H. rewrite Z.mul_0_l, Z.add_0_r in H. exact H.
Qed.

(** For a range that leaves room for one more erase granule below 4 GiB
    ([offset + len + sector <= 2^32]), [jedec_restore_stream] asks the
    source for the blocks of the range in increasing order, one erase
    granule each and a possibly shorter last one, after the unprotect
    attempt; it stops with [false] at the first pull that fails or comes
    back short and at the first block whose verification fails, and answers
    [true] after the last block. *)
Theorem restore_stream_pulls_plan {dev : Type}
    (respond : dev -> list Z -> nat -> (nat -> Z) * dev) (malloc_ok : Z -> bool)
    {U : Type} (polls fuel : nat) (chip : jedec_chip_t) (offset len : Z)
    (src : jedec_source_cb U) (w : world dev) (u : U) (opts : jedec_restore_opts_t) :
  let sector := erase_gran opts in
  let plan := chunk_plan offset len sector in
  0 < sector -> 0 <= offset -> 0 <= len -> offset + len + sector <= 2 ^ 32 ->
  malloc_ok sector = true ->
  (Z.to_nat ((len + sector - 1) / sector) < fuel)%nat ->
  jedec_restore_stream respond malloc_ok polls fuel chip offset len (Some src) w u
    (Some opts)
  = (r <- jedec_try_unprotect respond polls chip w ;;
     restore_blocks respond polls fuel chip opts src plan (snd r) u)
  /\ tiles offset plan (offset + len)
  /\ full_but_last sector plan.
Proof.
  intros sector plan Hc Ho Hl Hr Hm Hf. split; [|split].
  - exact (restore_stream_as_blocks respond malloc_ok polls fuel chip offset len src
             w u opts Hc Ho Hl Hr Hm Hf).
  - unfold plan, chunk_plan.
    destruct (Z.to_nat ((len + sector - 1) / sector)) as [|k] eqn:Ek.
    + pose proof (count_spec offset len sector Hc Ho Hl Hr) as Hcs.
      rewrite Ek in Hcs. cbn [seq map tiles]. lia.
    + pose proof (plan_tiles offset len sector Hc Ho Hl Hr k 0%nat ltac:(lia)) as H.
      cbn [Z.of_nat] in H. rewrite Z.mul_0_l, Z.add_0_r in H. exact H.
  - unfold plan, chunk_plan.
    destruct (Z.to_nat ((len + sector - 1) / sector)) as [|k] eqn:Ek.
    + exact I.
    + apply (plan_full_but_last offset len sector Hc Ho Hl Hr k 0%nat). lia.
Qed.

Lemma restore_stream_pulls_plan_witness :
  let plan := chunk_plan 4096 5000 4096 in
  jedec_restore_stream Mock.respond small_heap 8 20 chip_16MiB 4096 5000
    (Some (image_source (fun a => a mod 251))) (Mock.boot Mock.blank) 0%nat
    (Some opts_all_on)
  = (r <- jedec_try_unprotect Mock.respond 8 chip_16MiB (Mock.boot Mock.blank) ;;
     restore_blocks Mock.respond 8 20 chip_16MiB opts_all_on
       (image_source (fun a => a mod 251)) plan (snd r) 0%nat)
  /\ tiles 4096 plan (4096 + 5000)
  /\ full_but_last 4096 plan.
Proof.
  apply (restore_stream_pulls_plan Mock.respond small_heap 8 20 chip_16MiB 4096 5000
           (image_source (fun a => a mod 251)) (Mock.boot Mock.blank) 0%nat
           opts_all_on); vm_compute; first [reflexivity | discriminate | lia].
Defined.

(** ** Restore without verification *)

Lemma restore_blocks_unverified {dev : Type}
    (respond : dev -> list Z -> nat -> (nat -> Z) * dev) {U : Type}
    (polls budget : nat) (chip : jedec_chip_t) (opts : jedec_restore_opts_t)
    (src : jedec_source_cb U) :
  verify_after_write opts = false ->
  forall (plan : list (Z * Z)) (w : world dev) (u : U) w' u',
    restore_blocks respond polls budget chip opts src plan w u = Some (false, w', u') ->
    exists before a n after uk,
      plan = before ++ (a, n) :: after
      /\ restore_blocks respond polls budget chip opts src before w u
         = Some (true, w', uk)
      /\ (fst (fst (fst (src uk n a))) = false
          \/ snd (fst (fst (src uk n a))) <> n)
      /\ u' = snd (src uk n a).
Proof.
  intros Hver. induction plan as [|[a n] rest IH]; intros w u w' u' H;
    [discriminate H|].
  cbn [restore_blocks] in H.
  destruct (src u n a) as [[[ok got] data] u1] eqn:Es.
  destruct (negb ok || negb (got =? n)) eqn:Eb.
  - inversion H; subst w' u'. exists [], a, n, rest, u.
    split; [reflexivity|]. split; [reflexivity|]. rewrite Es. cbn [fst snd].
    split; [|reflexivity].
    apply orb_true_iff in Eb. destruct Eb as [Eb | Eb].
    + left. destruct ok; [discriminate Eb | reflexivity].
    + right. destruct (got =? n) eqn:Eg; [discriminate Eb | lia].
  - assert (Hblock : forall w1 g,
              restore_block respond polls budget chip opts a
                (map (fun i => u8 (data i)) (seq 0 (Z.to_nat n))) n w = Some (g, w1) ->
              g = true).
    { intros w1 g Hb. unfold restore_block in Hb. rewrite Hver in Hb.
      destruct (negb (skip_erase_when_all_ff opts
                      && all_ff (map (fun i => u8 (data i)) (seq 0 (Z.to_nat n))) n)).
      - destruct (erase_4k respond polls chip a w) as [x|]; [|discriminate Hb].
        cbn [bind] in Hb.
        destruct (program_pages respond polls budget chip opts a
                    (map (fun i => u8 (data i)) (seq 0 (Z.to_nat n))) n 0 x)
          as [y|]; [|discriminate Hb].
        cbn [bind] in Hb. now inversion Hb.
      - now inversion Hb. }
    destruct (restore_block respond polls budget chip opts a
                (map (fun i => u8 (data i)) (seq 0 (Z.to_nat n))) n w)
      as [[g w1]|] eqn:Er; [|discriminate H].
    cbn [bind] in H. rewrite (Hblock w1 g eq_refl) in *.
    destruct (IH w1 u1 w' u' H) as [before [a' [n' [after [uk [Hp [Hb [Hf Hu]]]]]]]].
    exists ((a, n) :: before), a', n', after, uk.
    split; [rewrite Hp; reflexivity|]. split; [|split; [exact Hf | exact Hu]].
    cbn [restore_blocks]. rewrite Es, Eb, Er. cbn [bind]. exact Hb.
Qed.

(** With [verify_after_write] off, nothing the chip does can make a restore
    fail.  For a range that leaves room for one more erase granule below
    4 GiB: when [jedec_restore_stream] returns [false], either the sector
    buffer could not be allocated and nothing was done, or the unprotect
    attempt returned, the blocks before some block of the range were pulled
    and restored, and the pull of that block, made in the state the source
    was then in, failed or came back short; the result is the world and the
    source state of that moment.  A protected chip or a failed erase or
    program goes unreported. *)
Theorem restore_unverified_fails_only_off_chip {dev : Type}
    (respond : dev -> list Z -> nat -> (nat -> Z) * dev) (malloc_ok : Z -> bool)
    {U : Type} (polls fuel : nat) (chip : jedec_chip_t) (offset len : Z)
    (src : jedec_source_cb U) (w : world dev) (u : U) (opts : jedec_restore_opts_t)
    (w' : world dev) (u' : U) :
  let sector := erase_gran opts in
  0 < sector -> 0 <= offset -> 0 <= len -> offset + len + sector <= 2 ^ 32 ->
  (Z.to_nat ((len + sector - 1) / sector) < fuel)%nat ->
  verify_after_write opts = false ->
  jedec_restore_stream respond malloc_ok polls fuel chip offset len (Some src) w u
    (Some opts) = Some (false, w', u') ->
  (malloc_ok sector = false /\ w' = w /\ u' = u)
  \/ exists r before a n after uk,
       jedec_try_unprotect respond polls chip w = Some r
       /\ chunk_plan offset len sector = before ++ (a, n) :: after
       /\ restore_blocks respond polls fuel chip opts src before (snd r) u
          = Some (true, w', uk)
       /\ (fst (fst (fst (src uk n a))) = false
           \/ snd (fst (fst (src uk n a))) <> n)
       /\ u' = snd (src uk n a).
Proof.
  intros sector Hc Ho Hl Hr Hf Hver H.
  destruct (malloc_ok sector) eqn:Em.
  - right.
    rewrite (restore_stream_as_blocks respond malloc_ok polls fuel chip offset len src
               w u opts Hc Ho Hl Hr Em Hf) in H.
    destruct (jedec_try_unprotect respond polls chip w) as [r|]; [|discriminate H].
    cbn [bind] in H.
    destruct (restore_blocks_unverified respond polls fuel chip opts src Hver _ _ _ _ _ H)
      as [before [a [n [after [uk [Hp [Hb [Hfail Hu]]]]]]]].
    exists r, before, a, n, after, uk.
    split; [reflexivity|]. split; [exact Hp|]. split; [exact Hb|].
    split; [exact Hfail | exact Hu].
  - left. unfold jedec_restore_stream in H. fold sector in H. rewrite Em in H.
    cbn [negb] in H. inversion H. split; [reflexivity|]. split; reflexivity.
Qed.

Lemma restore_unverified_fails_only_off_chip_witness :
  let src : jedec_source_cb nat :=
    fun pulls want offset => (Nat.eqb pulls 0, want, fun _ => 17, S pulls) in
  let opts := {| verify_after_write := false; skip_erase_when_all_ff := true;
                 skip_prog_when_all_ff := true; program_chunk := 256;
                 erase_gran := 4096 |} in
  exists w',
    jedec_restore_stream Mock.respond small_heap 8 20 chip_16MiB 0 8192 (Some src)
      (Mock.boot Mock.blank) 0%nat (Some opts) = Some (false, w', 2%nat)
    /\ exists r before a n after uk,
         jedec_try_unprotect Mock.respond 8 chip_16MiB (Mock.boot Mock.blank) = Some r
         /\ chunk_plan 0 8192 4096 = before ++ (a, n) :: after
         /\ restore_blocks Mock.respond 8 20 chip_16MiB opts src before (snd r) 0%nat
            = Some (true, w', uk)
         /\ (fst (fst (fst (src uk n a))) = false
             \/ snd (fst (fst (src uk n a))) <> n)
         /\ 2%nat = snd (src uk n a).
Proof.
  intros src opts. eexists. split; [vm_compute; reflexivity|].
  match goal with
  | |- exists r before a n after uk, _ /\ _ /\ restore_blocks _ _ _ _ _ _ _ _ _ = Some (true, ?w', _) /\ _ =>
      destruct (restore_unverified_fails_only_off_chip Mock.respond small_heap 8 20
                  chip_16MiB 0 8192 src (Mock.boot Mock.blank) 0%nat opts w' 2%nat)
        as [[Hm _] | H]
  end.
  - cbn; lia.
  - lia.
  - lia.
  - cbn. change (2 ^ 32) with 4294967296. lia.
  - vm_compute. lia.
  - reflexivity.
  - vm_compute. reflexivity.
  - vm_compute in Hm. discriminate Hm.
  - exact H.
Defined.
